(** * Ubuntu Image Fetcher

    A shallow embedding of [ubuntu_image_fetcher.py] and the properties of its
    fetch, validate and save sequence.

    The program is a Python script.  Its own functions
    ([get_content_type_extension], [generate_filename],
    [validate_image_response], [fetch_image]) are translated line by line.
    The library calls they make ([urlparse], [unquote], [os.path.basename],
    [pathlib.Path], [str] methods, [requests]) are modelled by the small
    executable definitions of the first half of the file; what belongs to the
    machine the script runs on (the network, the clock, the MIME table, the
    outcome of [mkdir] and [open]) is read from an environment record.
    [fetch_image] is the program on a machine whose standard output and
    disk take what they are given; [Full.fetch_image] is the program where
    [print], the writes and [urlparse] can fail too.

    Text comes in three kinds:
    - [str], a Python string: a list of Unicode code points ([N]);
    - [string], the value of an HTTP header: one 8-bit character per code
      point U+0000..U+00FF, which is how the HTTP client decodes header
      values (ISO-8859-1);
    - [bytes], a Python bytes object: a list of [Byte.byte]. *)

From Stdlib Require Import ZArith NArith List Ascii String DecimalString Lia.
From Stdlib Require Strings.Byte.
From stdpp Require Import gmap strings list.

Abbreviation str := (list N).
Abbreviation bytes := (list Byte.byte).

(** ** Characters and [str] methods *)

(** The code point of an 8-bit character, and a header value or a literal
    read as a [str]. *)
Definition chr (a : ascii) : N := N_of_ascii a.

Definition latin1 (s : string) : str := map N_of_ascii (list_ascii_of_string s).

Definition between (lo hi c : N) : bool := ((lo <=? c) && (c <=? hi))%N.

Definition isascii_alpha (c : N) : bool := between 65 90 c || between 97 122 c.

Definition isascii_digit (c : N) : bool := between 48 57 c.

(** [c.isalnum()] for a code point below U+0100, from the Unicode character
    database: the ASCII letters and digits, the letters of the Latin-1
    supplement (U+00AA, U+00B5, U+00BA, U+00C0..U+00FF without the two signs
    U+00D7 and U+00F7) and its numeric characters (superscripts U+00B2,
    U+00B3, U+00B9 and the fractions U+00BC..U+00BE). *)
Definition latin1_isalnum (c : N) : bool :=
  isascii_digit c || isascii_alpha c
  || (c =? 170)%N || (c =? 181)%N || (c =? 186)%N
  || (c =? 178)%N || (c =? 179)%N || (c =? 185)%N || between 188 190 c
  || between 192 214 c || between 216 246 c || between 248 255 c.

(** [c in chars] for a character [c] and a literal [chars]. *)
Definition char_in (c : N) (chars : string) : bool :=
  existsb (N.eqb c) (latin1 chars).

(** [s.find(c)] and [s.rfind(c)] for a single character [c]; [None] stands
    for Python's [-1]. *)
Fixpoint find (c : N) (s : str) : option nat :=
  match s with
  | [] => None
  | x :: s' => if (x =? c)%N then Some 0%nat else option_map S (find c s')
  end.

Fixpoint rfind (c : N) (s : str) : option nat :=
  match s with
  | [] => None
  | x :: s' =>
      match rfind c s' with
      | Some i => Some (S i)
      | None => if (x =? c)%N then Some 0%nat else None
      end
  end.

(** [s.find(c, start)]. *)
Definition find_from (c : N) (start : nat) (s : str) : option nat :=
  option_map (Nat.add start) (find c (drop start s)).

(** [s.lstrip(chars)] for a set of characters given as a predicate. *)
Fixpoint lstrip (p : N -> bool) (s : str) : str :=
  match s with
  | [] => []
  | x :: s' => if p x then lstrip p s' else s
  end.

(** [s.split(c, 1)] when [c] occurs in [s]: the text before and after the
    first [c]. *)
Definition split_once (c : N) (s : str) : str * str :=
  match find c s with
  | Some i => (take i s, drop (S i) s)
  | None => (s, [])
  end.

(** [s.split(c)]. *)
Fixpoint split_on (c : N) (s : str) : list str :=
  match s with
  | [] => [[]]
  | x :: s' =>
      if (x =? c)%N then [] :: split_on c s'
      else match split_on c s' with
           | h :: t => (x :: h) :: t
           | [] => [[x]]
           end
  end.

(** [sep.join(parts)] for a one-character separator. *)
Fixpoint join (sep : N) (parts : list str) : str :=
  match parts with
  | [] => []
  | [p] => p
  | p :: rest => p ++ sep :: join sep rest
  end.

(** The ASCII lower-casing that [str.lower] performs on a scheme name. *)
Definition ascii_lower (c : N) : N := if between 65 90 c then (c + 32)%N else c.

(** ** Header values: [string] methods *)

(** [s.lower()] on a Latin-1 string: A..Z and U+00C0..U+00DE (without the
    multiplication sign U+00D7) move up by 32; every other character of the
    range is its own lower case. *)
Definition latin1_lower (a : ascii) : ascii :=
  let c := N_of_ascii a in
  if between 65 90 c || (between 192 222 c && negb (c =? 215)%N)
  then ascii_of_N (c + 32) else a.

Fixpoint lower (s : string) : string :=
  match s with
  | EmptyString => EmptyString
  | String a s' => String (latin1_lower a) (lower s')
  end.

(** [s.startswith(p)]. *)
Definition startswith (p s : string) : bool := String.prefix p s.

(** [s.find(sub)]; [None] stands for [-1]. *)
Fixpoint str_find (sub s : string) : option nat :=
  if String.prefix sub s then Some 0%nat
  else match s with
       | EmptyString => None
       | String _ s' => option_map S (str_find sub s')
       end.

(** [sub in s]. *)
Definition contains (sub s : string) : bool :=
  match str_find sub s with Some _ => true | None => false end.

(** [s[n:]]. *)
Fixpoint str_drop (n : nat) (s : string) : string :=
  match n, s with
  | S n', String _ s' => str_drop n' s'
  | _, _ => s
  end.

(** [s[:n]]. *)
Fixpoint str_take (n : nat) (s : string) : string :=
  match n, s with
  | S n', String a s' => String a (str_take n' s')
  | _, _ => EmptyString
  end.

(** [s.split(sep)[1]] when [sep] (not empty) occurs in [s]: the text between
    the first occurrence of [sep] and the next one, or the end. *)
Definition split_second (sep s : string) : string :=
  match str_find sep s with
  | Some i =>
      let rest := str_drop (i + String.length sep) s in
      match str_find sep rest with
      | Some j => str_take j rest
      | None => rest
      end
  | None => EmptyString
  end.

(** [s.strip(chars)]: the characters of [chars] are removed from both ends. *)
Fixpoint str_lstrip (p : ascii -> bool) (s : string) : string :=
  match s with
  | EmptyString => EmptyString
  | String a s' => if p a then str_lstrip p s' else s
  end.

Definition str_rstrip (p : ascii -> bool) (s : string) : string :=
  String.rev (str_lstrip p (String.rev s)).

Definition str_strip (p : ascii -> bool) (s : string) : string :=
  str_rstrip p (str_lstrip p s).

(** The characters [strip] removes in [generate_filename]: the double quote
    (code 34) and the apostrophe (code 39). *)
Definition is_quote (a : ascii) : bool :=
  (N_of_ascii a =? 34)%N || (N_of_ascii a =? 39)%N.

(** [str(n)] and the [{n}] of an f-string for an integer. *)
Definition Z_to_string (n : Z) : string := NilZero.string_of_int (Z.to_int n).

(** The characters [int()] skips around a number.  It first maps the white
    space above U+007F (below U+0100 these are U+0085 and U+00A0) to a
    space, and then skips the white space of ASCII: tab to carriage return,
    and the space.  The separators U+001C..U+001F, white space for
    [str.isspace], are not skipped. *)
Definition is_space (a : ascii) : bool :=
  let c := N_of_ascii a in
  between 9 13 c || (c =? 32)%N || (c =? 133)%N || (c =? 160)%N.

(** The limit CPython puts on the digits of a decimal literal
    ([sys.int_info.default_max_str_digits]). *)
Definition max_str_digits : nat := 4300.

(** What [int(s)] comes to: a value, or one of its two [ValueError]s. *)
Inductive int_outcome :=
| IntValue (n : Z)
| IntInvalid
| IntTooLong (digits : nat).

(** The run of digits at the head of [s], single underscores allowed between
    two digits: the value read, the number of digits and what follows the
    run; [None] when two underscores meet or an underscore ends the run.
    [acc] is the value and [digits] the count so far, [prev] tells whether
    the character before was an underscore. *)
Fixpoint int_digits (prev : bool) (acc : Z) (digits : nat) (s : string)
  : option (Z * nat * string) :=
  match s with
  | EmptyString => if prev then None else Some (acc, digits, s)
  | String a s' =>
      let c := N_of_ascii a in
      if isascii_digit c
      then int_digits false (10 * acc + Z.of_N (c - 48)) (S digits) s'
      else if (c =? 95)%N then
        if prev then None else int_digits true acc digits s'
      else if prev then None else Some (acc, digits, s)
  end.

(** [int(s)] for a string, in the order CPython goes: white space and a
    sign; no underscore first; the run of digits; the limit on their
    number; white space, and nothing after it. *)
Definition int_scan (s : string) : int_outcome :=
  let t := str_lstrip is_space s in
  let '(neg, t) :=
    match t with
    | String a t' =>
        if (N_of_ascii a =? 45)%N then (true, t')
        else if (N_of_ascii a =? 43)%N then (false, t')
        else (false, t)
    | EmptyString => (false, t)
    end in
  match t with
  | String a _ =>
      if isascii_digit (N_of_ascii a) then
        match int_digits false 0 0 t with
        | Some (n, digits, rest) =>
            if (max_str_digits <? digits)%nat then IntTooLong digits
            else
              match str_lstrip is_space rest with
              | EmptyString => IntValue (if neg then (- n)%Z else n)
              | String _ _ => IntInvalid
              end
        | None => IntInvalid
        end
      else IntInvalid
  | EmptyString => IntInvalid
  end.

(** [int(s)]; [None] stands for the [ValueError] it raises. *)
Definition py_int (s : string) : option Z :=
  match int_scan s with
  | IntValue n => Some n
  | _ => None
  end.

(** [repr(s)]: in double quotes when [s] holds an apostrophe and no double
    quote, in apostrophes otherwise; the quote used and the backslash are
    escaped, tab, line feed and carriage return are written [\t], [\n],
    [\r], and the other characters that do not print (below U+0020, U+007F
    to U+00A0, U+00AD) are written [\xNN]. *)
Definition hex_digit (n : N) : ascii :=
  ascii_of_N (if (n <? 10)%N then 48 + n else 87 + n).

Definition repr_char (quote a : ascii) : string :=
  let c := N_of_ascii a in
  if Ascii.eqb a quote || (c =? 92)%N then String "\" (String a "")
  else if (c =? 9)%N then "\t"
  else if (c =? 10)%N then "\n"
  else if (c =? 13)%N then "\r"
  else if (c <? 32)%N || between 127 160 c || (c =? 173)%N
  then String "\" (String "x" (String (hex_digit (c / 16))
                                 (String (hex_digit (c mod 16)) "")))
  else String a "".

Fixpoint repr_body (quote : ascii) (s : string) : string :=
  match s with
  | EmptyString => EmptyString
  | String a s' => repr_char quote a +:+ repr_body quote s'
  end.

Definition py_repr (s : string) : string :=
  let quote :=
    if contains "'" s && negb (contains (String "034" "") s) then "034"%char
    else "'"%char in
  String quote (repr_body quote s) +:+ String quote "".

(** [str(e)] for the [ValueError] of [int(s)]; the message shows 200
    characters of [repr(s)] at most. *)
Definition int_error (s : string) : string :=
  match int_scan s with
  | IntTooLong digits =>
      "Exceeds the limit (" +:+ NilZero.string_of_uint (Nat.to_uint max_str_digits)
      +:+ " digits) for integer string conversion: value has "
      +:+ NilZero.string_of_uint (Nat.to_uint digits)
      +:+ " digits; use sys.set_int_max_str_digits() to increase the limit"
  | _ => "invalid literal for int() with base 10: " +:+ str_take 200 (py_repr s)
  end.

(** ** Floating point: the size in megabytes *)

(** The integer nearest to [a / b] for [b] positive, a tie going to the even
    one: the rounding of IEEE 754 arithmetic and of [format]. *)
Definition round_half_even (a b : Z) : Z :=
  let q := (a / b)%Z in
  let r := (a mod b)%Z in
  if (2 * r <? b)%Z then q
  else if (b <? 2 * r)%Z then (q + 1)%Z
  else if Z.even q then q else (q + 1)%Z.

(** A natural number rounded to the 53 significant bits of a double. *)
Definition round_53 (n : Z) : Z :=
  let bits := (Z.log2 n + 1)%Z in
  if (bits <=? 53)%Z then n
  else let unit := (2 ^ (bits - 53))%Z in (round_half_even n unit * unit)%Z.

(** A double that is finite and not negative: the number
    [mantissa / 2 ^ scale]. *)
Record float := { mantissa : Z; scale : Z }.

(** [n / 2 ** k] for two integers, [n] not negative: the quotient rounded
    to the nearest double, which is [n] rounded to 53 bits and scaled.
    [None] stands for the [OverflowError] of a quotient from [2 ** 1024]
    on. *)
Definition int_truediv_pow2 (n k : Z) : option float :=
  let m := round_53 n in
  if (m <? 2 ^ (1024 + k))%Z then Some {| mantissa := m; scale := k |} else None.

(** [f"{x:.2f}"]: the decimal with two digits after the point nearest to
    [x], a tie going to the even one. *)
Definition format_2f (x : float) : string :=
  let hundredths := round_half_even (100 * mantissa x) (2 ^ scale x) in
  let cents := (hundredths mod 100)%Z in
  Z_to_string (hundredths / 100) +:+ "."
  +:+ (if (cents <? 10)%Z then "0" else "") +:+ Z_to_string cents.

(** ** [urllib.parse] *)

Module urllib.

(** The six fields of [urlparse]'s result. *)
Record ParseResult := {
  scheme : str;
  netloc : str;
  path : str;
  params : str;
  query : str;
  fragment : str
}.

(** The characters a scheme name is made of: letters, digits, [+], [-], [.]. *)
Definition scheme_char (c : N) : bool :=
  isascii_alpha c || isascii_digit c || char_in c "+-.".

(** The schemes whose last path segment may carry [;parameters]. *)
Definition uses_params : list str :=
  map latin1 [""; "ftp"; "hdl"; "prospero"; "http"; "imap"; "https"; "shttp";
              "rtsp"; "rtspu"; "sip"; "sips"; "mms"; "sftp"; "tel"].

(** [_splitnetloc(url, 2)]: the network location runs from position 2 to the
    first of [/], [?], [#]. *)
Definition splitnetloc (url : str) : str * str :=
  let delim :=
    fold_left
      (fun delim c =>
         match find_from (chr c) 2 url with
         | Some wdelim => Nat.min delim wdelim
         | None => delim
         end)
      ["/"; "?"; "#"]%char (length url) in
  (drop 2 (take delim url), drop delim url).

(** [urlsplit(url)] followed by [urlparse]'s split of the parameters.  Leading
    control characters and spaces are stripped and tabs, carriage returns and
    line feeds removed first, as CPython does.  This is the result for a
    URL that [urlsplit] accepts; the checks of the network location that
    make it raise [ValueError] are [urlsplit_error] below. *)
Definition urlparse (url : str) : ParseResult :=
  let url := lstrip (fun c => (c <=? 32)%N) url in
  let url := List.filter (fun c => negb (char_in c (String "009" (String "013" (String "010" ""))))) url in
  let '(scheme, url) :=
    match find (chr ":") url with
    | Some (S i') =>
        let i := S i' in
        if isascii_alpha (hd 0%N url) && forallb scheme_char (take i url)
        then (map ascii_lower (take i url), drop (S i) url)
        else ([], url)
    | _ => ([], url)
    end in
  let '(netloc, url) :=
    if bool_decide (take 2 url = latin1 "//") then splitnetloc url else ([], url) in
  let '(url, fragment) := split_once (chr "#") url in
  let '(url, query) := split_once (chr "?") url in
  let '(url, params) :=
    if bool_decide (scheme ∈ uses_params) then
      match (match rfind (chr "/") url with
             | Some j => find_from (chr ";") j url
             | None => find (chr ";") url
             end) with
      | Some i => (take i url, drop (S i) url)
      | None => (url, [])
      end
    else (url, []) in
  {| scheme := scheme; netloc := netloc; path := url;
     params := params; query := query; fragment := fragment |}.

(** The [ValueError] of [urlsplit], if any: its message.  A network
    location with one of the two brackets and not the other is refused.
    The further checks depend on the interpreter and are read from
    [netloc_error]: that of a host in brackets (an IP literal, from Python
    3.11.4 on), and that of a network location with a character outside
    ASCII (no [/], [?], [#], [@], [:] under NFKC normalisation, by the
    Unicode database).  A network location within ASCII and without
    brackets is accepted. *)
Definition urlsplit_error (netloc_error : str -> option string) (url : str)
  : option string :=
  let netloc := netloc (urlparse url) in
  let has c := existsb (N.eqb (chr c)) netloc in
  if (has "["%char && negb (has "]"%char))
     || (has "]"%char && negb (has "["%char))
  then Some "Invalid IPv6 URL"
  else if has "["%char || negb (forallb (fun c => (c <? 128)%N) netloc)
  then netloc_error netloc
  else None.

(** The value of a hexadecimal digit. *)
Definition hex_value (c : N) : option N :=
  if isascii_digit c then Some (c - 48)%N
  else if between 65 70 c then Some (c - 55)%N
  else if between 97 102 c then Some (c - 87)%N
  else None.

Definition is_continuation (b : N) : bool := between 128 191 b.

(** U+FFFD, which [decode(errors='replace')] puts for bytes that are no
    UTF-8. *)
Definition REPLACEMENT : N := 65533.

(** The range of the second byte after the lead [b1] of a sequence of three
    or four bytes (no overlong forms, no surrogates, nothing above
    U+10FFFF). *)
Definition second_ok (b1 b2 : N) : bool :=
  if (b1 =? 224)%N then between 160 191 b2
  else if (b1 =? 237)%N then between 128 159 b2
  else if (b1 =? 240)%N then between 144 191 b2
  else if (b1 =? 244)%N then between 128 143 b2
  else is_continuation b2.

(** [bs.decode('utf-8', 'replace')]: a well-formed sequence gives its code
    point; otherwise the longest prefix that starts a well-formed sequence
    (one byte at least) gives one U+FFFD and decoding resumes after it. *)
Fixpoint utf8_decode (bs : list N) : str :=
  match bs with
  | [] => []
  | b1 :: t1 =>
      if (b1 <? 128)%N then b1 :: utf8_decode t1
      else if between 194 223 b1 then
        match t1 with
        | b2 :: t2 =>
            if is_continuation b2
            then ((b1 - 192) * 64 + (b2 - 128))%N :: utf8_decode t2
            else REPLACEMENT :: utf8_decode t1
        | [] => [REPLACEMENT]
        end
      else if between 224 239 b1 then
        match t1 with
        | b2 :: t2 =>
            if second_ok b1 b2 then
              match t2 with
              | b3 :: t3 =>
                  if is_continuation b3
                  then ((b1 - 224) * 4096 + (b2 - 128) * 64 + (b3 - 128))%N
                         :: utf8_decode t3
                  else REPLACEMENT :: utf8_decode t2
              | [] => [REPLACEMENT]
              end
            else REPLACEMENT :: utf8_decode t1
        | [] => [REPLACEMENT]
        end
      else if between 240 244 b1 then
        match t1 with
        | b2 :: t2 =>
            if second_ok b1 b2 then
              match t2 with
              | b3 :: t3 =>
                  if is_continuation b3 then
                    match t3 with
                    | b4 :: t4 =>
                        if is_continuation b4
                        then ((b1 - 240) * 262144 + (b2 - 128) * 4096
                              + (b3 - 128) * 64 + (b4 - 128))%N
                               :: utf8_decode t4
                        else REPLACEMENT :: utf8_decode t3
                    | [] => [REPLACEMENT]
                    end
                  else REPLACEMENT :: utf8_decode t2
              | [] => [REPLACEMENT]
              end
            else REPLACEMENT :: utf8_decode t1
        | [] => [REPLACEMENT]
        end
      else REPLACEMENT :: utf8_decode t1
  end.

(** The body of [unquote]: each run of ASCII characters has its [%XX]
    escapes turned into bytes and is decoded as UTF-8; characters above
    U+007F are kept.  [run] holds the bytes of the current run, last first. *)
Fixpoint unquote_parts (s : str) (run : list N) : str :=
  match s with
  | [] => utf8_decode (rev run)
  | c :: s' =>
      if (c <? 128)%N then
        if (c =? chr "%")%N then
          match s' with
          | h1 :: h2 :: s'' =>
              match hex_value h1, hex_value h2 with
              | Some a, Some b => unquote_parts s'' ((16 * a + b)%N :: run)
              | _, _ => unquote_parts s' (c :: run)
              end
          | _ => unquote_parts s' (c :: run)
          end
        else unquote_parts s' (c :: run)
      else utf8_decode (rev run) ++ c :: unquote_parts s' []
  end.

(** [unquote(s)], with its defaults [encoding='utf-8', errors='replace']. *)
Definition unquote (s : str) : str :=
  if existsb (N.eqb (chr "%")) s then unquote_parts s [] else s.

End urllib.

(** ** [os.path] (POSIX) and [pathlib] *)

Module os_path.

(** [os.path.basename(p)]: what follows the last slash. *)
Definition basename (p : str) : str :=
  match rfind (chr "/") p with
  | Some i => drop (S i) p
  | None => p
  end.

End os_path.

Module pathlib.

(** A [PurePosixPath]: its root ([""], ["/"] or ["//"]) and its parts. *)
Record PurePath := { root : str; parts : list str }.

(** [Path(s)]: one leading slash is the root, exactly two are kept as they
    are, three or more count as one; empty parts and ["."] are dropped. *)
Definition Path (s : str) : PurePath :=
  let stripped := lstrip (N.eqb (chr "/")) s in
  let slashes := (length s - length stripped)%nat in
  {| root := match slashes with
             | O => []
             | 2%nat => latin1 "//"
             | _ => latin1 "/"
             end;
     parts := List.filter
                (fun p => negb (bool_decide (p = []) || bool_decide (p = latin1 ".")))
                (split_on (chr "/") stripped) |}.

(** [p / name]: a [name] with a root replaces [p]; otherwise its parts are
    appended. *)
Definition truediv (p : PurePath) (name : str) : PurePath :=
  let q := Path name in
  match root q with
  | [] => {| root := root p; parts := parts p ++ parts q |}
  | _ => q
  end.

(** [str(p)]. *)
Definition to_str (p : PurePath) : str :=
  match root p, parts p with
  | [], [] => latin1 "."
  | r, ps => r ++ join (chr "/") ps
  end.

End pathlib.

(** ** Exceptions *)

(** The exception classes the script can meet: the built-in ones and those
    of [requests.exceptions]. *)
Inductive exc_class :=
| BaseException | KeyboardInterrupt | Exception
| ArithmeticError | OverflowError
| ValueError | UnicodeError | UnicodeEncodeError | OSError
| PermissionError | FileNotFoundError | FileExistsError | IsADirectoryError
| RequestException | HTTPError | ConnectionError | Timeout
| ConnectTimeout | ReadTimeout | InvalidURL | ChunkedEncodingError
| TooManyRedirects.

#[global] Instance exc_class_eq_dec : EqDecision exc_class.
Proof. solve_decision. Defined.

(** The method resolution order of each class: the class and all its
    ancestors.  [RequestException] derives from [IOError], that is
    [OSError]; [ConnectTimeout] from both [ConnectionError] and [Timeout];
    [InvalidURL] from both [RequestException] and [ValueError]. *)
Definition mro (c : exc_class) : list exc_class :=
  match c with
  | BaseException => [BaseException]
  | KeyboardInterrupt => [KeyboardInterrupt; BaseException]
  | Exception => [Exception; BaseException]
  | ArithmeticError => [ArithmeticError; Exception; BaseException]
  | OverflowError => [OverflowError; ArithmeticError; Exception; BaseException]
  | ValueError => [ValueError; Exception; BaseException]
  | UnicodeError => [UnicodeError; ValueError; Exception; BaseException]
  | UnicodeEncodeError =>
      [UnicodeEncodeError; UnicodeError; ValueError; Exception; BaseException]
  | OSError => [OSError; Exception; BaseException]
  | PermissionError => [PermissionError; OSError; Exception; BaseException]
  | FileNotFoundError => [FileNotFoundError; OSError; Exception; BaseException]
  | FileExistsError => [FileExistsError; OSError; Exception; BaseException]
  | IsADirectoryError => [IsADirectoryError; OSError; Exception; BaseException]
  | RequestException => [RequestException; OSError; Exception; BaseException]
  | HTTPError => [HTTPError; RequestException; OSError; Exception; BaseException]
  | ConnectionError =>
      [ConnectionError; RequestException; OSError; Exception; BaseException]
  | Timeout => [Timeout; RequestException; OSError; Exception; BaseException]
  | ConnectTimeout =>
      [ConnectTimeout; ConnectionError; Timeout; RequestException; OSError;
       Exception; BaseException]
  | ReadTimeout =>
      [ReadTimeout; Timeout; RequestException; OSError; Exception; BaseException]
  | InvalidURL =>
      [InvalidURL; RequestException; OSError; ValueError; Exception; BaseException]
  | ChunkedEncodingError =>
      [ChunkedEncodingError; RequestException; OSError; Exception; BaseException]
  | TooManyRedirects =>
      [TooManyRedirects; RequestException; OSError; Exception; BaseException]
  end.

Definition issubclass (c d : exc_class) : bool := bool_decide (d ∈ mro c).

(** ** HTTP: what [requests] hands to the script *)

(** The call [requests.get(url, headers=..., timeout=..., stream=...)]. *)
Record Request := {
  req_url : str;
  req_headers : list (string * string);
  req_timeout : Z;
  req_stream : bool
}.

(** A response as the server sent it.  [headers] is keyed by the lower-cased
    header name, which is how the case-insensitive dictionary of [requests]
    compares keys.  [body] lists the chunks the connection delivers to
    [iter_content(8192)], in order; [body_error] is the error, if any, that
    reading the body raises once they are delivered (a dropped connection, a
    read timeout). *)
Record Response := {
  status_code : Z;
  reason : string;
  resp_url : str;
  headers : gmap string string;
  body : list bytes;
  body_error : option (exc_class * str)
}.

(** An exception object: its class, [str(e)] and, for the exceptions of
    [requests], the [response] attribute. *)
Record exn := {
  exn_class : exc_class;
  exn_msg : str;
  exn_response : option Response
}.

Definition isinstance (e : exn) (c : exc_class) : bool := issubclass (exn_class e) c.

Definition mk_exn (c : exc_class) (msg : str) : exn :=
  {| exn_class := c; exn_msg := msg; exn_response := None |}.

(** [response.headers.get(name)]; [None] is Python's [None]. *)
Definition headers_lookup (response : Response) (name : string) : option string :=
  headers response !! name.

(** [response.headers.get(name, default)]. *)
Definition headers_get (response : Response) (name default : string) : string :=
  match headers_lookup response name with
  | Some v => v
  | None => default
  end.

(** The [HTTPError] that [Response.raise_for_status] raises, for a status of
    400 to 599 and no other. *)
Definition http_error (r : Response) : option exn :=
  let message kind :=
    latin1 (Z_to_string (status_code r) +:+ " " +:+ kind +:+ " Error: "
            +:+ reason r +:+ " for url: ") ++ resp_url r in
  if ((400 <=? status_code r) && (status_code r <? 500))%Z then
    Some {| exn_class := HTTPError; exn_msg := message "Client";
            exn_response := Some r |}
  else if ((500 <=? status_code r) && (status_code r <? 600))%Z then
    Some {| exn_class := HTTPError; exn_msg := message "Server";
            exn_response := Some r |}
  else None.

(** [Response.ok], which is also the truth value of a response
    ([Response.__bool__] returns [self.ok]): false exactly when
    [raise_for_status] would raise. *)
Definition ok (r : Response) : bool :=
  match http_error r with Some _ => false | None => true end.

(** [iter_slices(string, slice_length)] of [requests.utils]: consecutive
    slices of [slice_length] bytes, the last one shorter.  The recursion is
    on [fuel]; [iter_slices] gives it the length of the string, which is
    enough ([iter_slices_concat] below). *)
Fixpoint iter_slices_fuel (fuel : nat) (string : bytes) (slice_length : nat)
  : list bytes :=
  match fuel, string with
  | S fuel', _ :: _ =>
      take slice_length string
        :: iter_slices_fuel fuel' (drop slice_length string) slice_length
  | _, _ => []
  end.

Definition iter_slices (string : bytes) (slice_length : N) : list bytes :=
  let slice_length :=
    if (slice_length =? 0)%N then length string else N.to_nat slice_length in
  iter_slices_fuel (length string) string slice_length.

(** [s.startswith(sig)] on bytes. *)
Fixpoint bytes_startswith (s sig : bytes) : bool :=
  match sig, s with
  | [], _ => true
  | b :: sig', c :: s' => Byte.eqb c b && bytes_startswith s' sig'
  | _ :: _, [] => false
  end.

(** ** The machine: environment, state, console *)

(** What one call of [fetch_image] reads from outside the program. *)
Record Env := {
  (** [c.isalnum()] for the code points from U+0100 on (the Unicode
      character database of the interpreter) *)
  wide_isalnum : N -> bool;
  (** [mimetypes.guess_extension], a table of the system *)
  guess_extension : string -> option string;
  (** [int(time.time())], the clock in whole seconds *)
  time_time : Z;
  (** the outcome of [requests.get]: an exception or a response *)
  requests_get : Request -> exn + Response;
  (** the error, if any, of [Path(p).mkdir(exist_ok=True)] *)
  mkdir_error : str -> option exn;
  (** the error, if any, of [open(p, 'wb')] for a path that is no directory *)
  open_error : str -> option exn
}.

(** The lines [fetch_image] prints, one constructor per [print]; the
    arguments are the values its f-string formats. *)
Inductive Msg :=
| MsgConnecting (url : str)
| MsgApproaching
| MsgDirectory (directory : str)
| MsgMakingConnection
| MsgLargeFile
| MsgSaving (filename : str)
| MsgFetched (filename : str)
(** [File size: {size_mb:.2f} MB]; the argument is the text of
    [{size_mb:.2f}] *)
| MsgFileSize (size_mb : string)
| MsgSavedTo (filepath : str)
| MsgStrengthened
| MsgTimedOut
| MsgPatience
| MsgUnreachable
| MsgTemporary
| MsgStatus (status_code : str)
| MsgServerSpoken
| MsgValidationFailed (e : str)
| MsgAuthenticity
| MsgPermissionDenied
| MsgProperAccess
| MsgUnexpected (e : str)
| MsgLearnAndGrow.

(** The state the script acts on: the files and directories of the file
    system, the console, and the [_content] attribute of the response object
    of the current attempt ([None] until [response.content] is read). *)
Record State := {
  files : gmap str bytes;
  dirs : gset str;
  console : list Msg;
  resp_content : option bytes
}.

(** ** Computations: state and exceptions *)

Inductive Result (A : Type) :=
| Return (a : A)
| Raise (e : exn).

Arguments Return {A} a.
Arguments Raise {A} e.

Definition M (A : Type) : Type := State -> Result A * State.

Definition ret {A} (a : A) : M A := fun st => (Return a, st).

Definition raise {A} (e : exn) : M A := fun st => (Raise e, st).

Definition bind {A B} (m : M A) (k : A -> M B) : M B :=
  fun st =>
    match m st with
    | (Return a, st') => k a st'
    | (Raise e, st') => (Raise e, st')
    end.

(** [try: m except ...: handler]: the handler runs in the state the
    exception left. *)
Definition try_except {A} (m : M A) (handler : exn -> M A) : M A :=
  fun st =>
    match m st with
    | (Return a, st') => (Return a, st')
    | (Raise e, st') => handler e st'
    end.

Declare Scope fetch_scope.
Delimit Scope fetch_scope with fetch.
Bind Scope fetch_scope with M.

Notation "x <- c1 ;; c2" := (bind c1 (fun x => c2))
  (at level 100, c1 at next level, right associativity) : fetch_scope.
Notation "c1 ;; c2" := (bind c1 (fun _ => c2))
  (at level 100, right associativity) : fetch_scope.

Local Open Scope fetch_scope.

(** ** Effects *)

Definition set_files (f : gmap str bytes) (st : State) : State :=
  {| files := f; dirs := dirs st; console := console st;
     resp_content := resp_content st |}.

Definition set_dirs (d : gset str) (st : State) : State :=
  {| files := files st; dirs := d; console := console st;
     resp_content := resp_content st |}.

Definition set_console (c : list Msg) (st : State) : State :=
  {| files := files st; dirs := dirs st; console := c;
     resp_content := resp_content st |}.

Definition set_resp_content (c : option bytes) (st : State) : State :=
  {| files := files st; dirs := dirs st; console := console st;
     resp_content := c |}.

(** [print(...)]. *)
Definition print (m : Msg) : M unit :=
  fun st => (Return tt, set_console (console st ++ [m]) st).

(** [p.mkdir(exist_ok=True)]: the environment decides whether it fails;
    otherwise the directory exists afterwards. *)
Definition mkdir (env : Env) (p : pathlib.PurePath) : M unit :=
  fun st =>
    match mkdir_error env (pathlib.to_str p) with
    | Some e => (Raise e, st)
    | None => (Return tt, set_dirs ({[pathlib.to_str p]} ∪ dirs st) st)
    end.

(** [open(p, 'wb')]: a directory cannot be opened for writing; otherwise the
    environment decides whether the call fails, and when it does not the file
    exists afterwards and is empty, whatever it held before. *)
Definition open_wb (env : Env) (p : pathlib.PurePath) : M unit :=
  fun st =>
    let name := pathlib.to_str p in
    if bool_decide (name ∈ dirs st) then
      (Raise (mk_exn IsADirectoryError
                (latin1 "[Errno 21] Is a directory: '" ++ name ++ latin1 "'")), st)
    else
      match open_error env name with
      | Some e => (Raise e, st)
      | None => (Return tt, set_files (<[name := []]> (files st)) st)
      end.

(** [f.write(chunk)] on the file opened at [p]: the chunk is appended. *)
Definition write (p : pathlib.PurePath) (chunk : bytes) : M unit :=
  fun st =>
    (Return tt,
     set_files (alter (fun old => old ++ chunk) (pathlib.to_str p) (files st)) st).

(** [requests.get(...)]: an exception or a fresh response object, whose
    content is not read yet. *)
Definition get (env : Env) (req : Request) : M Response :=
  fun st =>
    match requests_get env req with
    | inl e => (Raise e, st)
    | inr r => (Return r, set_resp_content None st)
    end.

(** [response.raise_for_status()]. *)
Definition raise_for_status (response : Response) : M unit :=
  match http_error response with
  | Some e => raise e
  | None => ret tt
  end.

Definition body_exn (response : Response) : option exn :=
  match body_error response with
  | Some (c, msg) => Some (mk_exn c msg)
  | None => None
  end.

(** [response.content]: the whole body, read from the connection the first
    time and kept in the response object. *)
Definition content (response : Response) : M bytes :=
  fun st =>
    match resp_content st with
    | Some c => (Return c, st)
    | None =>
        match body_exn response with
        | Some e => (Raise e, st)
        | None =>
            let c := concat (body response) in
            (Return c, set_resp_content (Some c) st)
        end
    end.

(** [response.iter_content(chunk_size)]: the chunks the loop receives and
    the error, if any, that ends the iteration after them.  Once the content
    was read the chunks are slices of it; otherwise they come from the
    connection. *)
Definition iter_content (response : Response) (chunk_size : N)
  : M (list bytes * option exn) :=
  fun st =>
    (Return match resp_content st with
            | Some c => (iter_slices c chunk_size, None)
            | None => (body response, body_exn response)
            end, st).

(** Line 133, [total_size / (1024 * 1024)]: the size in megabytes as a
    double, or the [OverflowError] of a quotient too large for one. *)
Definition truediv_mb (total_size : Z) : M float :=
  match int_truediv_pow2 total_size 20 with
  | Some size_mb => ret size_mb
  | None =>
      raise (mk_exn OverflowError
               (latin1 "integer division result too large for a float"))
  end.

(** ** The program *)

(** [c.isalnum()]. *)
Definition isalnum (env : Env) (c : N) : bool :=
  if (c <? 256)%N then latin1_isalnum c else wide_isalnum env c.

(** Line 59: [c for c in filename if c.isalnum() or c in '.-_'], joined. *)
Definition sanitize (env : Env) (filename : str) : str :=
  List.filter (fun c => isalnum env c || char_in c ".-_") filename.

Definition get_content_type_extension (env : Env) (response : Response) : string :=
  let content_type := headers_get response "content-type" "" in
  if contains "image/" content_type then
    match guess_extension env content_type with
    | Some (String a e) => String a e
    | _ => ".jpg"
    end
  else ".jpg".

Definition generate_filename (env : Env) (url : str) (response : Response) : str :=
  let parsed_url := urllib.urlparse url in
  let filename := os_path.basename (urllib.unquote (urllib.path parsed_url)) in
  let filename :=
    if bool_decide (filename = []) || negb (existsb (N.eqb (chr ".")) filename) then
      let content_disposition := headers_get response "content-disposition" "" in
      if contains "filename=" content_disposition then
        latin1 (str_strip is_quote (split_second "filename=" content_disposition))
      else
        let extension := get_content_type_extension env response in
        let timestamp := time_time env in
        latin1 ("ubuntu_image_" +:+ Z_to_string timestamp +:+ extension)
    else filename in
  sanitize env filename.

(** The five signatures of lines 70-76. *)
Definition JPEG : bytes := [Byte.xff; Byte.xd8; Byte.xff].

Definition PNG : bytes :=
  [Byte.x89; Byte.x50; Byte.x4e; Byte.x47; Byte.x0d; Byte.x0a; Byte.x1a; Byte.x0a].

Definition GIF87a : bytes := [Byte.x47; Byte.x49; Byte.x46; Byte.x38; Byte.x37; Byte.x61].

Definition GIF89a : bytes := [Byte.x47; Byte.x49; Byte.x46; Byte.x38; Byte.x39; Byte.x61].

Definition BMP : bytes := [Byte.x42; Byte.x4d].

Definition image_signatures : list bytes := [JPEG; PNG; GIF87a; GIF89a; BMP].

Definition validate_image_response (response : Response) : M bool :=
  let content_type := lower (headers_get response "content-type" "") in
  (if negb (startswith "image/" content_type) then
     c <- content response ;;
     let content_start := take 10 c in
     if negb (existsb (bytes_startswith content_start) image_signatures) then
       raise (mk_exn ValueError (latin1 "URL does not point to a valid image file"))
     else ret tt
   else ret tt) ;;
  ret true.

(** The loop of lines 127-130 over the chunks: an empty chunk is skipped, any
    other is written and counted. *)
Fixpoint write_chunks (f : pathlib.PurePath) (chunks : list bytes) (total_size : Z)
  : M Z :=
  match chunks with
  | [] => ret total_size
  | chunk :: rest =>
      match chunk with
      | [] => write_chunks f rest total_size
      | _ :: _ =>
          write f chunk ;;
          write_chunks f rest (total_size + Z.of_nat (length chunk))
      end
  end.

(** The [except] clauses of [fetch_image], tried in the order of the
    source. *)
Definition except_clauses (e : exn) : M (bool * str) :=
  if isinstance e Timeout then
    print MsgTimedOut ;; print MsgPatience ;;
    ret (false, latin1 "Timeout error")
  else if isinstance e ConnectionError then
    print MsgUnreachable ;; print MsgTemporary ;;
    ret (false, latin1 "Connection error")
  else if isinstance e HTTPError then
    let status_code :=
      match exn_response e with
      | Some r => if ok r then Z_to_string (status_code r) else "Unknown"
      | None => "Unknown"
      end in
    print (MsgStatus (latin1 status_code)) ;; print MsgServerSpoken ;;
    ret (false, latin1 ("HTTP " +:+ status_code +:+ " error"))
  else if isinstance e ValueError then
    print (MsgValidationFailed (exn_msg e)) ;; print MsgAuthenticity ;;
    ret (false, exn_msg e)
  else if isinstance e PermissionError then
    print MsgPermissionDenied ;; print MsgProperAccess ;;
    ret (false, latin1 "Permission denied")
  else if isinstance e Exception then
    print (MsgUnexpected (exn_msg e)) ;; print MsgLearnAndGrow ;;
    ret (false, exn_msg e)
  else raise e.

Definition default_directory : str := latin1 "Fetched_Images".

(** Lines 100-107: the request [fetch_image] sends for [url]. *)
Definition request_headers : list (string * string) :=
  [("User-Agent", "Ubuntu-Image-Fetcher/1.0 (Community Tool; Respectful Usage)");
   ("Accept", "image/*,*/*;q=0.8")].

Definition fetch_request (url : str) : Request :=
  {| req_url := url; req_headers := request_headers;
     req_timeout := 15; req_stream := true |}.

Definition fetch_image (env : Env) (url directory : str) : M (bool * str) :=
  print (MsgConnecting url) ;;
  print MsgApproaching ;;
  mkdir env (pathlib.Path directory) ;;
  print (MsgDirectory directory) ;;
  try_except
    (let headers := request_headers in
     print MsgMakingConnection ;;
     response <- get env {| req_url := url; req_headers := headers;
                            req_timeout := 15; req_stream := true |} ;;
     raise_for_status response ;;
     validate_image_response response ;;
     let filename := generate_filename env url response in
     let filepath := pathlib.truediv (pathlib.Path directory) filename in
     let content_length := headers_lookup response "content-length" in
     match content_length with
     | Some (String a v) =>
         match py_int (String a v) with
         | Some n =>
             if (n >? 50 * 1024 * 1024)%Z then print MsgLargeFile else ret tt
         | None =>
             raise (mk_exn ValueError (latin1 (int_error (String a v))))
         end
     | _ => ret tt
     end ;;
     print (MsgSaving filename) ;;
     let total_size := 0%Z in
     open_wb env filepath ;;
     stream <- iter_content response 8192 ;;
     total_size <- write_chunks filepath (fst stream) total_size ;;
     match snd stream with
     | Some e => raise e
     | None => ret tt
     end ;;
     size_mb <- truediv_mb total_size ;;
     print (MsgFetched filename) ;;
     print (MsgFileSize (format_2f size_mb)) ;;
     print (MsgSavedTo (pathlib.to_str filepath)) ;;
     print MsgStrengthened ;;
     ret (true, pathlib.to_str filepath))
    except_clauses.

(** ** The phases of the [try] block *)

(** The advisory of lines 118-120 and the save of lines 123-139, named so
    that a run can be followed phase by phase ([fetch_image_phases]). *)
Definition advise (response : Response) : M unit :=
  match headers_lookup response "content-length" with
  | Some (String a v) =>
      match py_int (String a v) with
      | Some n => if (n >? 50 * 1024 * 1024)%Z then print MsgLargeFile else ret tt
      | None =>
          raise (mk_exn ValueError (latin1 (int_error (String a v))))
      end
  | _ => ret tt
  end.

Definition save (env : Env) (response : Response) (filename : str)
    (filepath : pathlib.PurePath) : M (bool * str) :=
  print (MsgSaving filename) ;;
  open_wb env filepath ;;
  stream <- iter_content response 8192 ;;
  total_size <- write_chunks filepath (fst stream) 0%Z ;;
  match snd stream with
  | Some e => raise e
  | None => ret tt
  end ;;
  size_mb <- truediv_mb total_size ;;
  print (MsgFetched filename) ;;
  print (MsgFileSize (format_2f size_mb)) ;;
  print (MsgSavedTo (pathlib.to_str filepath)) ;;
  print MsgStrengthened ;;
  ret (true, pathlib.to_str filepath).

(** ** The program where every call can fail

    [fetch_image] above is the program on a machine whose standard output
    takes every line, whose disk takes every byte, and for a URL that
    [urlparse] accepts.  [Full.fetch_image] is the program without these
    assumptions: [print], [f.write], the end of the [with] block and
    [urlparse] can raise. *)

Module Full.

(** What can fail beside the network, [mkdir] and [open]. *)
Record Faults := {
  (** the error, if any, of [print(line)] when the lines [printed] were
      printed before *)
  print_error : list Msg -> Msg -> option exn;
  (** the error, if any, of [f.write(chunk)] on the file at a path that
      holds [written], and the number of bytes of the chunk that reached
      the file all the same *)
  write_error : str -> bytes -> bytes -> option (exn * nat);
  (** the error, if any, of closing the file at the end of the [with]
      block *)
  close_error : str -> option exn;
  (** the checks of [urlsplit] that depend on the interpreter *)
  netloc_error : str -> option string
}.

(** [print(...)]: a line that is refused is not on the console. *)
Definition print (f : Faults) (m : Msg) : M unit :=
  fun st =>
    match print_error f (console st) m with
    | Some e => (Raise e, st)
    | None => print m st
    end.

(** [f.write(chunk)] on the file opened at [p]. *)
Definition write (f : Faults) (p : pathlib.PurePath) (chunk : bytes) : M unit :=
  fun st =>
    match write_error f (pathlib.to_str p)
            (default [] (files st !! pathlib.to_str p)) chunk with
    | Some (e, n) => (Raise e, snd (write p (take n chunk) st))
    | None => write p chunk st
    end.

(** [with open(p, 'wb') as f: body]: the file is closed when the body
    returns and when it raises; an error of the closing replaces the
    outcome of the body. *)
Definition with_open {A} (f : Faults) (env : Env) (p : pathlib.PurePath)
    (body : M A) : M A :=
  open_wb env p ;;
  fun st =>
    match close_error f (pathlib.to_str p) with
    | Some e => (Raise e, snd (body st))
    | None => body st
    end.

(** [generate_filename(url, response)]: [urlparse] raises at line 44, or the
    function goes on as [generate_filename] above. *)
Definition generate_filename (f : Faults) (env : Env) (url : str)
    (response : Response) : M str :=
  match urllib.urlsplit_error (netloc_error f) url with
  | Some message => raise (mk_exn ValueError (latin1 message))
  | None => ret (generate_filename env url response)
  end.

Fixpoint write_chunks (f : Faults) (file : pathlib.PurePath) (chunks : list bytes)
    (total_size : Z) : M Z :=
  match chunks with
  | [] => ret total_size
  | chunk :: rest =>
      match chunk with
      | [] => write_chunks f file rest total_size
      | _ :: _ =>
          write f file chunk ;;
          write_chunks f file rest (total_size + Z.of_nat (length chunk))
      end
  end.

Definition except_clauses (f : Faults) (e : exn) : M (bool * str) :=
  if isinstance e Timeout then
    print f MsgTimedOut ;; print f MsgPatience ;;
    ret (false, latin1 "Timeout error")
  else if isinstance e ConnectionError then
    print f MsgUnreachable ;; print f MsgTemporary ;;
    ret (false, latin1 "Connection error")
  else if isinstance e HTTPError then
    let status_code :=
      match exn_response e with
      | Some r => if ok r then Z_to_string (status_code r) else "Unknown"
      | None => "Unknown"
      end in
    print f (MsgStatus (latin1 status_code)) ;; print f MsgServerSpoken ;;
    ret (false, latin1 ("HTTP " +:+ status_code +:+ " error"))
  else if isinstance e ValueError then
    print f (MsgValidationFailed (exn_msg e)) ;; print f MsgAuthenticity ;;
    ret (false, exn_msg e)
  else if isinstance e PermissionError then
    print f MsgPermissionDenied ;; print f MsgProperAccess ;;
    ret (false, latin1 "Permission denied")
  else if isinstance e Exception then
    print f (MsgUnexpected (exn_msg e)) ;; print f MsgLearnAndGrow ;;
    ret (false, exn_msg e)
  else raise e.

Definition fetch_image (f : Faults) (env : Env) (url directory : str)
  : M (bool * str) :=
  print f (MsgConnecting url) ;;
  print f MsgApproaching ;;
  mkdir env (pathlib.Path directory) ;;
  print f (MsgDirectory directory) ;;
  try_except
    (let headers := request_headers in
     print f MsgMakingConnection ;;
     response <- get env {| req_url := url; req_headers := headers;
                            req_timeout := 15; req_stream := true |} ;;
     raise_for_status response ;;
     validate_image_response response ;;
     filename <- generate_filename f env url response ;;
     let filepath := pathlib.truediv (pathlib.Path directory) filename in
     let content_length := headers_lookup response "content-length" in
     match content_length with
     | Some (String a v) =>
         match py_int (String a v) with
         | Some n =>
             if (n >? 50 * 1024 * 1024)%Z then print f MsgLargeFile else ret tt
         | None =>
             raise (mk_exn ValueError (latin1 (int_error (String a v))))
         end
     | _ => ret tt
     end ;;
     print f (MsgSaving filename) ;;
     let total_size := 0%Z in
     total_size <-
       with_open f env filepath
         (stream <- iter_content response 8192 ;;
          total_size <- write_chunks f filepath (fst stream) total_size ;;
          match snd stream with
          | Some e => raise e
          | None => ret tt
          end ;;
          ret total_size) ;;
     size_mb <- truediv_mb total_size ;;
     print f (MsgFetched filename) ;;
     print f (MsgFileSize (format_2f size_mb)) ;;
     print f (MsgSavedTo (pathlib.to_str filepath)) ;;
     print f MsgStrengthened ;;
     ret (true, pathlib.to_str filepath))
    (except_clauses f).

End Full.

(** ** Vocabulary of the statements *)

(** The candidate name of lines 44-45: the last segment of the decoded path
    of the URL. *)
Definition url_filename (url : str) : str :=
  os_path.basename (urllib.unquote (urllib.path (urllib.urlparse url))).

(** The test of line 48, negated: the URL gives the name. *)
Definition url_names_file (url : str) : bool :=
  negb (bool_decide (url_filename url = []))
  && existsb (N.eqb (chr ".")) (url_filename url).

(** The test of line 50: the [content-disposition] header gives the name. *)
Definition disposition_names_file (response : Response) : bool :=
  contains "filename=" (headers_get response "content-disposition" "").


(** The character set the specification gives for a resolved file name:
    A-Z, a-z, 0-9, dot, hyphen, underscore. *)
Definition spec_safe_char (c : N) : bool :=
  isascii_alpha c || isascii_digit c || char_in c ".-_".

(** Two characters that are the same, the case of an ASCII letter apart. *)
Definition same_letter (a b : ascii) : bool :=
  let x := N_of_ascii a in
  let y := N_of_ascii b in
  (x =? y)%N
  || (isascii_alpha x && isascii_alpha y && ((x + 32 =? y) || (y + 32 =? x)))%N.

(** [p] is a prefix of [s], compared without regard to case. *)
Fixpoint caseless_prefix (p s : string) : bool :=
  match p, s with
  | EmptyString, _ => true
  | String a p', String b s' => same_letter a b && caseless_prefix p' s'
  | String _ _, EmptyString => false
  end.

(** The specification's reading of the validator: the content type starts
    with [image/], compared without regard to case, or one of the five
    signatures is a prefix of the first ten bytes of the body. *)
Definition spec_is_image (response : Response) : Prop :=
  caseless_prefix "image/" (headers_get response "content-type" "") = true
  \/ (exists sig rest,
        In sig [JPEG; PNG; GIF87a; GIF89a; BMP]
        /\ take 10 (concat (body response)) = sig ++ rest).

(** The chunks the loop of [fetch_image] iterates over for a response that
    passed validation: those of the connection when the content type
    announced an image, slices of the content read by the validator
    otherwise. *)
Definition streamed_chunks (response : Response) : list bytes :=
  if startswith "image/" (lower (headers_get response "content-type" ""))
  then body response
  else iter_slices (concat (body response)) 8192.

(** The sum of the lengths of a list of chunks. *)
Definition total_length (chunks : list bytes) : Z :=
  fold_right (fun chunk n => (Z.of_nat (length chunk) + n)%Z) 0%Z chunks.

(** A number of hundredths written with two decimals. *)
Definition two_decimals (hundredths : Z) : string :=
  let units := (hundredths / 100)%Z in
  let cents := (hundredths - 100 * units)%Z in
  Z_to_string units +:+ "." +:+ (if (cents <? 10)%Z then "0" else "")
  +:+ Z_to_string cents.

(** No number of hundredths is nearer to [num / den] than [hundredths]. *)
Definition nearest_hundredths (hundredths num den : Z) : Prop :=
  (2 * Z.abs (hundredths * den - 100 * num) <= den)%Z.

(** The advisory of lines 118-120, as console output. *)
Definition advisory (response : Response) : list Msg :=
  match headers_lookup response "content-length" with
  | Some v =>
      match py_int v with
      | Some n => if (n >? 50 * 1024 * 1024)%Z then [MsgLargeFile] else []
      | None => []
      end
  | None => []
  end.

(** Two states that are the same but for their files (when [fs] is set) and
    for their console (when [cs] is set). *)
Definition same_except (fs cs : bool) (st1 st2 : State) : Prop :=
  (fs = false -> files st1 = files st2)
  /\ (cs = false -> console st1 = console st2)
  /\ dirs st1 = dirs st2
  /\ resp_content st1 = resp_content st2.

(** Two computations agree: from such states they give the same result, and
    such states again. *)
Definition agree (fs cs : bool) {A} (m1 m2 : M A) : Prop :=
  forall st1 st2, same_except fs cs st1 st2 ->
    fst (m1 st1) = fst (m2 st2)
    /\ same_except fs cs (snd (m1 st1)) (snd (m2 st2)).

(** The [content-length] header lets the advisory pass: it is absent, empty,
    or an integer literal. *)
Definition content_length_readable (response : Response) : bool :=
  match headers_lookup response "content-length" with
  | Some (String a v) =>
      match py_int (String a v) with Some _ => true | None => false end
  | _ => true
  end.

(** The same machine with a server that answers [response]. *)
Definition answering (response : Response) (env : Env) : Env :=
  {| wide_isalnum := wide_isalnum env; guess_extension := guess_extension env;
     time_time := time_time env; requests_get := fun _ => inr response;
     mkdir_error := mkdir_error env; open_error := open_error env |}.

(** ** Sample machines and responses *)

Definition fresh_state : State :=
  {| files := ∅; dirs := ∅; console := []; resp_content := None |}.

(** A small MIME table. *)
Definition mime_table (content_type : string) : option string :=
  if String.eqb content_type "image/jpeg" then Some ".jpg"
  else if String.eqb content_type "image/png" then Some ".png"
  else if String.eqb content_type "image/gif" then Some ".gif"
  else None.

(** [open(p, 'wb')] on a path whose last component is [..]: the component
    names a directory. *)
Definition dotdot_error (p : str) : option exn :=
  if bool_decide (os_path.basename p = latin1 "..")
  then Some (mk_exn IsADirectoryError
               (latin1 "[Errno 21] Is a directory: '" ++ p ++ latin1 "'"))
  else None.

(** A machine whose server answers every request with [response], whose
    clock reads [t], and whose file system accepts every call but [open] on
    a path that ends in [..]. *)
Definition machine (t : Z) (response : Response) : Env :=
  {| wide_isalnum := fun _ => false; guess_extension := mime_table;
     time_time := t; requests_get := fun _ => inr response;
     mkdir_error := fun _ => None; open_error := dotdot_error |}.

(** A PNG image of eleven bytes, delivered in three chunks, the second one
    empty, announced as [image/png]. *)
Definition png_response : Response :=
  {| status_code := 200; reason := "OK"; resp_url := latin1 "https://x/logo.png";
     headers := {[ "content-type" := "image/png" ]};
     body := [PNG; []; [Byte.x00; Byte.x01; Byte.x02]];
     body_error := None |}.

(** The same image with one byte more. *)
Definition longer_png_response : Response :=
  {| status_code := 200; reason := "OK"; resp_url := latin1 "https://x/logo.png";
     headers := {[ "content-type" := "image/png" ]};
     body := [PNG; []; [Byte.x00; Byte.x01; Byte.x02; Byte.x03]];
     body_error := None |}.

(** The same image with a [content-length] header. *)
Definition with_content_length (v : string) (response : Response) : Response :=
  {| status_code := status_code response; reason := reason response;
     resp_url := resp_url response;
     headers := <["content-length" := v]> (headers response);
     body := body response; body_error := body_error response |}.

(** The same image sent with another status. *)
Definition with_status (code : Z) (why : string) (response : Response) : Response :=
  {| status_code := code; reason := why; resp_url := resp_url response;
     headers := headers response; body := body response;
     body_error := body_error response |}.

(** A machine on which the working directory is read-only: [mkdir] fails
    with [PermissionError]. *)
Definition readonly_machine : Env :=
  {| wide_isalnum := fun _ => false; guess_extension := mime_table;
     time_time := 1700000000; requests_get := fun _ => inr png_response;
     mkdir_error := fun p =>
       Some (mk_exn PermissionError
               (latin1 "[Errno 13] Permission denied: '" ++ p ++ latin1 "'"));
     open_error := dotdot_error |}.

(** A JPEG image whose [content-disposition] header names no file: the
    value of [filename=] is a pair of double quotes. *)
Definition unnamed_attachment : Response :=
  {| status_code := 200; reason := "OK"; resp_url := latin1 "https://x/img";
     headers := {[ "content-type" := "image/jpeg";
                   "content-disposition" :=
                     "attachment; filename=" +:+ String "034" (String "034" "") ]};
     body := [JPEG]; body_error := None |}.

(** A JPEG image with a content type and nothing else. *)
Definition jpeg_response : Response :=
  {| status_code := 200; reason := "OK"; resp_url := latin1 "https://x/img";
     headers := {[ "content-type" := "image/jpeg" ]};
     body := [JPEG]; body_error := None |}.

(** A text page. *)
Definition text_response : Response :=
  {| status_code := 200; reason := "OK"; resp_url := latin1 "https://x/file.txt";
     headers := {[ "content-type" := "text/plain" ]};
     body := [[Byte.x68; Byte.x65; Byte.x6c; Byte.x6c; Byte.x6f]];
     body_error := None |}.

(** The same bytes as the text page, announced as [Image/PNG]. *)
Definition shouted_response : Response :=
  {| status_code := 200; reason := "OK"; resp_url := latin1 "https://x/file.txt";
     headers := {[ "content-type" := "Image/PNG" ]};
     body := [[Byte.x68; Byte.x65; Byte.x6c; Byte.x6c; Byte.x6f]];
     body_error := None |}.

(** An answer 304 Not Modified: no body, the content type of the image it
    stands for. *)
Definition not_modified_response : Response :=
  {| status_code := 304; reason := "Not Modified";
     resp_url := latin1 "https://x/logo.png";
     headers := {[ "content-type" := "image/png" ]};
     body := []; body_error := None |}.

(** A state in which [Fetched_Images/logo.png] exists already. *)
Definition state_with_logo : State :=
  {| files := {[ latin1 "Fetched_Images/logo.png" := [Byte.x6f; Byte.x6c; Byte.x64] ]};
     dirs := {[ latin1 "Fetched_Images" ]}; console := []; resp_content := None |}.

(** ** The interactive session: [print_ubuntu_banner] and [main] *)

(** The lines [main] and [print_ubuntu_banner] print, one constructor per
    [print] or prompt of [input]. *)
Inductive MainMsg :=
| Banner
| Welcome
| LetsGather
| PromptUrl
| Blessings
| MayFlourish
| ProvideUrl
| UseFullUrls
| RuleAbove
| RuleBelow
| PromptAnother
| PromptRetry
| LeavePeacefully
| SpiritAppreciated
| PeacefulDeparture
| ThankYou
| SharedWebSpace.

(** What the user does at a prompt: a line is typed, or the interrupt key
    is hit ([KeyboardInterrupt]).  The end of the list of inputs is the end
    of the input ([EOFError]). *)
Inductive Typed :=
| Line (text : str)
| CtrlC.

(** What a session reads from outside: the machine as it is at each call of
    [fetch_image] (numbered from 0), and [s.lower()] for a string that holds
    a code point from U+0100 on (the Unicode database of the
    interpreter). *)
Record Host := {
  machine_at : nat -> Env;
  unicode_lower : str -> str
}.

(** The state of a session: the file system, and the standard output, which
    interleaves the lines of [main] and those of [fetch_image].  The console
    of [world] holds the lines of the call of [fetch_image] under way. *)
Record Session := {
  world : State;
  stdout : list (MainMsg + Msg)
}.

(** [c.isspace()]: the white space [str.strip()] removes. *)
Definition isspace (c : N) : bool :=
  between 9 13 c || between 28 32 c || (c =? 133)%N || (c =? 160)%N
  || (c =? 5760)%N || between 8192 8202 c || (c =? 8232)%N || (c =? 8233)%N
  || (c =? 8239)%N || (c =? 8287)%N || (c =? 12288)%N.

(** [s.strip()]. *)
Definition strip (s : str) : str :=
  rev (lstrip isspace (rev (lstrip isspace s))).

(** [s.lower()]: character by character below U+0100, read from the host
    otherwise. *)
Definition str_lower (host : Host) (s : str) : str :=
  if forallb (fun c => (c <? 256)%N) s
  then map (fun c => N_of_ascii (latin1_lower (ascii_of_N c))) s
  else unicode_lower host s.

(** [s.startswith(p)] for a [str]. *)
Definition str_startswith (p s : str) : bool := bool_decide (take (length p) s = p).

(** [print(...)] in [main]. *)
Definition say (m : MainMsg) (s : Session) : Session :=
  {| world := world s; stdout := stdout s ++ [inl m] |}.

Definition print_ubuntu_banner (s : Session) : Session := say Banner s.

(** The call [fetch_image(url)] of line 198: the directory is the default
    one; the lines the call prints go to the standard output. *)
Definition call_fetch_image (env : Env) (url : str) (s : Session)
  : Result (bool * str) * Session :=
  let '(r, w) := fetch_image env url default_directory (set_console [] (world s)) in
  (r, {| world := w; stdout := stdout s ++ map inr (console w) |}).

(** The two lines after the loop. *)
Definition farewell (s : Session) : Result unit * Session :=
  (Return tt, say SharedWebSpace (say ThankYou s)).

(** [except KeyboardInterrupt] and [except EOFError] of the loop: two lines,
    or one, and [break]. *)
Definition interrupted (s : Session) : Result unit * Session :=
  farewell (say SpiritAppreciated (say LeavePeacefully s)).

Definition end_of_input (s : Session) : Result unit * Session :=
  farewell (say PeacefulDeparture s).

(** [answer in ['y', 'yes']] for the stripped, lower-cased answer. *)
Definition is_yes (host : Host) (answer : str) : bool :=
  bool_decide (str_lower host (strip answer) ∈ [latin1 "y"; latin1 "yes"]).

(** The loop of lines 179-216.  Each turn reads one input at least, so the
    recursion is on the inputs left; [attempt] counts the calls of
    [fetch_image] made so far. *)
Fixpoint main_loop (host : Host) (attempt : nat) (inputs : list Typed) (s : Session)
  : Result unit * Session :=
  let s := say PromptUrl s in
  match inputs with
  | [] => end_of_input s
  | CtrlC :: _ => interrupted s
  | Line text :: rest =>
      let url := strip text in
      if bool_decide (str_lower host url ∈ [latin1 "quit"; latin1 "exit"; latin1 "q"])
      then farewell (say MayFlourish (say Blessings s))
      else if bool_decide (url = [])
      then main_loop host attempt rest (say ProvideUrl s)
      else if negb (str_startswith (latin1 "http://") url
                    || str_startswith (latin1 "https://") url)
      then main_loop host attempt rest (say UseFullUrls s)
      else
        match call_fetch_image (machine_at host attempt) url (say RuleAbove s) with
        | (Raise e, s) =>
            if isinstance e KeyboardInterrupt then interrupted s else (Raise e, s)
        | (Return (success, message), s) =>
            let s := say RuleBelow s in
            let s := say (if success then PromptAnother else PromptRetry) s in
            match rest with
            | [] => end_of_input s
            | CtrlC :: _ => interrupted s
            | Line answer :: rest' =>
                if is_yes host answer
                then main_loop host (S attempt) rest' s
                else farewell s
            end
        end
  end.

Definition main (host : Host) (inputs : list Typed) (s : Session)
  : Result unit * Session :=
  main_loop host 0 inputs (say LetsGather (say Welcome (print_ubuntu_banner s))).

(** ** Vocabulary of the further statements *)

(** The URLs [fetch_image] was called with, as the standard output shows
    them (each call starts with the line [Connecting to: {url}]). *)
Definition fetched_urls (out : list (MainMsg + Msg)) : list str :=
  flat_map (fun line => match line with
                        | inr (MsgConnecting url) => [url]
                        | _ => []
                        end) out.

(** The test of line 192: the URL starts with [http://] or [https://]. *)
Definition full_url (url : str) : bool :=
  str_startswith (latin1 "http://") url || str_startswith (latin1 "https://") url.

(** A session with a note on the disk and nothing printed. *)
Definition session_with_note : Session :=
  {| world := {| files := {[ latin1 "notes.txt" := [Byte.x68; Byte.x69] ]};
                 dirs := ∅; console := []; resp_content := None |};
     stdout := [] |}.

(** A computation is confined: run where the directories of [known] exist,
    it leaves the directories alone, changes no file outside [allowed], and
    adds to the console lines of [P] only. *)
Definition confined (known : gset str) (allowed : str -> Prop) (P : Msg -> Prop)
    {A} (m : M A) : Prop :=
  forall st,
    known ⊆ dirs st ->
    dirs (snd (m st)) = dirs st
    /\ (forall q, ~ allowed q -> files (snd (m st)) !! q = files st !! q)
    /\ exists out, console (snd (m st)) = console st ++ out /\ Forall P out.

(** The path [fetch_image] writes to for a response. *)
Definition target_path (env : Env) (url directory : str) (response : Response) : str :=
  pathlib.to_str (pathlib.truediv (pathlib.Path directory)
                    (generate_filename env url response)).

(** The lines of a call of [fetch_image] name its URL and its directory and
    no other. *)
Definition line_of_call (url directory : str) (m : Msg) : Prop :=
  match m with
  | MsgConnecting u => u = url
  | MsgDirectory d => d = directory
  | _ => True
  end.

(** A machine whose network fails with [e]. *)
Definition offline (e : exn) : Env :=
  {| wide_isalnum := fun _ => false; guess_extension := mime_table;
     time_time := 1700000000; requests_get := fun _ => inl e;
     mkdir_error := fun _ => None; open_error := dotdot_error |}.

(** A machine on which [open] fails with [e]. *)
Definition unwritable (e : exn) (response : Response) : Env :=
  {| wide_isalnum := fun _ => false; guess_extension := mime_table;
     time_time := 1700000000; requests_get := fun _ => inr response;
     mkdir_error := fun _ => None; open_error := fun _ => Some e |}.

(** The PNG image, cut off by the connection after its chunks. *)
Definition cut_off_response : Response :=
  {| status_code := 200; reason := "OK"; resp_url := latin1 "https://x/logo.png";
     headers := {[ "content-type" := "image/png" ]};
     body := [PNG; [Byte.x00]];
     body_error := Some (ChunkedEncodingError, latin1 "Connection broken") |}.

(** A GIF image of ten bytes sent as [application/octet-stream]. *)
Definition gif_without_type : Response :=
  {| status_code := 200; reason := "OK"; resp_url := latin1 "https://x/pixel.gif";
     headers := {[ "content-type" := "application/octet-stream" ]};
     body := [GIF89a ++ [Byte.x01; Byte.x00; Byte.x01; Byte.x00]];
     body_error := None |}.

(** Two computations that do the same from every state. *)
Definition same_run {A} (m1 m2 : M A) : Prop := forall st, m1 st = m2 st.

(** The errors that leave a computation are among [Q]. *)
Definition raises_only (Q : exn -> Prop) {A} (m : M A) : Prop :=
  forall st e st', m st = (Raise e, st') -> Q e.

(** The standard output takes every line and the disk every byte. *)
Definition quiet (f : Full.Faults) : Prop :=
  (forall printed m, Full.print_error f printed m = None)
  /\ (forall p written chunk, Full.write_error f p written chunk = None)
  /\ (forall p, Full.close_error f p = None).

(** Nothing fails, on an interpreter that makes no further check of the
    network location. *)
Definition no_faults : Full.Faults :=
  {| Full.print_error := fun _ _ => None;
     Full.write_error := fun _ _ _ => None;
     Full.close_error := fun _ => None;
     Full.netloc_error := fun _ => None |}.

(** The standard output is a pipe whose reader leaves after [n] lines. *)
Definition closed_pipe_after (n : nat) : Full.Faults :=
  {| Full.print_error := fun printed _ =>
       if (n <=? length printed)%nat
       then Some (mk_exn OSError (latin1 "[Errno 32] Broken pipe"))
       else None;
     Full.write_error := fun _ _ _ => None;
     Full.close_error := fun _ => None;
     Full.netloc_error := fun _ => None |}.

(** A host with one machine for every call, and nothing known beyond
    U+00FF. *)
Definition host_of (env : Env) : Host :=
  {| machine_at := fun _ => env; unicode_lower := fun s => s |}.

Definition fresh_session : Session := {| world := fresh_state; stdout := [] |}.

(** * Properties *)

(** ** Sequences *)

Lemma prefix_iff (p s : string) :
  String.prefix p s = true <-> exists rest, s = p +:+ rest.
Proof.
  revert s. induction p as [|a p IH]; intros s.
  - split; [intros _; by exists s | intros _; by destruct s].
  - destruct s as [|b s]; simpl.
    + split; [done | intros [rest Hrest]; discriminate].
    + destruct (Ascii.ascii_dec a b) as [->|Hab].
      * rewrite IH. split.
        -- intros [rest ->]. by exists rest.
        -- intros [rest Hrest]. exists rest.
           change (String b s = String b (p +:+ rest)) in Hrest. congruence.
      * split; [done|]. intros [rest Hrest].
        change (String b s = String a (p +:+ rest)) in Hrest. congruence.
Qed.

Lemma bytes_startswith_iff (s sig : bytes) :
  bytes_startswith s sig = true <-> exists rest, s = sig ++ rest.
Proof.
  revert s. induction sig as [|b sig IH]; intros [|c s]; simpl.
  - split; [intros _; by exists [] | done].
  - split; [intros _; by exists (c :: s) | done].
  - split; [done | intros [rest Hrest]; discriminate].
  - rewrite andb_true_iff, IH. split.
    + intros [Hcb [rest ->]]. apply Byte.byte_dec_bl in Hcb. subst c.
      by exists rest.
    + intros [rest Hrest]. injection Hrest as -> ->.
      split; [by apply Byte.byte_dec_lb | by exists rest].
Qed.

(** The fuel [iter_slices] gives is enough: the slices, put together, are the
    string. *)
Lemma iter_slices_fuel_concat (fuel : nat) (s : bytes) (n : nat) :
  (0 < n)%nat -> (length s <= fuel)%nat ->
  concat (iter_slices_fuel fuel s n) = s.
Proof.
  intros Hn. revert s. induction fuel as [|fuel IH]; intros s Hlen.
  - destruct s; [done | simpl in Hlen; lia].
  - destruct s as [|b s]; [done|].
    cbn [iter_slices_fuel concat]. rewrite IH.
    + apply take_drop.
    + rewrite length_drop. simpl in *. lia.
Qed.

Lemma iter_slices_concat (s : bytes) (n : N) : concat (iter_slices s n) = s.
Proof.
  unfold iter_slices. destruct s as [|b s]; [done|].
  apply iter_slices_fuel_concat; [|done].
  destruct (n =? 0)%N eqn:Hn; [simpl; lia|].
  apply N.eqb_neq in Hn. lia.
Qed.

Lemma total_length_concat (chunks : list bytes) :
  total_length chunks = Z.of_nat (length (concat chunks)).
Proof.
  induction chunks as [|chunk chunks IH]; [done|].
  simpl. rewrite IH, length_app. lia.
Qed.

Lemma streamed_chunks_concat (r : Response) :
  concat (streamed_chunks r) = concat (body r).
Proof.
  unfold streamed_chunks.
  destruct (startswith _ _); [done | apply iter_slices_concat].
Qed.

(** ** The file name *)

Lemma sanitize_In (env : Env) (filename : str) (c : N) :
  In c (sanitize env filename)
  <-> In c filename /\ (isalnum env c = true \/ In c (latin1 ".-_")).
Proof.
  unfold sanitize. rewrite filter_In, orb_true_iff.
  unfold char_in. rewrite existsb_exists.
  split; intros [Hin [Halnum|Hpunct]]; split; auto; right.
  - destruct Hpunct as [x [Hx Heq]]. apply N.eqb_eq in Heq. by subst x.
  - exists c. split; [done | apply N.eqb_refl].
Qed.

Lemma sanitize_sublist (env : Env) (filename : str) :
  sublist (sanitize env filename) filename.
Proof.
  induction filename as [|c filename IH]; [constructor|].
  unfold sanitize in *. simpl. destruct (_ || _); by constructor.
Qed.

(** Below U+0080 [isalnum] holds of the ASCII letters and digits only. *)
Lemma isalnum_ascii (env : Env) (c : N) :
  (c < 128)%N -> isalnum env c = isascii_digit c || isascii_alpha c.
Proof.
  intros Hc. unfold isalnum. assert ((c <? 256)%N = true) as ->.
  { apply N.ltb_lt. lia. }
  unfold latin1_isalnum, between.
  repeat match goal with
         | |- context [(?x =? c)%N] => destruct (N.eqb_spec x c); [lia|]
         | |- context [(c =? ?x)%N] => destruct (N.eqb_spec c x); [lia|]
         end.
  assert ((188 <=? c)%N = false) as -> by (apply N.leb_gt; lia).
  assert ((192 <=? c)%N = false) as -> by (apply N.leb_gt; lia).
  assert ((216 <=? c)%N = false) as -> by (apply N.leb_gt; lia).
  assert ((248 <=? c)%N = false) as -> by (apply N.leb_gt; lia).
  simpl. by rewrite !orb_false_r.
Qed.

(** The separators and the characters of an escape are no file name
    characters. *)
Lemma unsafe_characters (env : Env) (c : N) :
  c = chr "/" \/ c = chr "\" \/ c = chr " " \/ c = chr "%" ->
  isalnum env c || char_in c ".-_" = false.
Proof. intros [->|[->|[->| ->]]]; reflexivity. Qed.


(** X1. A name taken from the URL or made from the clock is not empty. *)
Lemma generate_filename_nonempty (env : Env) (url : str) (response : Response) :
  url_names_file url = true \/ disposition_names_file response = false ->
  generate_filename env url response <> [].
Proof.
  unfold generate_filename, url_names_file, disposition_names_file.
  fold (url_filename url).
  destruct (bool_decide (url_filename url = [])) eqn:Hempty;
    destruct (existsb (N.eqb (chr ".")) (url_filename url)) eqn:Hdot;
    cbn [orb negb andb].
  - intros [?|Hdisp]; [done|]. rewrite Hdisp. done.
  - intros [?|Hdisp]; [done|]. rewrite Hdisp. done.
  - intros _ Hnil. apply existsb_exists in Hdot as [c [Hc Heq]].
    apply N.eqb_eq in Heq. subst c.
    assert (In (chr ".") (sanitize env (url_filename url))) as Hin.
    { apply sanitize_In. split; [done | right; simpl; tauto]. }
    rewrite Hnil in Hin. destruct Hin.
  - intros [?|Hdisp]; [done|]. rewrite Hdisp. done.
Qed.

(** ** Running the program *)

(** One step of evaluation: the combinators, and the fields of an updated
    state. *)
Ltac run :=
  cbn beta iota zeta delta
    [bind try_except print ret raise fst snd
     set_console set_files set_dirs set_resp_content
     files dirs console resp_content].

Lemma fetch_image_phases (env : Env) (url directory : str) :
  fetch_image env url directory =
  (print (MsgConnecting url) ;;
   print MsgApproaching ;;
   mkdir env (pathlib.Path directory) ;;
   print (MsgDirectory directory) ;;
   try_except
     (print MsgMakingConnection ;;
      response <- get env (fetch_request url) ;;
      raise_for_status response ;;
      validate_image_response response ;;
      advise response ;;
      save env response (generate_filename env url response)
        (pathlib.truediv (pathlib.Path directory)
           (generate_filename env url response)))
     except_clauses).
Proof. reflexivity. Qed.

(** Every [except] clause returns a failure and leaves the files alone. *)
Lemma except_clauses_failure (e : exn) (st st' : State) (b : bool) (m : str) :
  except_clauses e st = (Return (b, m), st') -> b = false /\ files st' = files st.
Proof.
  unfold except_clauses.
  repeat match goal with
         | |- context [isinstance e ?c] => destruct (isinstance e c)
         end; run; intros [= <- <- <-]; done.
Qed.

(** An exception that leaves the [except] clauses is no [Exception]. *)
Lemma except_clauses_raise (e e' : exn) (st st' : State) :
  except_clauses e st = (Raise e', st') ->
  e' = e /\ isinstance e Exception = false.
Proof.
  unfold except_clauses.
  repeat match goal with
         | |- context [isinstance e ?c] => destruct (isinstance e c) eqn:?
         end; run; intros [= <- <-]; done.
Qed.

(** The loop writes the chunks one after the other to the open file and
    counts their bytes. *)
Lemma write_chunks_run (f : pathlib.PurePath) (chunks : list bytes) (total_size : Z)
    (st : State) (old : bytes) :
  files st !! pathlib.to_str f = Some old ->
  write_chunks f chunks total_size st =
  (Return (total_size + total_length chunks)%Z,
   set_files (<[pathlib.to_str f := old ++ concat chunks]> (files st)) st).
Proof.
  revert total_size st old.
  induction chunks as [|chunk chunks IH]; intros total_size st old Hold.
  - cbn [write_chunks total_length fold_right concat]. unfold ret.
    rewrite Z.add_0_r, app_nil_r, insert_id by done. by destruct st.
  - destruct chunk as [|b chunk].
    + cbn [write_chunks]. rewrite (IH _ _ old Hold).
      cbn [total_length fold_right length concat app]. do 2 f_equal. 
    + cbn [write_chunks]. unfold bind at 1. unfold write at 1.
      erewrite IH.
      2:{ cbn [files set_files]. rewrite lookup_alter_eq, Hold. reflexivity. }
      cbn [total_length fold_right concat]. fold (total_length chunks).
      f_equal; [f_equal; lia|].
      unfold set_files. cbn [files dirs console resp_content]. f_equal.
      rewrite <- (app_assoc old). apply map_eq. intros k.
      destruct (decide (k = pathlib.to_str f)) as [->|Hk].
      * by rewrite !lookup_insert_eq.
      * rewrite !lookup_insert_ne by done. by rewrite lookup_alter_ne.
Qed.

(** ** The validator *)

Lemma signature_found (content_start : bytes) :
  existsb (bytes_startswith content_start) image_signatures = true
  <-> exists sig rest,
        In sig [JPEG; PNG; GIF87a; GIF89a; BMP] /\ content_start = sig ++ rest.
Proof.
  rewrite existsb_exists. unfold image_signatures. split.
  - intros [sig [Hin Hsig]]. apply bytes_startswith_iff in Hsig as [rest ->].
    by exists sig, rest.
  - intros [sig [rest [Hin ->]]]. exists sig. split; [done|].
    apply bytes_startswith_iff. by exists rest.
Qed.

(** For the characters of [image/], to be the lower case of a character is
    to be the same letter. *)
Lemma same_letter_lower (a b : ascii) :
  In a (list_ascii_of_string "image/") ->
  a = latin1_lower b <-> same_letter a b = true.
Proof.
  intros Ha. simpl in Ha.
  destruct Ha as [<-|[<-|[<-|[<-|[<-|[<-|[]]]]]]];
    destruct b as [[] [] [] [] [] [] [] []]; vm_compute; split; congruence.
Qed.

Lemma caseless_prefix_lower (p s : string) :
  Forall (fun a => forall b, a = latin1_lower b <-> same_letter a b = true)
    (list_ascii_of_string p) ->
  String.prefix p (lower s) = caseless_prefix p s.
Proof.
  revert s. induction p as [|a p IH]; intros s Hp; [by destruct s|].
  apply Forall_cons in Hp as [Ha Hp].
  destruct s as [|b s]; [done|]. cbn [lower String.prefix caseless_prefix].
  destruct (Ascii.ascii_dec a (latin1_lower b)) as [Heq|Hne].
  - apply Ha in Heq. rewrite Heq. by apply IH.
  - destruct (same_letter a b) eqn:Hsame; [|done].
    by apply Ha in Hsame.
Qed.

(** The test of line 67 is the comparison without regard to case. *)
Lemma declared_image_iff (s : string) :
  caseless_prefix "image/" s = true <-> startswith "image/" (lower s) = true.
Proof.
  unfold startswith. rewrite caseless_prefix_lower; [done|].
  apply List.Forall_forall. intros a Ha b. by apply same_letter_lower.
Qed.

(** A declared image is accepted without a look at the body. *)
Lemma validate_declared (response : Response) (st : State) :
  startswith "image/" (lower (headers_get response "content-type" "")) = true ->
  validate_image_response response st = (Return true, st).
Proof. intros Htype. unfold validate_image_response. by rewrite Htype. Qed.

(** Otherwise the body is read, kept in the response object, and its first
    ten bytes decide. *)
Lemma validate_sniffed (response : Response) (st : State) :
  startswith "image/" (lower (headers_get response "content-type" "")) = false ->
  resp_content st = None ->
  body_error response = None ->
  validate_image_response response st =
  (if existsb (bytes_startswith (take 10 (concat (body response)))) image_signatures
   then Return true
   else Raise (mk_exn ValueError (latin1 "URL does not point to a valid image file")),
   set_resp_content (Some (concat (body response))) st).
Proof.
  intros Htype Hfresh Hbody. unfold validate_image_response. rewrite Htype.
  cbn [negb]. unfold bind at 1. unfold bind at 1. unfold content, body_exn.
  rewrite Hfresh, Hbody.
  by destruct (existsb _ image_signatures).
Qed.

(** The validator writes no file and prints nothing, whatever it answers;
    when it accepts a fresh response, the chunks that [iter_content] will
    hand out are [streamed_chunks], and no error follows them unless the
    connection has one in store. *)
Lemma validate_frame (response : Response) (st : State) :
  files (snd (validate_image_response response st)) = files st
  /\ console (snd (validate_image_response response st)) = console st
  /\ dirs (snd (validate_image_response response st)) = dirs st.
Proof.
  unfold validate_image_response, bind, content, ret, raise.
  destruct (startswith _ _); cbn [negb]; [done|].
  destruct (resp_content st) as [c|].
  - by destruct (existsb _ image_signatures).
  - destruct (body_exn response); [done|].
    by destruct (existsb _ image_signatures).
Qed.

Lemma validate_accepted (response : Response) (st st' : State) (b : bool) :
  resp_content st = None ->
  validate_image_response response st = (Return b, st') ->
  fst (iter_content response 8192 st') = Return (streamed_chunks response,
    if startswith "image/" (lower (headers_get response "content-type" ""))
    then body_exn response else None).
Proof.
  intros Hfresh. unfold validate_image_response, streamed_chunks.
  destruct (startswith _ _); cbn [negb].
  - intros [= <- <-]. unfold iter_content. by rewrite Hfresh.
  - unfold bind at 1. unfold bind at 1. unfold content. rewrite Hfresh.
    destruct (body_exn response); [done|].
    destruct (existsb _ image_signatures); [|done].
    intros [= <- <-]. reflexivity.
Qed.

(** C6. The validator accepts a response exactly when its content type
    starts with [image/], compared without regard to case, or the first ten
    bytes of its body begin with one of the five signatures (JPEG, PNG,
    GIF87a, GIF89a, BMP); every other response is rejected with a
    [ValueError] whose message is "URL does not point to a valid image
    file".  The response is one whose body has not been read yet and can be
    read. *)
Theorem validate_image_response_accepts_exactly_images
    (response : Response) (st : State) :
  resp_content st = None ->
  body_error response = None ->
  (spec_is_image response ->
   fst (validate_image_response response st) = Return true)
  /\ (~ spec_is_image response ->
      fst (validate_image_response response st)
      = Raise (mk_exn ValueError
                 (latin1 "URL does not point to a valid image file"))).
Proof.
  intros Hfresh Hbody. unfold spec_is_image.
  destruct (startswith "image/" (lower (headers_get response "content-type" "")))
    eqn:Htype.
  - rewrite (validate_declared _ _ Htype). split; [done|].
    intros Hnot. exfalso. apply Hnot. left. by apply declared_image_iff.
  - rewrite (validate_sniffed _ _ Htype Hfresh Hbody). cbn [fst].
    destruct (existsb _ image_signatures) eqn:Hsig.
    + split; [done|]. intros Hnot. exfalso. apply Hnot. right.
      by apply signature_found.
    + split; [|done]. intros [Hprefix|Hfound].
      * apply declared_image_iff in Hprefix. congruence.
      * apply signature_found in Hfound. congruence.
Qed.

Lemma text_page_is_no_image : ~ spec_is_image text_response.
Proof.
  intros [Htype|[sig [rest [Hin Hsig]]]].
  - vm_compute in Htype. discriminate.
  - simpl in Hin. destruct Hin as [<-|[<-|[<-|[<-|[<-|[]]]]]];
      vm_compute in Hsig; discriminate.
Qed.

Lemma validate_image_response_accepts_exactly_images_witness :
  resp_content fresh_state = None
  /\ body_error shouted_response = None
  /\ headers_get shouted_response "content-type" "" = "Image/PNG"
  /\ (fst (validate_image_response shouted_response fresh_state) = Return true
      /\ fst (validate_image_response text_response fresh_state)
         = Raise (mk_exn ValueError
                    (latin1 "URL does not point to a valid image file"))).
Proof.
  split; [reflexivity|]. split; [reflexivity|]. split; [reflexivity|]. split.
  - apply (validate_image_response_accepts_exactly_images shouted_response
             fresh_state); [reflexivity | reflexivity |].
    left. reflexivity.
  - apply (validate_image_response_accepts_exactly_images text_response
             fresh_state); [reflexivity | reflexivity | apply text_page_is_no_image].
Defined.

(** ** Inversion of a run *)

Lemma bind_inv {A B} (m : M A) (k : A -> M B) (st st'' : State) (b : B) :
  bind m k st = (Return b, st'') ->
  exists a st', m st = (Return a, st') /\ k a st' = (Return b, st'').
Proof.
  unfold bind. destruct (m st) as [[a|e] st']; [|done].
  intros Hk. by exists a, st'.
Qed.

Lemma try_except_inv {A} (m : M A) (handler : exn -> M A) (st st'' : State) (a : A) :
  try_except m handler st = (Return a, st'') ->
  m st = (Return a, st'')
  \/ exists e st', m st = (Raise e, st') /\ handler e st' = (Return a, st'').
Proof.
  unfold try_except. destruct (m st) as [[a'|e] st'].
  - intros [= <- <-]. by left.
  - intros Hh. right. by exists e, st'.
Qed.

Lemma print_inv (m : Msg) (st st' : State) (a : unit) :
  print m st = (Return a, st') -> st' = set_console (console st ++ [m]) st.
Proof. by intros [= _ <-]. Qed.

Lemma advise_inv (response : Response) (st st' : State) (a : unit) :
  advise response st = (Return a, st') ->
  st' = set_console (console st ++ advisory response) st.
Proof.
  unfold advise, advisory.
  destruct (headers_lookup response "content-length") as [[|c v]|].
  - intros [= _ <-]. cbn. rewrite app_nil_r. by destruct st.
  - destruct (py_int (String c v)) as [n|]; [|done].
    destruct (n >? 50 * 1024 * 1024)%Z; intros [= _ <-]; [done|].
    rewrite app_nil_r. by destruct st.
  - intros [= _ <-]. rewrite app_nil_r. by destruct st.
Qed.

(** A save that returns has written the chunks of the response, in order,
    to a file that starts empty, and has printed their total length. *)
Lemma save_inv (env : Env) (response : Response) (filename : str)
    (filepath : pathlib.PurePath) (st st' : State) (b : bool) (p : str)
    (chunks : list bytes) (err : option exn) :
  fst (iter_content response 8192 st) = Return (chunks, err) ->
  save env response filename filepath st = (Return (b, p), st') ->
  b = true /\ p = pathlib.to_str filepath
  /\ files st' = <[p := concat chunks]> (files st)
  /\ exists size_mb,
       int_truediv_pow2 (total_length chunks) 20 = Some size_mb
       /\ console st' =
          console st ++ [MsgSaving filename; MsgFetched filename;
                         MsgFileSize (format_2f size_mb); MsgSavedTo p;
                         MsgStrengthened].
Proof.
  intros Hiter Hsave. unfold save in Hsave.
  apply bind_inv in Hsave as (? & st1 & Hprint & Hsave).
  apply print_inv in Hprint. subst st1.
  apply bind_inv in Hsave as (? & st2 & Hopen & Hsave).
  unfold open_wb in Hopen. cbn [dirs set_console] in Hopen.
  destruct (bool_decide _); [done|].
  destruct (open_error env _); [done|].
  injection Hopen as _ <-.
  apply bind_inv in Hsave as (stream & st3 & Hstream & Hsave).
  assert (stream = (chunks, err) /\ st3 = set_files
            (<[pathlib.to_str filepath := []]> (files st))
            (set_console (console st ++ [MsgSaving filename]) st)) as [-> ->].
  { unfold iter_content in *. cbn [resp_content set_files set_console fst] in *.
    injection Hstream as <- <-. by injection Hiter as ->. }
  cbn [fst snd] in Hsave.
  apply bind_inv in Hsave as (total_size & st4 & Hloop & Hsave).
  rewrite (write_chunks_run _ _ _ _ []) in Hloop
    by (cbn [files set_files]; apply lookup_insert_eq).
  injection Hloop as <- <-.
  apply bind_inv in Hsave as (? & st5 & Herr & Hsave).
  destruct err; [done|]. injection Herr as _ <-.
  apply bind_inv in Hsave as (size_mb & st6 & Hsize & Hsave).
  unfold truediv_mb in Hsize. rewrite Z.add_0_l in Hsize.
  destruct (int_truediv_pow2 (total_length chunks) 20) as [size|] eqn:Hfits;
    [|done].
  injection Hsize as <- <-.
  repeat (apply bind_inv in Hsave as (? & ? & ->%print_inv & Hsave)).
  injection Hsave as <- <- <-.
  cbn [files console set_files set_console]. rewrite insert_insert_eq.
  split; [done|]. split; [done|]. split; [done|].
  exists size. split; [done|].
  rewrite <- !app_assoc. reflexivity.
Qed.

Lemma fetch_image_success (env : Env) (url directory : str) (st st' : State)
    (p : str) :
  fetch_image env url directory st = (Return (true, p), st') ->
  exists response,
    requests_get env (fetch_request url) = inr response
    /\ p = pathlib.to_str
             (pathlib.truediv (pathlib.Path directory)
                (generate_filename env url response))
    /\ files st' = <[p := concat (streamed_chunks response)]> (files st)
    /\ exists size_mb,
         int_truediv_pow2 (total_length (streamed_chunks response)) 20
         = Some size_mb
         /\ console st' =
            console st
            ++ [MsgConnecting url; MsgApproaching; MsgDirectory directory;
                MsgMakingConnection]
            ++ advisory response
            ++ [MsgSaving (generate_filename env url response);
                MsgFetched (generate_filename env url response);
                MsgFileSize (format_2f size_mb);
                MsgSavedTo p; MsgStrengthened].
Proof.
  rewrite fetch_image_phases. intros Hrun.
  apply bind_inv in Hrun as (? & ? & ->%print_inv & Hrun).
  apply bind_inv in Hrun as (? & ? & ->%print_inv & Hrun).
  apply bind_inv in Hrun as (? & st1 & Hmkdir & Hrun).
  unfold mkdir in Hmkdir. destruct (mkdir_error env _); [done|].
  injection Hmkdir as _ <-.
  apply bind_inv in Hrun as (? & ? & ->%print_inv & Hrun).
  apply try_except_inv in Hrun as [Hrun|(e & st2 & _ & Hfail)].
  2:{ by apply except_clauses_failure in Hfail as [? _]. }
  apply bind_inv in Hrun as (? & ? & ->%print_inv & Hrun).
  apply bind_inv in Hrun as (response & st2 & Hget & Hrun).
  unfold get in Hget. destruct (requests_get env _) as [|r] eqn:Hnet; [done|].
  injection Hget as -> <-.
  apply bind_inv in Hrun as (? & st3 & Hstatus & Hrun).
  unfold raise_for_status in Hstatus. destruct (http_error response); [done|].
  injection Hstatus as _ <-.
  apply bind_inv in Hrun as (? & st4 & Hvalid & Hrun).
  match type of Hvalid with
  | validate_image_response _ ?s = _ =>
      pose proof (validate_frame response s) as Hframe
  end.
  rewrite Hvalid in Hframe. destruct Hframe as (Hfiles & Hconsole & _).
  apply validate_accepted in Hvalid; [|done].
  apply bind_inv in Hrun as (? & st5 & ->%advise_inv & Hrun).
  eapply save_inv in Hrun as (_ & -> & Hfiles' & size_mb & Hfits & Hconsole').
  2:{ exact Hvalid. }
  exists response. split; [done|]. split; [done|].
  cbn [files console set_console set_files set_dirs set_resp_content snd] in *.
  rewrite Hfiles', Hfiles, Hconsole', Hconsole.
  split; [done|]. exists size_mb. split; [done|].
  rewrite <- !app_assoc. reflexivity.
Qed.

(** ** The failure paths *)

(** The clause an [HTTPError] reaches.  The status shown is that of
    [e.response] when the response is true, and a response is true when its
    status is no error. *)
Lemma except_clauses_HTTPError (msg : str) (response : option Response) (st : State) :
  except_clauses
    {| exn_class := HTTPError; exn_msg := msg; exn_response := response |} st
  = let status_code :=
      match response with
      | Some r => if ok r then Z_to_string (status_code r) else "Unknown"
      | None => "Unknown"
      end in
    (Return (false, latin1 ("HTTP " +:+ status_code +:+ " error")),
     set_console (console st ++ [MsgStatus (latin1 status_code); MsgServerSpoken]) st).
Proof.
  unfold except_clauses, isinstance. cbn [exn_class exn_response exn_msg].
  change (issubclass HTTPError Timeout) with false.
  change (issubclass HTTPError ConnectionError) with false.
  change (issubclass HTTPError HTTPError) with true.
  cbn iota. run. by rewrite <- app_assoc.
Qed.

(** The clause a [ValueError] reaches. *)
Lemma except_clauses_ValueError (msg : str) (st : State) :
  except_clauses (mk_exn ValueError msg) st
  = (Return (false, msg),
     set_console (console st ++ [MsgValidationFailed msg; MsgAuthenticity]) st).
Proof.
  unfold except_clauses, isinstance, mk_exn. cbn [exn_class exn_response exn_msg].
  change (issubclass ValueError Timeout) with false.
  change (issubclass ValueError ConnectionError) with false.
  change (issubclass ValueError HTTPError) with false.
  change (issubclass ValueError ValueError) with true.
  cbn iota. run. by rewrite <- app_assoc.
Qed.

(** The run up to the arrival of a response. *)
Lemma fetch_image_response (env : Env) (url directory : str) (st : State)
    (response : Response) :
  mkdir_error env (pathlib.to_str (pathlib.Path directory)) = None ->
  requests_get env (fetch_request url) = inr response ->
  fetch_image env url directory st =
  try_except
    (raise_for_status response ;;
     validate_image_response response ;;
     advise response ;;
     save env response (generate_filename env url response)
       (pathlib.truediv (pathlib.Path directory)
          (generate_filename env url response)))
    except_clauses
    (set_resp_content None
       (set_console
          (console st ++ [MsgConnecting url; MsgApproaching;
                          MsgDirectory directory; MsgMakingConnection])
          (set_dirs ({[pathlib.to_str (pathlib.Path directory)]} ∪ dirs st) st))).
Proof.
  intros Hmkdir Hget. rewrite fetch_image_phases.
  unfold try_except, bind, print, mkdir, get. rewrite Hmkdir. run.
  rewrite Hget. run. rewrite <- !app_assoc. reflexivity.
Qed.

(** A status of 400 to 599 is an [HTTPError], and the response it carries is
    false. *)
Lemma http_error_status (response : Response) :
  (400 <= status_code response < 600)%Z ->
  exists msg, http_error response
              = Some {| exn_class := HTTPError; exn_msg := msg;
                        exn_response := Some response |}
              /\ ok response = false.
Proof.
  intros Hstatus. unfold ok, http_error.
  destruct (400 <=? status_code response)%Z eqn:Hlo; [|lia].
  destruct (status_code response <? 500)%Z eqn:H4; cbn [andb]; [eauto|].
  destruct (500 <=? status_code response)%Z eqn:H5; [|lia].
  destruct (status_code response <? 600)%Z eqn:H6; cbn [andb]; [eauto|lia].
Qed.

Lemma http_error_none (response : Response) :
  ~ (400 <= status_code response < 600)%Z -> http_error response = None.
Proof.
  intros Hstatus. unfold http_error.
  destruct (400 <=? status_code response)%Z eqn:Hlo;
    destruct (status_code response <? 500)%Z eqn:H4;
    destruct (500 <=? status_code response)%Z eqn:H5;
    destruct (status_code response <? 600)%Z eqn:H6; cbn [andb]; try done; lia.
Qed.

(** The whole run for a response that [raise_for_status] rejects.  What is
    shown as the status is always the word Unknown: the [HTTPError] clause
    tests the truth of [e.response], and such a response is false. *)
Lemma fetch_image_error_status (env : Env) (url directory : str) (st : State)
    (response : Response) :
  mkdir_error env (pathlib.to_str (pathlib.Path directory)) = None ->
  requests_get env (fetch_request url) = inr response ->
  (400 <= status_code response < 600)%Z ->
  fetch_image env url directory st =
  (Return (false, latin1 "HTTP Unknown error"),
   set_console
     (console st ++ [MsgConnecting url; MsgApproaching; MsgDirectory directory;
                     MsgMakingConnection; MsgStatus (latin1 "Unknown");
                     MsgServerSpoken])
     (set_resp_content None
        (set_dirs ({[pathlib.to_str (pathlib.Path directory)]} ∪ dirs st) st))).
Proof.
  intros Hmkdir Hget Hstatus.
  rewrite (fetch_image_response _ _ _ _ _ Hmkdir Hget).
  destruct (http_error_status _ Hstatus) as (msg & Herr & Hok).
  unfold try_except, bind at 1, raise_for_status. rewrite Herr. unfold raise.
  rewrite except_clauses_HTTPError. cbn zeta. rewrite Hok.
  cbn [console set_console set_resp_content set_dirs]. by rewrite <- app_assoc.
Qed.

(** The whole run for a response that the validator rejects. *)
Lemma fetch_image_not_an_image (env : Env) (url directory : str) (st : State)
    (response : Response) :
  mkdir_error env (pathlib.to_str (pathlib.Path directory)) = None ->
  requests_get env (fetch_request url) = inr response ->
  ~ (400 <= status_code response < 600)%Z ->
  body_error response = None ->
  startswith "image/" (lower (headers_get response "content-type" "")) = false ->
  existsb (bytes_startswith (take 10 (concat (body response)))) image_signatures
  = false ->
  fetch_image env url directory st =
  (Return (false, latin1 "URL does not point to a valid image file"),
   set_console
     (console st ++ [MsgConnecting url; MsgApproaching; MsgDirectory directory;
                     MsgMakingConnection;
                     MsgValidationFailed
                       (latin1 "URL does not point to a valid image file");
                     MsgAuthenticity])
     (set_resp_content (Some (concat (body response)))
        (set_dirs ({[pathlib.to_str (pathlib.Path directory)]} ∪ dirs st) st))).
Proof.
  intros Hmkdir Hget Hstatus Hbody Htype Hsig.
  rewrite (fetch_image_response _ _ _ _ _ Hmkdir Hget).
  unfold try_except, bind at 1, raise_for_status.
  rewrite (http_error_none _ Hstatus). unfold ret at 1.
  unfold bind at 1. rewrite validate_sniffed by done. rewrite Hsig.
  rewrite except_clauses_ValueError.
  cbn [console set_console set_resp_content set_dirs]. by rewrite <- app_assoc.
Qed.

(** C2 (amended). For every response whose status code is between 400 and
    599, the codes [raise_for_status] rejects, [fetch_image] fails fast: it
    returns a failure whose message is "HTTP <status> error", the
    [HTTPError] clause having printed the same status, and no file is
    written.  (The statement leaves open what is shown as the status.) *)
Theorem error_status_fails_fast (env : Env) (url directory : str) (st : State)
    (response : Response) :
  mkdir_error env (pathlib.to_str (pathlib.Path directory)) = None ->
  requests_get env (fetch_request url) = inr response ->
  (400 <= status_code response < 600)%Z ->
  exists status : string,
    fst (fetch_image env url directory st)
    = Return (false, latin1 ("HTTP " +:+ status +:+ " error"))
    /\ In (MsgStatus (latin1 status))
          (console (snd (fetch_image env url directory st)))
    /\ files (snd (fetch_image env url directory st)) = files st.
Proof.
  intros Hmkdir Hget Hstatus.
  rewrite (fetch_image_error_status _ _ _ _ _ Hmkdir Hget Hstatus).
  exists "Unknown". cbn [fst snd files console set_console set_dirs set_resp_content].
  split; [done|]. split; [|done].
  apply in_or_app. right. simpl. tauto.
Qed.

Lemma error_status_fails_fast_witness :
  let response := with_status 404 "Not Found" png_response in
  let env := machine 1700000000 response in
  let url := latin1 "https://x/logo.png" in
  (400 <= status_code response < 600)%Z
  /\ exists status : string,
       fst (fetch_image env url default_directory fresh_state)
       = Return (false, latin1 ("HTTP " +:+ status +:+ " error"))
       /\ In (MsgStatus (latin1 status))
             (console (snd (fetch_image env url default_directory fresh_state)))
       /\ files (snd (fetch_image env url default_directory fresh_state))
          = files fresh_state.
Proof.
  split; [change (400 <= 404 < 600)%Z; lia|].
  apply (error_status_fails_fast
           (machine 1700000000 (with_status 404 "Not Found" png_response))
           (latin1 "https://x/logo.png") default_directory fresh_state
           (with_status 404 "Not Found" png_response));
    [reflexivity | reflexivity | change (400 <= 404 < 600)%Z; lia].
Defined.

(** C2, as stated, fails: a response with status 304, which is outside the
    2xx range, is not rejected; announced as an image it is saved and the
    call succeeds. *)
Lemma status_304_is_not_rejected :
  let env := machine 1700000000 not_modified_response in
  let run := fetch_image env (latin1 "https://x/logo.png") default_directory
               fresh_state in
  status_code not_modified_response = 304%Z
  /\ fst run = Return (true, latin1 "Fetched_Images/logo.png")
  /\ files (snd run) !! latin1 "Fetched_Images/logo.png" = Some [].
Proof. vm_compute. repeat split; reflexivity. Qed.

(** C5. For every response that passed the status check and whose body can
    be read, if its content type does not start with [image/] (compared
    without regard to case) and the first bytes of its body begin with none
    of the five signatures, [fetch_image] returns the failure of the
    [ValueError] clause, with the validator's message, and writes no file:
    the save step is not reached. *)
Theorem non_image_is_rejected_before_any_write (env : Env) (url directory : str)
    (st : State) (response : Response) :
  mkdir_error env (pathlib.to_str (pathlib.Path directory)) = None ->
  requests_get env (fetch_request url) = inr response ->
  ~ (400 <= status_code response < 600)%Z ->
  body_error response = None ->
  ~ spec_is_image response ->
  fst (fetch_image env url directory st)
  = Return (false, latin1 "URL does not point to a valid image file")
  /\ In (MsgValidationFailed (latin1 "URL does not point to a valid image file"))
        (console (snd (fetch_image env url directory st)))
  /\ (forall filename, ~ In (MsgSaving filename) (console st) ->
      ~ In (MsgSaving filename) (console (snd (fetch_image env url directory st))))
  /\ files (snd (fetch_image env url directory st)) = files st.
Proof.
  intros Hmkdir Hget Hstatus Hbody Hnot.
  assert (startswith "image/" (lower (headers_get response "content-type" ""))
          = false) as Htype.
  { destruct (startswith _ _) eqn:Htype; [|done].
    exfalso. apply Hnot. left. by apply declared_image_iff. }
  assert (existsb (bytes_startswith (take 10 (concat (body response))))
            image_signatures = false) as Hsig.
  { destruct (existsb _ image_signatures) eqn:Hsig; [|done].
    exfalso. apply Hnot. right. by apply signature_found. }
  rewrite (fetch_image_not_an_image _ _ _ _ _ Hmkdir Hget Hstatus Hbody Htype Hsig).
  cbn [fst snd files console set_console set_dirs set_resp_content].
  split; [done|]. split; [|split; [|done]].
  - apply in_or_app. right. simpl. tauto.
  - intros filename Hold [Hin|Hin]%in_app_or; [done|].
    simpl in Hin. by repeat destruct Hin as [Hin|Hin].
Qed.

Lemma non_image_is_rejected_before_any_write_witness :
  let env := machine 1700000000 text_response in
  let run := fetch_image env (latin1 "https://x/file.txt") default_directory
               fresh_state in
  ~ spec_is_image text_response
  /\ fst run = Return (false, latin1 "URL does not point to a valid image file")
  /\ In (MsgValidationFailed (latin1 "URL does not point to a valid image file"))
        (console (snd run))
  /\ (forall filename, ~ In (MsgSaving filename) (console fresh_state) ->
      ~ In (MsgSaving filename) (console (snd run)))
  /\ files (snd run) = files fresh_state.
Proof.
  split; [apply text_page_is_no_image|].
  apply (non_image_is_rejected_before_any_write
           (machine 1700000000 text_response) (latin1 "https://x/file.txt")
           default_directory fresh_state text_response);
    [reflexivity | reflexivity | change (~ (400 <= 200 < 600)%Z); lia | reflexivity
    | apply text_page_is_no_image].
Defined.

(** ** Errors that leave [fetch_image] *)

Lemma bind_raise_inv {A B} (m : M A) (k : A -> M B) (st st'' : State) (e : exn) :
  bind m k st = (Raise e, st'') ->
  m st = (Raise e, st'')
  \/ exists a st', m st = (Return a, st') /\ k a st' = (Raise e, st'').
Proof.
  unfold bind. destruct (m st) as [[a|e'] st'].
  - intros Hk. right. by exists a, st'.
  - intros [= <- <-]. by left.
Qed.

Lemma try_except_raise_inv {A} (m : M A) (handler : exn -> M A)
    (st st'' : State) (e : exn) :
  try_except m handler st = (Raise e, st'') ->
  exists e' st', m st = (Raise e', st') /\ handler e' st' = (Raise e, st'').
Proof.
  unfold try_except. destruct (m st) as [[a|e'] st']; [done|].
  intros Hh. by exists e', st'.
Qed.

(** [mkdir] stands before the [try]: its error leaves [fetch_image] as it
    is, whatever its class. *)
Lemma mkdir_error_escapes (env : Env) (url directory : str) (st : State) (e : exn) :
  mkdir_error env (pathlib.to_str (pathlib.Path directory)) = Some e ->
  fetch_image env url directory st =
  (Raise e, set_console (console st ++ [MsgConnecting url; MsgApproaching]) st).
Proof.
  intros Hmkdir. rewrite fetch_image_phases.
  unfold bind, print, mkdir. rewrite Hmkdir. run.
  by rewrite <- app_assoc.
Qed.

(** C1, on the failing input: on a machine where [mkdir] fails for want of
    permission, [fetch_image] returns no failure; the [PermissionError]
    leaves it, after the first two lines of output and before any
    request. *)
Theorem mkdir_permission_error_is_not_caught :
  fetch_image readonly_machine (latin1 "https://x/logo.png") default_directory
    fresh_state
  = (Raise (mk_exn PermissionError
              (latin1 "[Errno 13] Permission denied: 'Fetched_Images'")),
     set_console [MsgConnecting (latin1 "https://x/logo.png"); MsgApproaching]
       fresh_state).
Proof.
  rewrite (mkdir_error_escapes readonly_machine _ _ _
             (mk_exn PermissionError
                (latin1 "[Errno 13] Permission denied: 'Fetched_Images'")));
    reflexivity.
Qed.

(** ** The successful run *)

(** Empty chunks count for nothing. *)
Lemma total_length_nonempty (chunks : list bytes) :
  total_length (List.filter (fun chunk => negb (bool_decide (chunk = []))) chunks)
  = total_length chunks.
Proof.
  induction chunks as [|chunk chunks IH]; [done|].
  destruct chunk as [|b chunk]; simpl.
  - exact IH.
  - cbn [total_length fold_right] in *. by rewrite IH.
Qed.

Lemma advisory_no_size (response : Response) (text : string) :
  ~ In (MsgFileSize text) (advisory response).
Proof.
  unfold advisory. destruct (headers_lookup _ _) as [v|]; [|by intros []].
  destruct (py_int v) as [m|]; [|by intros []].
  destruct (m >? _)%Z; [intros [?|[]] | intros []]; done.
Qed.

(** Below [2 ^ 53] the quotient by [2 ^ 20] is exact. *)
Lemma int_truediv_pow2_exact (n k : Z) :
  (0 <= n < 2 ^ 53)%Z -> (0 <= k)%Z ->
  int_truediv_pow2 n k = Some {| mantissa := n; scale := k |}.
Proof.
  intros [Hpos Hsmall] Hk. unfold int_truediv_pow2, round_53.
  assert (Z.log2 n + 1 <= 53)%Z as Hbits.
  { destruct (Z.eq_dec n 0%Z) as [->|Hn]; [done|].
    assert (Z.log2 n < 53)%Z; [apply Z.log2_lt_pow2; lia | lia]. }
  apply Z.leb_le in Hbits. rewrite Hbits.
  assert ((n <? 2 ^ (1024 + k))%Z = true) as ->; [|done].
  apply Z.ltb_lt. eapply Z.lt_le_trans; [exact Hsmall|].
  apply Z.pow_le_mono_r; lia.
Qed.

(** The rounding is to a nearest integer. *)
Lemma round_half_even_nearest (a b : Z) :
  (0 < b)%Z -> (2 * Z.abs (round_half_even a b * b - a) <= b)%Z.
Proof.
  intros Hb. unfold round_half_even.
  pose proof (Z.div_mod a b ltac:(lia)) as Hdiv.
  pose proof (Z.mod_pos_bound a b Hb) as Hmod.
  destruct (Z.ltb_spec (2 * (a mod b)) b); [nia|].
  destruct (Z.ltb_spec b (2 * (a mod b))); [nia|].
  destruct (Z.even (a / b)); nia.
Qed.

(** What [format] writes for a quotient by [2 ^ 20]: the two decimals
    nearest to it. *)
Lemma format_2f_nearest (n : Z) :
  exists hundredths,
    nearest_hundredths hundredths n (2 ^ 20)
    /\ format_2f {| mantissa := n; scale := 20 |} = two_decimals hundredths.
Proof.
  exists (round_half_even (100 * n) (2 ^ 20)). split.
  - unfold nearest_hundredths. by apply round_half_even_nearest.
  - unfold format_2f, two_decimals. cbn [mantissa scale].
    by rewrite Z.mod_eq by done.
Qed.

(** C7 (amended). For every successful call, the size shown is computed from
    one number, the sum of the lengths of the chunks streamed to the file;
    that sum is the length of the file on disk, which holds those chunks in
    order, and chunks of length zero are passed over and add nothing.  What
    is shown is not the sum: for a sum below [2 ^ 53] it is the decimal
    with two digits after the point nearest to the sum divided by 1048576;
    and the value returned is the path alone. *)
Theorem reported_size_is_chunk_total_in_megabytes (env : Env)
    (url directory : str) (st : State) (p : str) :
  fst (fetch_image env url directory st) = Return (true, p) ->
  exists response out size_mb,
    requests_get env (fetch_request url) = inr response
    /\ console (snd (fetch_image env url directory st)) = console st ++ out
    /\ int_truediv_pow2 (total_length (streamed_chunks response)) 20
       = Some size_mb
    /\ (forall text, In (MsgFileSize text) out <-> text = format_2f size_mb)
    /\ ((total_length (streamed_chunks response) < 2 ^ 53)%Z ->
        exists hundredths,
          nearest_hundredths hundredths
            (total_length (streamed_chunks response)) 1048576
          /\ format_2f size_mb = two_decimals hundredths)
    /\ files (snd (fetch_image env url directory st)) !! p
       = Some (concat (streamed_chunks response))
    /\ total_length (streamed_chunks response)
       = Z.of_nat (length (concat (streamed_chunks response)))
    /\ total_length (streamed_chunks response)
       = total_length
           (List.filter (fun chunk => negb (bool_decide (chunk = [])))
              (streamed_chunks response)).
Proof.
  destruct (fetch_image env url directory st) as [res st'] eqn:Hrun.
  cbn [fst snd]. intros ->.
  apply fetch_image_success in Hrun
    as (response & Hget & Hp & Hfiles & size_mb & Hfits & Hconsole).
  exists response. eexists. exists size_mb.
  split; [done|]. split; [exact Hconsole|]. split; [done|].
  split; [|split; [|split; [|split]]].
  - intros text. rewrite !in_app_iff. split.
    + intros [Hin|[Hin|Hin]].
      * simpl in Hin. by repeat destruct Hin as [Hin|Hin].
      * by apply advisory_no_size in Hin.
      * simpl in Hin. repeat destruct Hin as [Hin|Hin]; try done.
        by injection Hin as <-.
    + intros ->. right. right. simpl. tauto.
  - intros Hsmall.
    rewrite int_truediv_pow2_exact in Hfits;
      [injection Hfits as <-; apply format_2f_nearest | | done].
    split; [|done]. rewrite total_length_concat. lia.
  - rewrite Hfiles. apply lookup_insert_eq.
  - apply total_length_concat.
  - symmetry. apply total_length_nonempty.
Qed.

Lemma reported_size_is_chunk_total_in_megabytes_witness :
  let env := machine 1700000000 png_response in
  let run := fetch_image env (latin1 "https://x/logo.png") default_directory
               fresh_state in
  fst run = Return (true, latin1 "Fetched_Images/logo.png")
  /\ exists response out size_mb,
       requests_get env (fetch_request (latin1 "https://x/logo.png")) = inr response
       /\ console (snd run) = console fresh_state ++ out
       /\ int_truediv_pow2 (total_length (streamed_chunks response)) 20
          = Some size_mb
       /\ (forall text, In (MsgFileSize text) out <-> text = format_2f size_mb)
       /\ ((total_length (streamed_chunks response) < 2 ^ 53)%Z ->
           exists hundredths,
             nearest_hundredths hundredths
               (total_length (streamed_chunks response)) 1048576
             /\ format_2f size_mb = two_decimals hundredths)
       /\ files (snd run) !! latin1 "Fetched_Images/logo.png"
          = Some (concat (streamed_chunks response))
       /\ total_length (streamed_chunks response)
          = Z.of_nat (length (concat (streamed_chunks response)))
       /\ total_length (streamed_chunks response)
          = total_length
              (List.filter (fun chunk => negb (bool_decide (chunk = [])))
                 (streamed_chunks response)).
Proof.
  split; [vm_compute; reflexivity|].
  apply (reported_size_is_chunk_total_in_megabytes
           (machine 1700000000 png_response) (latin1 "https://x/logo.png")
           default_directory fresh_state (latin1 "Fetched_Images/logo.png")).
  vm_compute. reflexivity.
Defined.

(** C7, as stated, fails: no size in bytes is reported.  A file of 11 bytes
    and one of 12 give the same line, [File size: 0.00 MB], and the same
    value, the path. *)
Lemma byte_size_is_not_reported :
  let url := latin1 "https://x/logo.png" in
  let run1 := fetch_image (machine 1700000000 png_response) url
                default_directory fresh_state in
  let run2 := fetch_image (machine 1700000000 longer_png_response) url
                default_directory fresh_state in
  total_length (streamed_chunks png_response) = 11%Z
  /\ total_length (streamed_chunks longer_png_response) = 12%Z
  /\ fst run1 = Return (true, latin1 "Fetched_Images/logo.png")
  /\ fst run2 = fst run1
  /\ console (snd run2) = console (snd run1)
  /\ In (MsgFileSize "0.00") (console (snd run1)).
Proof. vm_compute. repeat split; try reflexivity. tauto. Qed.


(** *** What a run does not look at

    No step of [fetch_image] reads the files that exist or the lines
    printed so far. *)

Section Agreement.

Variables fs cs : bool.

Lemma agree_ret {A} (a : A) : agree fs cs (ret a) (ret a).
Proof. intros st1 st2 Hsame. done. Qed.

Lemma agree_raise {A} (e : exn) : agree fs cs (@raise A e) (raise e).
Proof. intros st1 st2 Hsame. done. Qed.

Lemma agree_bind {A B} (m1 m2 : M A) (k1 k2 : A -> M B) :
  agree fs cs m1 m2 -> (forall a, agree fs cs (k1 a) (k2 a)) ->
  agree fs cs (bind m1 k1) (bind m2 k2).
Proof.
  intros Hm Hk st1 st2 Hsame. unfold bind.
  destruct (Hm st1 st2 Hsame) as [Hres Hsame'].
  destruct (m1 st1) as [[a1|e1] s1], (m2 st2) as [[a2|e2] s2];
    cbn [fst snd] in *; try discriminate.
  - injection Hres as <-. by apply Hk.
  - injection Hres as <-. by split.
Qed.

Lemma agree_try_except {A} (m1 m2 : M A) (handler : exn -> M A) :
  agree fs cs m1 m2 -> (forall e, agree fs cs (handler e) (handler e)) ->
  agree fs cs (try_except m1 handler) (try_except m2 handler).
Proof.
  intros Hm Hh st1 st2 Hsame. unfold try_except.
  destruct (Hm st1 st2 Hsame) as [Hres Hsame'].
  destruct (m1 st1) as [[a1|e1] s1], (m2 st2) as [[a2|e2] s2];
    cbn [fst snd] in *; try discriminate.
  - by split.
  - injection Hres as <-. by apply Hh.
Qed.

Lemma agree_print (m : Msg) : agree fs cs (print m) (print m).
Proof.
  intros st1 st2 (Hfiles & Hconsole & Hdirs & Hcontent).
  unfold print, same_except. cbn. repeat split; try done.
  intros Hcs. by rewrite Hconsole.
Qed.

Lemma agree_mkdir (env : Env) (p : pathlib.PurePath) :
  agree fs cs (mkdir env p) (mkdir env p).
Proof.
  intros st1 st2 (Hfiles & Hconsole & Hdirs & Hcontent).
  unfold mkdir, same_except.
  destruct (mkdir_error env _); cbn; [done|]. by rewrite Hdirs.
Qed.

Lemma agree_open_wb (env : Env) (p : pathlib.PurePath) :
  agree fs cs (open_wb env p) (open_wb env p).
Proof.
  intros st1 st2 (Hfiles & Hconsole & Hdirs & Hcontent).
  unfold open_wb, same_except. rewrite Hdirs.
  destruct (bool_decide _); [done|].
  destruct (open_error env _); [done|]. cbn. repeat split; try done.
  intros Hfs. by rewrite Hfiles.
Qed.

Lemma agree_write (p : pathlib.PurePath) (chunk : bytes) :
  agree fs cs (write p chunk) (write p chunk).
Proof.
  intros st1 st2 (Hfiles & Hconsole & Hdirs & Hcontent).
  unfold write, same_except. cbn. repeat split; try done.
  intros Hfs. by rewrite Hfiles.
Qed.

Lemma agree_write_chunks (f : pathlib.PurePath) (chunks : list bytes)
    (total_size : Z) :
  agree fs cs (write_chunks f chunks total_size) (write_chunks f chunks total_size).
Proof.
  revert total_size. induction chunks as [|[|b chunk] chunks IH]; intros total_size.
  - apply agree_ret.
  - apply IH.
  - cbn [write_chunks]. apply agree_bind; [apply agree_write | intros _; apply IH].
Qed.

Lemma agree_get (env : Env) (req : Request) : agree fs cs (get env req) (get env req).
Proof.
  intros st1 st2 (Hfiles & Hconsole & Hdirs & Hcontent). unfold get, same_except.
  by destruct (requests_get env req).
Qed.

Lemma agree_raise_for_status (response : Response) :
  agree fs cs (raise_for_status response) (raise_for_status response).
Proof.
  unfold raise_for_status.
  destruct (http_error response); [apply agree_raise | apply agree_ret].
Qed.

Lemma agree_content (response : Response) :
  agree fs cs (content response) (content response).
Proof.
  intros st1 st2 (Hfiles & Hconsole & Hdirs & Hcontent).
  unfold content, same_except.
  rewrite Hcontent. destruct (resp_content st2) eqn:Hcached; cbn [fst snd].
  - by rewrite Hcontent, Hcached.
  - destruct (body_exn response); cbn; [by rewrite Hcontent, Hcached | done].
Qed.

Lemma agree_iter_content (response : Response) (chunk_size : N) :
  agree fs cs (iter_content response chunk_size) (iter_content response chunk_size).
Proof.
  intros st1 st2 (Hfiles & Hconsole & Hdirs & Hcontent).
  unfold iter_content, same_except. cbn [fst snd]. by rewrite Hcontent.
Qed.

Lemma agree_validate (response : Response) :
  agree fs cs (validate_image_response response) (validate_image_response response).
Proof.
  unfold validate_image_response.
  apply agree_bind; [|intros _; apply agree_ret].
  destruct (negb _); [|apply agree_ret].
  apply agree_bind; [apply agree_content|]. intros c.
  destruct (negb _); [apply agree_raise | apply agree_ret].
Qed.

Lemma agree_advise (response : Response) :
  agree fs cs (advise response) (advise response).
Proof.
  unfold advise. destruct (headers_lookup _ _) as [[|c v]|]; try apply agree_ret.
  destruct (py_int _) as [n|]; [|apply agree_raise].
  destruct (n >? _)%Z; [apply agree_print | apply agree_ret].
Qed.

Lemma agree_truediv_mb (total_size : Z) :
  agree fs cs (truediv_mb total_size) (truediv_mb total_size).
Proof.
  unfold truediv_mb.
  destruct (int_truediv_pow2 _ _); [apply agree_ret | apply agree_raise].
Qed.

Lemma agree_save (env : Env) (response : Response) (filename : str)
    (filepath : pathlib.PurePath) :
  agree fs cs (save env response filename filepath)
    (save env response filename filepath).
Proof.
  unfold save.
  apply agree_bind; [apply agree_print | intros _].
  apply agree_bind; [apply agree_open_wb | intros _].
  apply agree_bind; [apply agree_iter_content | intros stream].
  apply agree_bind; [apply agree_write_chunks | intros total_size].
  apply agree_bind.
  { destruct (snd stream); [apply agree_raise | apply agree_ret]. }
  intros _. apply agree_bind; [apply agree_truediv_mb | intros size_mb].
  repeat (apply agree_bind; [apply agree_print | intros _]).
  apply agree_ret.
Qed.

Lemma agree_except_clauses (e : exn) :
  agree fs cs (except_clauses e) (except_clauses e).
Proof.
  unfold except_clauses.
  repeat match goal with
         | |- context [isinstance e ?c] => destruct (isinstance e c)
         end;
    try apply agree_raise;
    repeat (apply agree_bind; [apply agree_print | intros _]); apply agree_ret.
Qed.

Lemma agree_fetch_image (env : Env) (url directory : str) :
  agree fs cs (fetch_image env url directory) (fetch_image env url directory).
Proof.
  rewrite fetch_image_phases.
  apply agree_bind; [apply agree_print | intros _].
  apply agree_bind; [apply agree_print | intros _].
  apply agree_bind; [apply agree_mkdir | intros _].
  apply agree_bind; [apply agree_print | intros _].
  apply agree_try_except; [|apply agree_except_clauses].
  apply agree_bind; [apply agree_print | intros _].
  apply agree_bind; [apply agree_get | intros response].
  apply agree_bind; [apply agree_raise_for_status | intros _].
  apply agree_bind; [apply agree_validate | intros _].
  apply agree_bind; [apply agree_advise | intros _].
  apply agree_save.
Qed.

End Agreement.

(** C10. If a file exists at the resolved path, a successful call replaces
    it: whatever it held, after the call it holds the body of the response
    and nothing else.  The call makes no existence check: with the file
    absent it returns the same result and prints the same lines. *)
Theorem existing_file_is_overwritten (env : Env) (url directory : str)
    (st : State) (p : str) (old : bytes) :
  files st !! p = Some old ->
  fst (fetch_image env url directory st) = Return (true, p) ->
  (exists response,
     requests_get env (fetch_request url) = inr response
     /\ files (snd (fetch_image env url directory st))
        = <[p := concat (body response)]> (files st))
  /\ fst (fetch_image env url directory (set_files (delete p (files st)) st))
     = Return (true, p)
  /\ console (snd (fetch_image env url directory
                     (set_files (delete p (files st)) st)))
     = console (snd (fetch_image env url directory st)).
Proof.
  intros _ Hres.
  destruct (agree_fetch_image true false env url directory
              (set_files (delete p (files st)) st) st) as (Hsame & _ & Hconsole & _);
    [done|].
  rewrite Hsame, Hconsole by done. split; [|done].
  destruct (fetch_image env url directory st) as [res st'] eqn:Hrun.
  cbn [fst snd] in *. subst res.
  apply fetch_image_success in Hrun as (response & Hget & Hp & Hfiles & _).
  exists response. by rewrite Hfiles, streamed_chunks_concat.
Qed.

Lemma existing_file_is_overwritten_witness :
  let env := machine 1700000000 png_response in
  let p := latin1 "Fetched_Images/logo.png" in
  let run := fetch_image env (latin1 "https://x/logo.png") default_directory
               state_with_logo in
  files state_with_logo !! p = Some [Byte.x6f; Byte.x6c; Byte.x64]
  /\ files (snd run) !! p = Some (PNG ++ [Byte.x00; Byte.x01; Byte.x02])
  /\ (exists response,
        requests_get env (fetch_request (latin1 "https://x/logo.png")) = inr response
        /\ files (snd run) = <[p := concat (body response)]> (files state_with_logo))
  /\ fst (fetch_image env (latin1 "https://x/logo.png") default_directory
            (set_files (delete p (files state_with_logo)) state_with_logo))
     = Return (true, p)
  /\ console (snd (fetch_image env (latin1 "https://x/logo.png") default_directory
                     (set_files (delete p (files state_with_logo)) state_with_logo)))
     = console (snd run).
Proof.
  split; [vm_compute; reflexivity|]. split; [vm_compute; reflexivity|].
  apply (existing_file_is_overwritten
           (machine 1700000000 png_response) (latin1 "https://x/logo.png")
           default_directory state_with_logo (latin1 "Fetched_Images/logo.png")
           [Byte.x6f; Byte.x6c; Byte.x64]);
    vm_compute; reflexivity.
Defined.

(** Two calls that resolve to the same path: the file holds the body of the
    second response. *)
Lemma second_fetch_replaces_first (env1 env2 : Env) (url1 url2 directory : str)
    (st st1 st2 : State) (p : str) :
  fetch_image env1 url1 directory st = (Return (true, p), st1) ->
  fetch_image env2 url2 directory st1 = (Return (true, p), st2) ->
  exists response,
    requests_get env2 (fetch_request url2) = inr response
    /\ files st2 !! p = Some (concat (body response)).
Proof.
  intros _ Hsecond.
  apply fetch_image_success in Hsecond as (response & Hget & _ & Hfiles & _).
  exists response. rewrite Hfiles, streamed_chunks_concat.
  split; [done | apply lookup_insert_eq].
Qed.

(** ** The resolved file name *)

(** C3, on the failing input: for a URL whose last segment has no dot and a
    [content-disposition] header whose [filename=] is a pair of quotes,
    [generate_filename] returns the empty string; there is no fall-back to
    the timestamp name.  [fetch_image] then opens the directory itself for
    writing and reports the error of that. *)
Theorem empty_disposition_name_gives_empty_filename :
  let env := machine 1700000000 unnamed_attachment in
  let url := latin1 "https://x/img" in
  generate_filename env url unnamed_attachment = []
  /\ fst (fetch_image env url default_directory fresh_state)
     = Return (false, latin1 "[Errno 21] Is a directory: 'Fetched_Images'").
Proof. vm_compute. split; reflexivity. Qed.

(** C4 (amended). The sanitization step keeps a character exactly when
    [isalnum] holds of it (Python's test, which letters and digits outside
    ASCII pass too) or it is a dot, a hyphen or an underscore.  It goes
    character by character: every occurrence of such a character is kept,
    in its place, and every other character is dropped, none is replaced;
    so the result is a subsequence of the input.  Slash, backslash, space
    and percent sign never survive, and on input below U+0080 the result is
    within A-Z, a-z, 0-9, dot, hyphen, underscore. *)
Theorem sanitize_keeps_alphanumerics_and_three_marks (env : Env) (filename : str) :
  (forall c, In c (sanitize env filename)
             <-> In c filename /\ (isalnum env c = true \/ In c (latin1 ".-_")))
  /\ (forall before c after, filename = before ++ c :: after ->
        sanitize env filename
        = sanitize env before
          ++ (if isalnum env c || char_in c ".-_" then [c] else [])
          ++ sanitize env after)
  /\ sublist (sanitize env filename) filename
  /\ (forall c, c = chr "/" \/ c = chr "\" \/ c = chr " " \/ c = chr "%" ->
                ~ In c (sanitize env filename))
  /\ (Forall (fun c => (c < 128)%N) filename ->
      Forall (fun c => spec_safe_char c = true) (sanitize env filename)).
Proof.
  split; [apply sanitize_In|]. split.
  { intros before c after ->. unfold sanitize.
    rewrite List.filter_app. cbn [List.filter]. by destruct (_ || _). }
  split; [apply sanitize_sublist|]. split.
  - intros c Hc Hin. unfold sanitize in Hin. apply filter_In in Hin as [_ Hkept].
    by rewrite (unsafe_characters env c Hc) in Hkept.
  - intros Hascii. apply List.Forall_forall. intros c Hin.
    unfold sanitize in Hin. apply filter_In in Hin as [Hin Hkept].
    rewrite List.Forall_forall in Hascii.
    rewrite (isalnum_ascii env c (Hascii c Hin)) in Hkept.
    unfold spec_safe_char. by rewrite (orb_comm (isascii_alpha c)).
Qed.

(** C4, as stated, fails: the letter e with an acute accent (U+00E9) is not
    in A-Z, a-z, 0-9, dot, hyphen, underscore, and it survives the
    sanitization, alone and in the name resolved for a URL that holds it
    percent-encoded. *)
Lemma e_acute_survives_sanitization :
  let env := machine 1700000000 jpeg_response in
  spec_safe_char 233 = false
  /\ sanitize env [233%N] = [233%N]
  /\ generate_filename env (latin1 "https://x/caf%C3%A9.png") jpeg_response
     = latin1 "caf" ++ [233%N] ++ latin1 ".png".
Proof. vm_compute. repeat split; reflexivity. Qed.




(** ** The advisory *)

(** A header other than [content-length] reads the same. *)
Lemma headers_get_with_content_length (response : Response) (v name default : string) :
  name <> "content-length" ->
  headers_get (with_content_length v response) name default
  = headers_get response name default.
Proof.
  intros Hname. unfold headers_get, headers_lookup, with_content_length.
  cbn [headers]. by rewrite lookup_insert_ne.
Qed.

Lemma validate_with_content_length (response : Response) (v : string) :
  validate_image_response (with_content_length v response)
  = validate_image_response response.
Proof.
  unfold validate_image_response.
  by rewrite headers_get_with_content_length.
Qed.

Lemma generate_filename_with_content_length (env : Env) (url : str)
    (response : Response) (v : string) :
  generate_filename env url (with_content_length v response)
  = generate_filename env url response.
Proof.
  unfold generate_filename, get_content_type_extension.
  by rewrite !headers_get_with_content_length.
Qed.

(** With a readable header the advisory returns, and at most prints. *)
Lemma agree_advise_readable (fs : bool) (response1 response2 : Response) :
  content_length_readable response1 = true ->
  content_length_readable response2 = true ->
  agree fs true (advise response1) (advise response2).
Proof.
  unfold content_length_readable, advise.
  intros Hreadable1 Hreadable2 st1 st2 (Hfiles & _ & Hdirs & Hcontent).
  assert (forall (response : Response) (st : State),
            content_length_readable response = true ->
            exists c, advise response st = (Return tt, set_console c st)) as Hadvise.
  { intros response st. unfold content_length_readable, advise.
    destruct (headers_lookup response "content-length") as [[|a v]|].
    - intros _. exists (console st). by destruct st.
    - destruct (py_int (String a v)) as [n|]; [intros _|done].
      destruct (n >? _)%Z; [by eexists|]. exists (console st). by destruct st.
    - intros _. exists (console st). by destruct st. }
  destruct (Hadvise response1 st1) as [c1 Hrun1]; [done|].
  destruct (Hadvise response2 st2) as [c2 Hrun2]; [done|].
  unfold advise in Hrun1, Hrun2. rewrite Hrun1, Hrun2. by repeat split.
Qed.

(** X2. For headers that [int] can read, the [content-length] check is
    informational indeed: with the header set to any readable value, the
    call returns the same result and leaves the same files; only the
    console can differ, by the advisory line. *)
Lemma readable_content_length_changes_nothing (env : Env) (url directory : str)
    (st : State) (response : Response) (v : string) :
  content_length_readable response = true ->
  content_length_readable (with_content_length v response) = true ->
  fst (fetch_image (answering (with_content_length v response) env)
         url directory st)
  = fst (fetch_image (answering response env) url directory st)
  /\ files (snd (fetch_image (answering (with_content_length v response) env)
                   url directory st))
     = files (snd (fetch_image (answering response env) url directory st)).
Proof.
  intros Hreadable Hreadable'.
  destruct (mkdir_error env (pathlib.to_str (pathlib.Path directory))) as [e|]
    eqn:Hmkdir.
  { by rewrite !(mkdir_error_escapes _ _ _ _ e). }
  destruct (decide (400 <= status_code response < 600)%Z) as [Hstatus|Hstatus].
  { rewrite (fetch_image_error_status (answering response env)
               url directory st response Hmkdir eq_refl Hstatus).
    by rewrite (fetch_image_error_status
                  (answering (with_content_length v response) env)
                  url directory st (with_content_length v response)
                  Hmkdir eq_refl Hstatus). }
  rewrite (fetch_image_response (answering response env)
             url directory st response Hmkdir eq_refl).
  rewrite (fetch_image_response (answering (with_content_length v response) env)
             url directory st (with_content_length v response) Hmkdir eq_refl).
  rewrite generate_filename_with_content_length.
  match goal with
  | |- fst (try_except ?m1 _ ?s) = fst (try_except ?m2 _ _) /\ _ =>
      destruct (agree_try_except false true m1 m2 except_clauses) with s s
        as (Hres & Hfiles & _)
  end; [| apply agree_except_clauses | done | auto].
  unfold raise_for_status.
  rewrite (http_error_none response), (http_error_none (with_content_length v response))
    by done.
  apply agree_bind; [apply agree_ret | intros _].
  rewrite validate_with_content_length.
  apply agree_bind; [apply agree_validate | intros _].
  apply agree_bind; [by apply agree_advise_readable | intros _].
  match goal with
  | |- agree _ _ (save _ _ ?filename ?filepath) _ =>
      change (agree false true
                (save (answering response env) response filename filepath)
                (save (answering response env) response filename filepath))
  end.
  apply agree_save.
Qed.

(** C9, on the failing input: the same image answered three times, without
    a [content-length] header, with the header [11] and with the header
    [abc].  The first two calls succeed; the third returns a failure, the
    [ValueError] of [int] having reached the clause of the content
    validation, and writes no file. *)
Theorem malformed_content_length_fails_the_fetch :
  let url := latin1 "https://x/logo.png" in
  let fetch response :=
    fetch_image (machine 1700000000 response) url default_directory fresh_state in
  fst (fetch png_response) = Return (true, latin1 "Fetched_Images/logo.png")
  /\ fst (fetch (with_content_length "11" png_response))
     = Return (true, latin1 "Fetched_Images/logo.png")
  /\ fst (fetch (with_content_length "abc" png_response))
     = Return (false, latin1 "invalid literal for int() with base 10: 'abc'")
  /\ In (MsgValidationFailed
           (latin1 "invalid literal for int() with base 10: 'abc'"))
        (console (snd (fetch (with_content_length "abc" png_response))))
  /\ files (snd (fetch (with_content_length "abc" png_response))) = ∅.
Proof. vm_compute. repeat split; try reflexivity. tauto. Qed.

(** * Further properties *)

(** ** What a call can change *)

Section Confinement.

Variable known : gset str.
Variable allowed : str -> Prop.
Variables url directory : str.

Let P : Msg -> Prop := line_of_call url directory.
Let confined {A} := @confined known allowed P A.

Lemma confined_ret {A} (a : A) : confined (ret a).
Proof.
  intros st _. cbn. repeat split; try done. exists []. by rewrite app_nil_r.
Qed.

Lemma confined_raise {A} (e : exn) : confined (@raise A e).
Proof.
  intros st _. cbn. repeat split; try done. exists []. by rewrite app_nil_r.
Qed.

Lemma confined_bind {A B} (m : M A) (k : A -> M B) :
  confined m ->
  (forall a st st', known ⊆ dirs st -> m st = (Return a, st') -> confined (k a)) ->
  confined (bind m k).
Proof.
  intros Hm Hk st Hknown. unfold bind.
  destruct (Hm st Hknown) as (Hdirs & Hfiles & out & Hconsole & Hout).
  destruct (m st) as [[a|e] st1] eqn:Hrun; cbn [snd] in *.
  - destruct (Hk a st st1 Hknown Hrun st1)
      as (Hdirs' & Hfiles' & out' & Hconsole' & Hout'); [by rewrite Hdirs|].
    split; [congruence|]. split.
    + intros q Hq. by rewrite Hfiles', Hfiles.
    + exists (out ++ out'). rewrite Hconsole', Hconsole, app_assoc.
      split; [done | by apply Forall_app].
  - split; [done|]. split; [done|]. by exists out.
Qed.

Lemma confined_try_except {A} (m : M A) (handler : exn -> M A) :
  confined m -> (forall e, confined (handler e)) ->
  confined (try_except m handler).
Proof.
  intros Hm Hh st Hknown. unfold try_except.
  destruct (Hm st Hknown) as (Hdirs & Hfiles & out & Hconsole & Hout).
  destruct (m st) as [[a|e] st1] eqn:Hrun; cbn [snd] in *.
  - split; [done|]. split; [done|]. by exists out.
  - destruct (Hh e st1) as (Hdirs' & Hfiles' & out' & Hconsole' & Hout');
      [by rewrite Hdirs|].
    split; [congruence|]. split.
    + intros q Hq. by rewrite Hfiles', Hfiles.
    + exists (out ++ out'). rewrite Hconsole', Hconsole, app_assoc.
      split; [done | by apply Forall_app].
Qed.

Lemma confined_print (m : Msg) : P m -> confined (print m).
Proof.
  intros Hm st _. cbn. split; [done|]. split; [done|].
  exists [m]. split; [done | by constructor].
Qed.

(** [open] touches the file only when it succeeds, which it does for no
    directory. *)
Lemma confined_open_wb (env : Env) (p : pathlib.PurePath) :
  (pathlib.to_str p ∉ known -> open_error env (pathlib.to_str p) = None ->
   allowed (pathlib.to_str p)) ->
  confined (open_wb env p).
Proof.
  intros Hp st Hknown. unfold open_wb.
  destruct (bool_decide _) eqn:Hdir; [by apply (confined_raise (A := unit))|].
  destruct (open_error env _) eqn:Hopen; [by apply (confined_raise (A := unit))|].
  apply bool_decide_eq_false in Hdir.
  run. split; [done|]. split.
  - intros q Hq. apply lookup_insert_ne. intros Heq. apply Hq. rewrite <- Heq.
    apply Hp; [|done]. intros Hin. apply Hdir. by apply Hknown.
  - exists []. by rewrite app_nil_r.
Qed.

Lemma open_wb_returned (env : Env) (p : pathlib.PurePath) (st st' : State)
    (a : unit) :
  known ⊆ dirs st ->
  open_wb env p st = (Return a, st') ->
  (pathlib.to_str p ∉ known) /\ open_error env (pathlib.to_str p) = None.
Proof.
  intros Hknown. unfold open_wb.
  destruct (bool_decide _) eqn:Hdir; [done|].
  destruct (open_error env _); [done|]. intros _.
  apply bool_decide_eq_false in Hdir. split; [|done].
  intros Hin. apply Hdir. by apply Hknown.
Qed.

Lemma confined_write (p : pathlib.PurePath) (chunk : bytes) :
  allowed (pathlib.to_str p) -> confined (write p chunk).
Proof.
  intros Hp st _. unfold write. run. split; [done|]. split.
  - intros q Hq. apply lookup_alter_ne. intros Heq. apply Hq. by rewrite <- Heq.
  - exists []. by rewrite app_nil_r.
Qed.

Lemma confined_write_chunks (f : pathlib.PurePath) (chunks : list bytes)
    (total_size : Z) :
  allowed (pathlib.to_str f) ->
  confined (write_chunks f chunks total_size).
Proof.
  intros Hf. revert total_size.
  induction chunks as [|[|b chunk] chunks IH]; intros total_size.
  - apply confined_ret.
  - apply IH.
  - cbn [write_chunks].
    apply confined_bind; [by apply confined_write | intros; apply IH].
Qed.

Lemma confined_get (env : Env) (req : Request) : confined (get env req).
Proof.
  intros st _. unfold get. destruct (requests_get env req);
    cbn; (split; [done|]; split; [done|]; exists []; by rewrite app_nil_r).
Qed.

Lemma confined_raise_for_status (response : Response) :
  confined (raise_for_status response).
Proof.
  unfold raise_for_status.
  destruct (http_error response); [apply confined_raise | apply confined_ret].
Qed.

Lemma confined_content (response : Response) : confined (content response).
Proof.
  intros st Hknown. unfold content.
  destruct (resp_content st); [by apply (confined_ret (A := bytes))|].
  destruct (body_exn response); [by apply (confined_raise (A := bytes))|].
  cbn. split; [done|]. split; [done|]. exists []. by rewrite app_nil_r.
Qed.

Lemma confined_iter_content (response : Response) (chunk_size : N) :
  confined (iter_content response chunk_size).
Proof.
  intros st _. cbn. split; [done|]. split; [done|]. exists []. by rewrite app_nil_r.
Qed.

Lemma confined_validate (response : Response) :
  confined (validate_image_response response).
Proof.
  unfold validate_image_response.
  apply confined_bind; [|intros; apply confined_ret].
  destruct (negb _); [|apply confined_ret].
  apply confined_bind; [apply confined_content|]. intros c _ _ _ _.
  destruct (negb _); [apply confined_raise | apply confined_ret].
Qed.

Lemma confined_advise (response : Response) : confined (advise response).
Proof.
  unfold advise. destruct (headers_lookup _ _) as [[|c v]|]; try apply confined_ret.
  destruct (py_int _) as [n|]; [|apply confined_raise].
  destruct (n >? _)%Z; [by apply confined_print | apply confined_ret].
Qed.

Lemma confined_truediv_mb (total_size : Z) : confined (truediv_mb total_size).
Proof.
  unfold truediv_mb.
  destruct (int_truediv_pow2 _ _); [apply confined_ret | apply confined_raise].
Qed.

Lemma confined_save (env : Env) (response : Response) (filename : str)
    (filepath : pathlib.PurePath) :
  (pathlib.to_str filepath ∉ known ->
   open_error env (pathlib.to_str filepath) = None ->
   allowed (pathlib.to_str filepath)) ->
  confined (save env response filename filepath).
Proof.
  intros Hpath. unfold save.
  apply confined_bind; [by apply confined_print | intros _ _ _ _ _].
  apply confined_bind; [by apply confined_open_wb|].
  intros a st st' Hknown [Hnodir Hopen]%open_wb_returned; [|done].
  apply confined_bind; [apply confined_iter_content | intros stream _ _ _ _].
  apply confined_bind; [apply confined_write_chunks; by apply Hpath|].
  intros total_size _ _ _ _.
  apply confined_bind.
  { destruct (snd stream); [apply confined_raise | apply confined_ret]. }
  intros _ _ _ _ _.
  apply confined_bind; [apply confined_truediv_mb | intros size_mb _ _ _ _].
  repeat (apply confined_bind; [by apply confined_print | intros _ _ _ _ _]).
  apply confined_ret.
Qed.

Lemma confined_except_clauses (e : exn) : confined (except_clauses e).
Proof.
  unfold except_clauses.
  repeat match goal with
         | |- context [isinstance e ?c] => destruct (isinstance e c)
         end;
    try apply confined_raise;
    repeat (apply confined_bind; [by apply confined_print | intros _ _ _ _ _]);
    apply confined_ret.
Qed.

End Confinement.

(** The part of [fetch_image] after [mkdir] is confined to the path resolved
    for the response that came, if it is not the directory and [open] does
    not fail on it, and to lines about its URL and directory. *)
Lemma after_mkdir_confined (env : Env) (url directory : str) :
  confined {[pathlib.to_str (pathlib.Path directory)]}
    (fun q => exists response,
                requests_get env (fetch_request url) = inr response
                /\ q = target_path env url directory response
                /\ q <> pathlib.to_str (pathlib.Path directory)
                /\ open_error env q = None)
    (line_of_call url directory)
    (print (MsgDirectory directory) ;;
     try_except
       (print MsgMakingConnection ;;
        response <- get env (fetch_request url) ;;
        raise_for_status response ;;
        validate_image_response response ;;
        advise response ;;
        save env response (generate_filename env url response)
          (pathlib.truediv (pathlib.Path directory)
             (generate_filename env url response)))
       except_clauses).
Proof.
  apply confined_bind; [by apply confined_print | intros _ _ _ _ _].
  apply confined_try_except; [|apply confined_except_clauses].
  apply confined_bind; [by apply confined_print | intros _ _ _ _ _].
  apply confined_bind; [apply confined_get|]. intros response st st' _ Hget.
  assert (requests_get env (fetch_request url) = inr response) as Hnet.
  { unfold get in Hget. destruct (requests_get env _); [done|].
    by injection Hget as -> _. }
  apply confined_bind; [apply confined_raise_for_status | intros _ _ _ _ _].
  apply confined_bind; [apply confined_validate | intros _ _ _ _ _].
  apply confined_bind; [apply confined_advise | intros _ _ _ _ _].
  apply confined_save. intros Hnodir Hopen. exists response.
  split; [done|]. split; [done|]. split; [|done].
  intros Heq. apply Hnodir. rewrite Heq. by apply elem_of_singleton.
Qed.

Lemma fetch_image_after_mkdir (env : Env) (url directory : str) (st : State) :
  mkdir_error env (pathlib.to_str (pathlib.Path directory)) = None ->
  fetch_image env url directory st =
  (print (MsgDirectory directory) ;;
   try_except
     (print MsgMakingConnection ;;
      response <- get env (fetch_request url) ;;
      raise_for_status response ;;
      validate_image_response response ;;
      advise response ;;
      save env response (generate_filename env url response)
        (pathlib.truediv (pathlib.Path directory)
           (generate_filename env url response)))
     except_clauses)
    (set_dirs ({[pathlib.to_str (pathlib.Path directory)]} ∪ dirs st)
       (set_console (console st ++ [MsgConnecting url; MsgApproaching]) st)).
Proof.
  intros Hmkdir. rewrite fetch_image_phases.
  unfold bind at 1. unfold print at 1. unfold bind at 1. unfold print at 1.
  unfold bind at 1. unfold mkdir at 1.
  cbn [console set_console fst snd dirs files]. rewrite Hmkdir.
  rewrite <- app_assoc. reflexivity.
Qed.

(** What one call of [fetch_image] does to the state, whatever its outcome:
    the directory is there when [mkdir] did not fail, and no other is made;
    no file changes but the one resolved for the response that came, and
    that one only when it is not the directory and [open] does not fail on
    it; the console grows by the line naming the URL and by lines about this
    URL and this directory. *)
Lemma fetch_image_effect_open (env : Env) (url directory : str) (st : State) :
  dirs (snd (fetch_image env url directory st))
  = match mkdir_error env (pathlib.to_str (pathlib.Path directory)) with
    | None => {[pathlib.to_str (pathlib.Path directory)]} ∪ dirs st
    | Some _ => dirs st
    end
  /\ (forall q,
        ~ (exists response,
             requests_get env (fetch_request url) = inr response
             /\ q = target_path env url directory response
             /\ q <> pathlib.to_str (pathlib.Path directory)
             /\ open_error env q = None) ->
        files (snd (fetch_image env url directory st)) !! q = files st !! q)
  /\ exists out,
       console (snd (fetch_image env url directory st))
       = console st ++ MsgConnecting url :: out
       /\ Forall (line_of_call url directory) out.
Proof.
  destruct (mkdir_error env (pathlib.to_str (pathlib.Path directory))) as [e|]
    eqn:Hmkdir.
  - rewrite (mkdir_error_escapes _ _ _ _ e Hmkdir). cbn [snd dirs files console
      set_console]. split; [done|]. split; [done|].
    exists [MsgApproaching]. split; [done|]. by repeat constructor.
  - rewrite (fetch_image_after_mkdir _ _ _ _ Hmkdir).
    match goal with
    | |- context [snd (?m ?s)] =>
        destruct (after_mkdir_confined env url directory s)
          as (Hdirs & Hfiles & out & Hconsole & Hout)
    end.
    { cbn [dirs set_dirs set_console]. apply union_subseteq_l. }
    split; [by rewrite Hdirs|]. split.
    + intros q Hq. by rewrite Hfiles.
    + exists (MsgApproaching :: out). rewrite Hconsole.
      cbn [console set_console set_dirs].
      rewrite <- !app_assoc. split; [done|]. by constructor.
Qed.

Lemma fetch_image_effect (env : Env) (url directory : str) (st : State) :
  dirs (snd (fetch_image env url directory st))
  = match mkdir_error env (pathlib.to_str (pathlib.Path directory)) with
    | None => {[pathlib.to_str (pathlib.Path directory)]} ∪ dirs st
    | Some _ => dirs st
    end
  /\ (forall q,
        (forall response, requests_get env (fetch_request url) = inr response ->
                          q <> target_path env url directory response) ->
        files (snd (fetch_image env url directory st)) !! q = files st !! q)
  /\ exists out,
       console (snd (fetch_image env url directory st))
       = console st ++ MsgConnecting url :: out
       /\ Forall (line_of_call url directory) out.
Proof.
  destruct (fetch_image_effect_open env url directory st)
    as (Hdirs & Hfiles & Hconsole).
  split; [done|]. split; [|done].
  intros q Hq. apply Hfiles. intros (response & Hnet & -> & _).
  by apply (Hq response).
Qed.

(** X3. A path outside the resolved one keeps its file, whatever the outcome of
    the call: success, returned failure, or an error that leaves the call. *)
Theorem only_the_resolved_file_can_change (env : Env) (url directory : str)
    (st : State) (q : str) :
  (forall response, requests_get env (fetch_request url) = inr response ->
                    q <> target_path env url directory response) ->
  files (snd (fetch_image env url directory st)) !! q = files st !! q.
Proof. intros Hq. by apply fetch_image_effect. Qed.

Lemma only_the_resolved_file_can_change_witness :
  let env := machine 1700000000 jpeg_response in
  let q := latin1 "Fetched_Images/logo.png" in
  let run := fetch_image env (latin1 "https://x/photo.jpg") default_directory
               state_with_logo in
  fst run = Return (true, latin1 "Fetched_Images/photo.jpg")
  /\ files (snd run) !! q = files state_with_logo !! q.
Proof.
  split; [vm_compute; reflexivity|].
  apply (only_the_resolved_file_can_change
           (machine 1700000000 jpeg_response) (latin1 "https://x/photo.jpg")
           default_directory state_with_logo (latin1 "Fetched_Images/logo.png")).
  intros response [= <-]. vm_compute. discriminate.
Defined.

(** X4. When [mkdir] does not fail, the directory exists after the call, whatever
    the outcome, and the call makes no other directory. *)
Theorem directory_exists_after_any_outcome (env : Env) (url directory : str)
    (st : State) :
  mkdir_error env (pathlib.to_str (pathlib.Path directory)) = None ->
  dirs (snd (fetch_image env url directory st))
  = {[pathlib.to_str (pathlib.Path directory)]} ∪ dirs st.
Proof.
  intros Hmkdir. destruct (fetch_image_effect env url directory st) as [Hdirs _].
  by rewrite Hmkdir in Hdirs.
Qed.

Lemma directory_exists_after_any_outcome_witness :
  let env := offline (mk_exn ReadTimeout (latin1 "Read timed out.")) in
  let run := fetch_image env (latin1 "https://x/logo.png") default_directory
               fresh_state in
  fst run = Return (false, latin1 "Timeout error")
  /\ dirs (snd run) = {[latin1 "Fetched_Images"]} ∪ dirs fresh_state.
Proof.
  split; [vm_compute; reflexivity|].
  apply (directory_exists_after_any_outcome
           (offline (mk_exn ReadTimeout (latin1 "Read timed out.")))
           (latin1 "https://x/logo.png") default_directory fresh_state).
  reflexivity.
Defined.

(** ** Failures of the network and of the file system *)

(** The run when the request raises: the clauses decide. *)
Lemma fetch_image_no_response (env : Env) (url directory : str) (st : State)
    (e : exn) :
  mkdir_error env (pathlib.to_str (pathlib.Path directory)) = None ->
  requests_get env (fetch_request url) = inl e ->
  fetch_image env url directory st =
  except_clauses e
    (set_console
       (console st ++ [MsgConnecting url; MsgApproaching;
                       MsgDirectory directory; MsgMakingConnection])
       (set_dirs ({[pathlib.to_str (pathlib.Path directory)]} ∪ dirs st) st)).
Proof.
  intros Hmkdir Hget. rewrite fetch_image_phases.
  unfold try_except, bind, print, mkdir, get. rewrite Hmkdir. run.
  rewrite Hget. rewrite <- !app_assoc. reflexivity.
Qed.

(** X5. An error of the request that is a [Timeout] is reported as a time-out,
    also when it is a [ConnectionError] too (a [ConnectTimeout]): the
    [Timeout] clause comes first.  A [ConnectionError] that is no [Timeout]
    is reported as a connection error.  Either way no file changes. *)
Theorem network_failure_is_reported_by_kind (env : Env) (url directory : str)
    (st : State) (e : exn) :
  mkdir_error env (pathlib.to_str (pathlib.Path directory)) = None ->
  requests_get env (fetch_request url) = inl e ->
  isinstance e Timeout = true \/ isinstance e ConnectionError = true ->
  fst (fetch_image env url directory st)
  = Return (false, latin1 (if isinstance e Timeout then "Timeout error"
                           else "Connection error"))
  /\ files (snd (fetch_image env url directory st)) = files st.
Proof.
  intros Hmkdir Hget Hkind.
  rewrite (fetch_image_no_response _ _ _ _ _ Hmkdir Hget).
  unfold except_clauses.
  destruct (isinstance e Timeout); [done|].
  destruct Hkind as [?|Hconnection]; [done|]. by rewrite Hconnection.
Qed.

Lemma network_failure_is_reported_by_kind_witness :
  let e := mk_exn ConnectTimeout (latin1 "Connection to x timed out.") in
  let run := fetch_image (offline e) (latin1 "https://x/logo.png")
               default_directory fresh_state in
  isinstance e Timeout = true
  /\ isinstance e ConnectionError = true
  /\ fst run = Return (false, latin1 "Timeout error")
  /\ files (snd run) = files fresh_state.
Proof.
  split; [reflexivity|]. split; [reflexivity|].
  apply (network_failure_is_reported_by_kind
           (offline (mk_exn ConnectTimeout (latin1 "Connection to x timed out.")))
           (latin1 "https://x/logo.png") default_directory fresh_state
           (mk_exn ConnectTimeout (latin1 "Connection to x timed out.")));
    [reflexivity | reflexivity | left; reflexivity].
Defined.

(** X6. Whatever the status between 400 and 599, the message returned is the
    same, "HTTP Unknown error", and the line printed shows the same word:
    the status code of the response is not reported. *)
Theorem error_status_is_never_shown (env : Env) (url directory : str)
    (st : State) (response : Response) :
  mkdir_error env (pathlib.to_str (pathlib.Path directory)) = None ->
  requests_get env (fetch_request url) = inr response ->
  (400 <= status_code response < 600)%Z ->
  fst (fetch_image env url directory st)
  = Return (false, latin1 "HTTP Unknown error")
  /\ In (MsgStatus (latin1 "Unknown"))
        (console (snd (fetch_image env url directory st)))
  /\ forall code, code <> latin1 "Unknown" ->
       In (MsgStatus code) (console (snd (fetch_image env url directory st))) ->
       In (MsgStatus code) (console st).
Proof.
  intros Hmkdir Hget Hstatus.
  rewrite (fetch_image_error_status _ _ _ _ _ Hmkdir Hget Hstatus).
  cbn [fst snd console set_console]. split; [done|]. split.
  - apply in_or_app. right. simpl. tauto.
  - intros code Hcode [Hin|Hin]%in_app_or; [done|].
    simpl in Hin. repeat destruct Hin as [Hin|Hin]; try done.
    by injection Hin as <-.
Qed.

Lemma error_status_is_never_shown_witness :
  let response := with_status 503 "Service Unavailable" png_response in
  let run := fetch_image (machine 1700000000 response) (latin1 "https://x/logo.png")
               default_directory fresh_state in
  status_code response = 503%Z
  /\ fst run = Return (false, latin1 "HTTP Unknown error")
  /\ In (MsgStatus (latin1 "Unknown")) (console (snd run))
  /\ forall code, code <> latin1 "Unknown" ->
       In (MsgStatus code) (console (snd run)) ->
       In (MsgStatus code) (console fresh_state).
Proof.
  split; [reflexivity|].
  apply (error_status_is_never_shown
           (machine 1700000000 (with_status 503 "Service Unavailable" png_response))
           (latin1 "https://x/logo.png") default_directory fresh_state
           (with_status 503 "Service Unavailable" png_response));
    [reflexivity | reflexivity | change (400 <= 503 < 600)%Z; lia].
Defined.

(** With a readable header the advisory returns and prints its line, if
    any. *)
Lemma advise_readable (response : Response) (st : State) :
  content_length_readable response = true ->
  advise response st = (Return tt, set_console (console st ++ advisory response) st).
Proof.
  unfold content_length_readable, advise, advisory.
  destruct (headers_lookup response "content-length") as [[|a v]|].
  - intros _. unfold ret. rewrite app_nil_r. by destruct st.
  - destruct (py_int (String a v)) as [n|]; [intros _|done].
    destruct (n >? _)%Z; [done|]. unfold ret. rewrite app_nil_r. by destruct st.
  - intros _. unfold ret. rewrite app_nil_r. by destruct st.
Qed.

(** The run up to the save, for a response announced as an image. *)
Lemma fetch_image_declared (env : Env) (url directory : str) (st : State)
    (response : Response) :
  mkdir_error env (pathlib.to_str (pathlib.Path directory)) = None ->
  requests_get env (fetch_request url) = inr response ->
  ~ (400 <= status_code response < 600)%Z ->
  startswith "image/" (lower (headers_get response "content-type" "")) = true ->
  content_length_readable response = true ->
  fetch_image env url directory st =
  try_except
    (save env response (generate_filename env url response)
       (pathlib.truediv (pathlib.Path directory)
          (generate_filename env url response)))
    except_clauses
    (set_console
       ((console st ++ [MsgConnecting url; MsgApproaching;
                        MsgDirectory directory; MsgMakingConnection])
        ++ advisory response)
       (set_resp_content None
          (set_console
             (console st ++ [MsgConnecting url; MsgApproaching;
                             MsgDirectory directory; MsgMakingConnection])
             (set_dirs ({[pathlib.to_str (pathlib.Path directory)]} ∪ dirs st)
                st)))).
Proof.
  intros Hmkdir Hget Hstatus Htype Hreadable.
  rewrite (fetch_image_response _ _ _ _ _ Hmkdir Hget).
  unfold try_except, bind at 1, raise_for_status.
  rewrite (http_error_none _ Hstatus). unfold ret at 1.
  unfold bind at 1. rewrite (validate_declared _ _ Htype).
  unfold bind at 1. rewrite (advise_readable _ _ Hreadable).
  reflexivity.
Qed.

(** Every [Exception] is caught: the clauses return a failure and print. *)
Lemma except_clauses_catch (e : exn) (st : State) :
  isinstance e Exception = true ->
  exists message out,
    except_clauses e st
    = (Return (false, message), set_console (console st ++ out) st).
Proof.
  intros Hexception. unfold except_clauses. rewrite Hexception.
  repeat match goal with
         | |- context [isinstance e ?c] => destruct (isinstance e c)
         end; run; rewrite <- app_assoc; by eexists _, _.
Qed.

(** The save when [open] fails, and when it does not. *)
Lemma save_open_fails (env : Env) (response : Response) (filename : str)
    (filepath : pathlib.PurePath) (st : State) (e : exn) :
  pathlib.to_str filepath ∉ dirs st ->
  open_error env (pathlib.to_str filepath) = Some e ->
  save env response filename filepath st
  = (Raise e, set_console (console st ++ [MsgSaving filename]) st).
Proof.
  intros Hnodir Hopen. unfold save, bind at 1, print at 1. unfold bind at 1.
  unfold open_wb at 1. cbn [dirs set_console fst snd].
  rewrite bool_decide_eq_false_2 by done. by rewrite Hopen.
Qed.

Lemma save_streamed (env : Env) (response : Response) (filename : str)
    (filepath : pathlib.PurePath) (st : State) :
  pathlib.to_str filepath ∉ dirs st ->
  open_error env (pathlib.to_str filepath) = None ->
  resp_content st = None ->
  save env response filename filepath st
  = match body_exn response with
    | Some e =>
        (Raise e,
         set_files (<[pathlib.to_str filepath := concat (body response)]> (files st))
           (set_console (console st ++ [MsgSaving filename]) st))
    | None =>
        match int_truediv_pow2 (total_length (body response)) 20 with
        | Some size_mb =>
            (Return (true, pathlib.to_str filepath),
             set_files
               (<[pathlib.to_str filepath := concat (body response)]> (files st))
               (set_console
                  (console st
                   ++ [MsgSaving filename; MsgFetched filename;
                       MsgFileSize (format_2f size_mb);
                       MsgSavedTo (pathlib.to_str filepath); MsgStrengthened])
                  st))
        | None =>
            (Raise (mk_exn OverflowError
                      (latin1 "integer division result too large for a float")),
             set_files
               (<[pathlib.to_str filepath := concat (body response)]> (files st))
               (set_console (console st ++ [MsgSaving filename]) st))
        end
    end.
Proof.
  intros Hnodir Hopen Hfresh. unfold save, bind at 1, print at 1. unfold bind at 1.
  unfold open_wb at 1. cbn [dirs set_console fst snd].
  rewrite bool_decide_eq_false_2 by done. rewrite Hopen.
  unfold bind at 1. unfold iter_content at 1.
  cbn [resp_content set_files set_console fst snd]. rewrite Hfresh.
  unfold bind at 1.
  rewrite (write_chunks_run _ _ _ _ [])
    by (cbn [files set_files]; apply lookup_insert_eq).
  cbn [app files set_files set_console console dirs resp_content].
  rewrite insert_insert_eq.
  destruct (body_exn response); run; [done|].
  unfold truediv_mb. rewrite Z.add_0_l.
  destruct (int_truediv_pow2 (total_length (body response)) 20); run; [|done].
  by rewrite <- !app_assoc.
Qed.

(** X8. A [PermissionError] of [open], unlike that of [mkdir], is caught: the
    call returns the failure "Permission denied" and no file changes. *)
Theorem open_permission_error_is_reported (env : Env) (url directory : str)
    (st : State) (response : Response) (e : exn) :
  mkdir_error env (pathlib.to_str (pathlib.Path directory)) = None ->
  requests_get env (fetch_request url) = inr response ->
  ~ (400 <= status_code response < 600)%Z ->
  startswith "image/" (lower (headers_get response "content-type" "")) = true ->
  content_length_readable response = true ->
  target_path env url directory response
    ∉ ({[pathlib.to_str (pathlib.Path directory)]} ∪ dirs st : gset str) ->
  open_error env (target_path env url directory response) = Some e ->
  exn_class e = PermissionError ->
  fst (fetch_image env url directory st) = Return (false, latin1 "Permission denied")
  /\ files (snd (fetch_image env url directory st)) = files st.
Proof.
  intros Hmkdir Hget Hstatus Htype Hreadable Hnodir Hopen Hclass.
  rewrite (fetch_image_declared _ _ _ _ _ Hmkdir Hget Hstatus Htype Hreadable).
  unfold try_except. rewrite (save_open_fails _ _ _ _ _ e) by done.
  unfold except_clauses, isinstance. rewrite Hclass.
  change (issubclass PermissionError Timeout) with false.
  change (issubclass PermissionError ConnectionError) with false.
  change (issubclass PermissionError HTTPError) with false.
  change (issubclass PermissionError ValueError) with false.
  change (issubclass PermissionError PermissionError) with true.
  cbn iota. done.
Qed.

Lemma open_permission_error_is_reported_witness :
  let e := mk_exn PermissionError
             (latin1 "[Errno 13] Permission denied: 'Fetched_Images/logo.png'") in
  let env := unwritable e png_response in
  let run := fetch_image env (latin1 "https://x/logo.png") default_directory
               fresh_state in
  open_error env (target_path env (latin1 "https://x/logo.png") default_directory
                    png_response) = Some e
  /\ fst run = Return (false, latin1 "Permission denied")
  /\ files (snd run) = files fresh_state.
Proof.
  split; [reflexivity|].
  apply (open_permission_error_is_reported
           (unwritable
              (mk_exn PermissionError
                 (latin1 "[Errno 13] Permission denied: 'Fetched_Images/logo.png'"))
              png_response)
           (latin1 "https://x/logo.png") default_directory fresh_state png_response
           (mk_exn PermissionError
              (latin1 "[Errno 13] Permission denied: 'Fetched_Images/logo.png'")));
    try reflexivity.
  - change (~ (400 <= 200 < 600)%Z). lia.
  - vm_compute. discriminate.
Defined.

(** X9. A connection that breaks while an announced image is streamed leaves a
    partial file: the call returns a failure, and the file holds the chunks
    that arrived before the error; nothing removes it. *)
Theorem broken_stream_leaves_partial_file (env : Env) (url directory : str)
    (st : State) (response : Response) (c : exc_class) (msg : str) :
  mkdir_error env (pathlib.to_str (pathlib.Path directory)) = None ->
  requests_get env (fetch_request url) = inr response ->
  ~ (400 <= status_code response < 600)%Z ->
  startswith "image/" (lower (headers_get response "content-type" "")) = true ->
  content_length_readable response = true ->
  target_path env url directory response
    ∉ ({[pathlib.to_str (pathlib.Path directory)]} ∪ dirs st : gset str) ->
  open_error env (target_path env url directory response) = None ->
  body_error response = Some (c, msg) ->
  issubclass c Exception = true ->
  (exists message,
     fst (fetch_image env url directory st) = Return (false, message))
  /\ files (snd (fetch_image env url directory st))
     = <[target_path env url directory response := concat (body response)]>
         (files st).
Proof.
  intros Hmkdir Hget Hstatus Htype Hreadable Hnodir Hopen Hbody Hexception.
  rewrite (fetch_image_declared _ _ _ _ _ Hmkdir Hget Hstatus Htype Hreadable).
  unfold try_except. rewrite save_streamed by done.
  unfold body_exn. rewrite Hbody.
  match goal with
  | |- context [except_clauses ?e ?s] =>
      destruct (except_clauses_catch e s) as (message & out & ->); [done|]
  end.
  cbn [fst snd files set_files set_console]. split; [by exists message | done].
Qed.

Lemma broken_stream_leaves_partial_file_witness :
  let env := machine 1700000000 cut_off_response in
  let run := fetch_image env (latin1 "https://x/logo.png") default_directory
               fresh_state in
  body_error cut_off_response
  = Some (ChunkedEncodingError, latin1 "Connection broken")
  /\ fst run = Return (false, latin1 "Connection broken")
  /\ ((exists message, fst run = Return (false, message))
      /\ files (snd run)
         = <[target_path env (latin1 "https://x/logo.png") default_directory
               cut_off_response := concat (body cut_off_response)]>
             (files fresh_state)).
Proof.
  split; [reflexivity|]. split; [vm_compute; reflexivity|].
  apply (broken_stream_leaves_partial_file
           (machine 1700000000 cut_off_response) (latin1 "https://x/logo.png")
           default_directory fresh_state cut_off_response
           ChunkedEncodingError (latin1 "Connection broken"));
    try reflexivity.
  - change (~ (400 <= 200 < 600)%Z). lia.
  - vm_compute. discriminate.
Defined.

(** ** The success path *)

(** The save of a body the validator has read: it is written in slices. *)
Lemma save_sliced (env : Env) (response : Response) (filename : str)
    (filepath : pathlib.PurePath) (st : State) (c : bytes) :
  pathlib.to_str filepath ∉ dirs st ->
  open_error env (pathlib.to_str filepath) = None ->
  resp_content st = Some c ->
  save env response filename filepath st
  = match int_truediv_pow2 (Z.of_nat (length c)) 20 with
    | Some size_mb =>
        (Return (true, pathlib.to_str filepath),
         set_files (<[pathlib.to_str filepath := c]> (files st))
           (set_console
              (console st
               ++ [MsgSaving filename; MsgFetched filename;
                   MsgFileSize (format_2f size_mb);
                   MsgSavedTo (pathlib.to_str filepath); MsgStrengthened]) st))
    | None =>
        (Raise (mk_exn OverflowError
                  (latin1 "integer division result too large for a float")),
         set_files (<[pathlib.to_str filepath := c]> (files st))
           (set_console (console st ++ [MsgSaving filename]) st))
    end.
Proof.
  intros Hnodir Hopen Hcached. unfold save, bind at 1, print at 1. unfold bind at 1.
  unfold open_wb at 1. cbn [dirs set_console fst snd].
  rewrite bool_decide_eq_false_2 by done. rewrite Hopen.
  unfold bind at 1. unfold iter_content at 1.
  cbn [resp_content set_files set_console fst snd]. rewrite Hcached.
  unfold bind at 1.
  rewrite (write_chunks_run _ _ _ _ [])
    by (cbn [files set_files]; apply lookup_insert_eq).
  cbn [app files set_files set_console console dirs resp_content].
  cbn [fst snd].
  rewrite insert_insert_eq, iter_slices_concat, total_length_concat,
    iter_slices_concat, Z.add_0_l.
  run. unfold truediv_mb.
  destruct (int_truediv_pow2 (Z.of_nat (length c)) 20); run; [|done].
  by rewrite <- !app_assoc.
Qed.

(** The run up to the save, for a response the validator accepted by its
    first bytes. *)
Lemma fetch_image_sniffed (env : Env) (url directory : str) (st : State)
    (response : Response) :
  mkdir_error env (pathlib.to_str (pathlib.Path directory)) = None ->
  requests_get env (fetch_request url) = inr response ->
  ~ (400 <= status_code response < 600)%Z ->
  startswith "image/" (lower (headers_get response "content-type" "")) = false ->
  body_error response = None ->
  existsb (bytes_startswith (take 10 (concat (body response)))) image_signatures
  = true ->
  content_length_readable response = true ->
  fetch_image env url directory st =
  try_except
    (save env response (generate_filename env url response)
       (pathlib.truediv (pathlib.Path directory)
          (generate_filename env url response)))
    except_clauses
    (set_console
       ((console st ++ [MsgConnecting url; MsgApproaching;
                        MsgDirectory directory; MsgMakingConnection])
        ++ advisory response)
       (set_resp_content (Some (concat (body response)))
          (set_resp_content None
             (set_console
                (console st ++ [MsgConnecting url; MsgApproaching;
                                MsgDirectory directory; MsgMakingConnection])
                (set_dirs ({[pathlib.to_str (pathlib.Path directory)]} ∪ dirs st)
                   st))))).
Proof.
  intros Hmkdir Hget Hstatus Htype Hbody Hsig Hreadable.
  rewrite (fetch_image_response _ _ _ _ _ Hmkdir Hget).
  unfold try_except, bind at 1, raise_for_status.
  rewrite (http_error_none _ Hstatus). unfold ret at 1.
  unfold bind at 1. rewrite validate_sniffed by done. rewrite Hsig.
  unfold bind at 1. rewrite (advise_readable _ _ Hreadable).
  reflexivity.
Qed.

(** The whole run for an image that arrives whole on a machine where
    [mkdir] and [open] do not fail. *)
Lemma fetch_image_saves (env : Env) (url directory : str) (st : State)
    (response : Response) (size_mb : float) :
  mkdir_error env (pathlib.to_str (pathlib.Path directory)) = None ->
  requests_get env (fetch_request url) = inr response ->
  ~ (400 <= status_code response < 600)%Z ->
  spec_is_image response ->
  body_error response = None ->
  content_length_readable response = true ->
  target_path env url directory response
    ∉ ({[pathlib.to_str (pathlib.Path directory)]} ∪ dirs st : gset str) ->
  open_error env (target_path env url directory response) = None ->
  int_truediv_pow2 (Z.of_nat (length (concat (body response)))) 20
  = Some size_mb ->
  fst (fetch_image env url directory st)
  = Return (true, target_path env url directory response)
  /\ files (snd (fetch_image env url directory st))
     = <[target_path env url directory response := concat (body response)]>
         (files st)
  /\ In (MsgFileSize (format_2f size_mb))
        (console (snd (fetch_image env url directory st))).
Proof.
  intros Hmkdir Hget Hstatus Himage Hbody Hreadable Hnodir Hopen Hfits.
  unfold target_path in *.
  destruct (startswith "image/" (lower (headers_get response "content-type" "")))
    eqn:Htype.
  - rewrite (fetch_image_declared _ _ _ _ _ Hmkdir Hget Hstatus Htype Hreadable).
    unfold try_except. rewrite save_streamed by done.
    unfold body_exn. rewrite Hbody, total_length_concat, Hfits.
    cbn [fst snd files set_files set_console console]. split; [done|]. split; [done|].
    apply in_or_app. right. simpl. tauto.
  - assert (existsb (bytes_startswith (take 10 (concat (body response))))
              image_signatures = true) as Hsig.
    { destruct Himage as [Hprefix|Hfound].
      - apply declared_image_iff in Hprefix. congruence.
      - by apply signature_found. }
    rewrite (fetch_image_sniffed _ _ _ _ _ Hmkdir Hget Hstatus Htype Hbody Hsig
               Hreadable).
    unfold try_except.
    rewrite (save_sliced _ _ _ _ _ (concat (body response))) by done.
    rewrite Hfits.
    cbn [fst snd files set_files set_console console]. split; [done|]. split; [done|].
    apply in_or_app. right. simpl. tauto.
Qed.

Lemma gif_is_an_image : spec_is_image gif_without_type.
Proof.
  right. exists GIF89a, [Byte.x01; Byte.x00; Byte.x01; Byte.x00].
  split; [simpl; tauto | reflexivity].
Qed.


(** ** More on the resolved name *)

Lemma generate_filename_nonempty_witness :
  let env := machine 1700000000 unnamed_attachment in
  let url := latin1 "https://x/a%20b.PNG" in
  url_names_file url = true
  /\ generate_filename env url unnamed_attachment <> []
  /\ generate_filename env url unnamed_attachment = latin1 "ab.PNG".
Proof.
  split; [vm_compute; reflexivity|]. split; [|vm_compute; reflexivity].
  apply (generate_filename_nonempty (machine 1700000000 unnamed_attachment)
           (latin1 "https://x/a%20b.PNG") unnamed_attachment).
  left. vm_compute. reflexivity.
Defined.

Lemma latin1_append (a b : string) : latin1 (a +:+ b) = latin1 a ++ latin1 b.
Proof.
  unfold latin1. induction a as [|c a IH]; [done|].
  change (String c a +:+ b) with (String c (a +:+ b)).
  cbn [list_ascii_of_string map app]. by rewrite IH.
Qed.

(** A character of the specification's set is kept. *)
Lemma spec_safe_char_kept (env : Env) (c : N) :
  spec_safe_char c = true -> isalnum env c || char_in c ".-_" = true.
Proof.
  unfold spec_safe_char. intros Hsafe.
  destruct (char_in c ".-_") eqn:Hmark; [apply orb_true_r|].
  rewrite orb_false_r in *. rewrite isalnum_ascii; [by rewrite orb_comm|].
  unfold isascii_alpha, isascii_digit, between in Hsafe.
  rewrite !orb_true_iff, !andb_true_iff, !N.leb_le in Hsafe. lia.
Qed.

Lemma sanitize_safe (env : Env) (s : str) :
  Forall (fun c => spec_safe_char c = true) s -> sanitize env s = s.
Proof.
  induction 1 as [|c s Hc _ IH]; [done|].
  unfold sanitize in *. cbn [List.filter].
  by rewrite (spec_safe_char_kept env c Hc), IH.
Qed.

Lemma sanitize_app (env : Env) (s t : str) :
  sanitize env (s ++ t) = sanitize env s ++ sanitize env t.
Proof. apply List.filter_app. Qed.

(** The decimal writing of an integer is made of digits and, at most, a
    minus sign. *)
Lemma decimal_digits_safe (d : Decimal.uint) :
  Forall (fun c => spec_safe_char c = true) (latin1 (NilEmpty.string_of_uint d)).
Proof. induction d; cbn [NilEmpty.string_of_uint]; by constructor. Qed.

Lemma Z_to_string_safe (n : Z) :
  Forall (fun c => spec_safe_char c = true) (latin1 (Z_to_string n)).
Proof.
  unfold Z_to_string, NilZero.string_of_int.
  destruct (Z.to_int n) as [d|d]; [|constructor; [done|]];
    (unfold NilZero.string_of_uint; destruct d;
     [by repeat constructor | apply decimal_digits_safe ..]).
Qed.

(** X11. When neither the URL nor the [content-disposition] header gives a name
    and the content type is no [image/] type, or one the MIME table does not
    know, the name is [ubuntu_image_<seconds>.jpg], whole: sanitization
    takes nothing from it. *)
Theorem synthetic_name_defaults_to_jpg (env : Env) (url : str) (response : Response) :
  url_names_file url = false ->
  disposition_names_file response = false ->
  contains "image/" (headers_get response "content-type" "") = false
  \/ guess_extension env (headers_get response "content-type" "") = None ->
  generate_filename env url response
  = latin1 ("ubuntu_image_" +:+ Z_to_string (time_time env) +:+ ".jpg").
Proof.
  unfold url_names_file, disposition_names_file, generate_filename.
  fold (url_filename url). intros Hurl Hdisposition Htype.
  assert (bool_decide (url_filename url = [])
          || negb (existsb (N.eqb (chr ".")) (url_filename url)) = true) as ->.
  { destruct (bool_decide _); [done|]. by destruct (existsb _ _). }
  rewrite Hdisposition.
  assert (get_content_type_extension env response = ".jpg") as ->.
  { unfold get_content_type_extension.
    destruct Htype as [Htype | Hguess]; [by rewrite Htype|]. rewrite Hguess.
    by destruct (contains "image/" _). }
  apply sanitize_safe. rewrite !latin1_append.
  apply Forall_app. split; [by repeat constructor|].
  apply Forall_app. split; [apply Z_to_string_safe | by repeat constructor].
Qed.

Lemma synthetic_name_defaults_to_jpg_witness :
  let env := machine 1700000000 gif_without_type in
  let url := latin1 "https://x/download" in
  url_names_file url = false
  /\ disposition_names_file gif_without_type = false
  /\ generate_filename env url gif_without_type
     = latin1 "ubuntu_image_1700000000.jpg".
Proof.
  split; [vm_compute; reflexivity|]. split; [vm_compute; reflexivity|].
  apply (synthetic_name_defaults_to_jpg (machine 1700000000 gif_without_type)
           (latin1 "https://x/download") gif_without_type);
    [vm_compute; reflexivity | vm_compute; reflexivity | left; vm_compute; reflexivity].
Defined.

(** X12. A URL whose last segment has a dot names the file by itself: neither the
    response (its [content-disposition] and [content-type] headers), nor the
    clock, nor the MIME table has a say. *)
Theorem url_name_wins_over_response (env1 env2 : Env) (url : str)
    (response1 response2 : Response) :
  url_names_file url = true ->
  (forall c, wide_isalnum env1 c = wide_isalnum env2 c) ->
  generate_filename env1 url response1 = generate_filename env2 url response2.
Proof.
  unfold url_names_file, generate_filename. fold (url_filename url).
  intros [Hnonempty Hdot]%andb_true_iff Hwide.
  rewrite Hdot. apply negb_true_iff in Hnonempty. rewrite Hnonempty.
  cbn [orb negb]. unfold sanitize. apply List.filter_ext. intros c.
  unfold isalnum. by rewrite Hwide.
Qed.

Lemma url_name_wins_over_response_witness :
  let url := latin1 "https://x/photo.jpg" in
  url_names_file url = true
  /\ generate_filename (machine 1 unnamed_attachment) url unnamed_attachment
     = generate_filename (machine 2 png_response) url png_response.
Proof.
  split; [vm_compute; reflexivity|].
  apply (url_name_wins_over_response (machine 1 unnamed_attachment)
           (machine 2 png_response) (latin1 "https://x/photo.jpg")
           unnamed_attachment png_response);
    [vm_compute; reflexivity | reflexivity].
Defined.

Lemma split_on_absent (c : N) (s : str) : ~ In c s -> split_on c s = [s].
Proof.
  induction s as [|x s IH]; [done|]. intros Hnot. cbn [split_on].
  destruct (N.eqb_spec x c) as [->|Hxc]; [exfalso; apply Hnot; by left|].
  rewrite IH; [done|]. intros Hin. apply Hnot. by right.
Qed.

Lemma lstrip_absent (c : N) (s : str) : ~ In c s -> lstrip (N.eqb c) s = s.
Proof.
  destruct s as [|x s]; [done|]. intros Hnot. cbn [lstrip].
  destruct (N.eqb_spec c x) as [->|Hcx]; [exfalso; apply Hnot; by left | done].
Qed.

(** A name without a slash is a relative path of at most one part. *)
Lemma Path_of_name (name : str) :
  ~ In (chr "/") name ->
  pathlib.Path name
  = {| pathlib.root := [];
       pathlib.parts :=
         if negb (bool_decide (name = []) || bool_decide (name = latin1 "."))
         then [name] else [] |}.
Proof.
  intros Hslash. unfold pathlib.Path.
  rewrite lstrip_absent, Nat.sub_diag, split_on_absent by done.
  cbn [List.filter]. by destruct (negb _).
Qed.

(** Sanitization removes every slash. *)
Lemma generate_filename_no_slash (env : Env) (url : str) (response : Response) :
  ~ In (chr "/") (generate_filename env url response).
Proof.
  unfold generate_filename, sanitize. intros [_ Hkept]%filter_In.
  by rewrite (unsafe_characters env (chr "/")) in Hkept; [|left].
Qed.

(** Joining a directory and a name without a slash. *)
Lemma truediv_name (directory name : str) :
  ~ In (chr "/") name ->
  pathlib.to_str (pathlib.truediv (pathlib.Path directory) name)
  = pathlib.to_str (pathlib.Path directory)
  \/ pathlib.to_str (pathlib.truediv (pathlib.Path directory) name)
     = pathlib.to_str
         {| pathlib.root := pathlib.root (pathlib.Path directory);
            pathlib.parts := pathlib.parts (pathlib.Path directory) ++ [name] |}.
Proof.
  intros Hslash. unfold pathlib.truediv. rewrite (Path_of_name name Hslash).
  cbn [pathlib.root pathlib.parts].
  destruct (negb _).
  - right. reflexivity.
  - left. rewrite app_nil_r. by destruct (pathlib.Path directory).
Qed.

(** The two cases of joining a directory and a name without a slash. *)
Lemma truediv_name_cases (directory name : str) :
  ~ In (chr "/") name ->
  pathlib.to_str (pathlib.truediv (pathlib.Path directory) name)
  = pathlib.to_str (pathlib.Path directory)
  \/ (name <> [] /\ name <> latin1 "."
      /\ pathlib.to_str (pathlib.truediv (pathlib.Path directory) name)
         = pathlib.to_str
             {| pathlib.root := pathlib.root (pathlib.Path directory);
                pathlib.parts := pathlib.parts (pathlib.Path directory)
                                 ++ [name] |}).
Proof.
  intros Hslash. unfold pathlib.truediv. rewrite (Path_of_name name Hslash).
  cbn [pathlib.root pathlib.parts].
  destruct (bool_decide (name = [])) eqn:Hempty;
    destruct (bool_decide (name = latin1 ".")) eqn:Hdot; cbn [orb negb].
  1-3: left; rewrite app_nil_r; by destruct (pathlib.Path directory).
  right. apply bool_decide_eq_false in Hempty, Hdot. done.
Qed.

(** X13. [fetch_image] changes no file but one directly inside the
    directory.  On a file system where [open] fails on [directory/..] (the
    last component names a directory), a path whose file changes is the
    path of the directory with one more component, the resolved name, and
    this name is not empty, holds no slash and is neither [.] nor [..]:
    no URL and no header makes the call write above the directory or below
    a subdirectory of it. *)
Theorem changed_file_is_directly_inside_directory (env : Env)
    (url directory : str) (st : State) (q : str) :
  open_error env (pathlib.to_str (pathlib.truediv (pathlib.Path directory)
                                    (latin1 ".."))) <> None ->
  files (snd (fetch_image env url directory st)) !! q <> files st !! q ->
  exists response name,
    requests_get env (fetch_request url) = inr response
    /\ name = generate_filename env url response
    /\ q = pathlib.to_str
             {| pathlib.root := pathlib.root (pathlib.Path directory);
                pathlib.parts := pathlib.parts (pathlib.Path directory)
                                 ++ [name] |}
    /\ name <> [] /\ name <> latin1 "." /\ name <> latin1 ".."
    /\ ~ In (chr "/") name.
Proof.
  intros Hdotdot Hchange.
  destruct (fetch_image_effect_open env url directory st) as (_ & Hfiles & _).
  destruct (requests_get env (fetch_request url)) as [e|response] eqn:Hnet.
  { exfalso. apply Hchange, Hfiles. by intros (r & Hr & _). }
  destruct (decide (q = target_path env url directory response)) as [->|Hother].
  2:{ exfalso. apply Hchange, Hfiles. intros (r & Hr & Hq & _).
      by injection Hr as <-. }
  destruct (decide (target_path env url directory response
                    = pathlib.to_str (pathlib.Path directory))) as [Hdir|Hbelow].
  { exfalso. apply Hchange, Hfiles. by intros (r & _ & _ & Hq & _). }
  destruct (open_error env (target_path env url directory response)) as [e|]
    eqn:Hopen.
  { exfalso. apply Hchange, Hfiles. intros (r & _ & _ & _ & Hq). congruence. }
  exists response, (generate_filename env url response).
  split; [done|]. split; [done|].
  pose proof (generate_filename_no_slash env url response) as Hslash.
  unfold target_path in *.
  destruct (truediv_name_cases directory _ Hslash)
    as [Hsame|(Hnonempty & Hnodot & Hpath)]; [done|].
  split; [done|]. split; [done|]. split; [done|]. split; [|done].
  intros Hname. apply Hdotdot. by rewrite <- Hname.
Qed.

Lemma changed_file_is_directly_inside_directory_witness :
  let env := machine 1700000000 png_response in
  let run := fetch_image env (latin1 "https://x/logo.png") default_directory
               fresh_state in
  fst (fetch_image env (latin1 "https://x/a/..") default_directory fresh_state)
  = Return (false, latin1 "[Errno 21] Is a directory: 'Fetched_Images/..'")
  /\ files (snd run) !! latin1 "Fetched_Images/logo.png"
     = Some (PNG ++ [Byte.x00; Byte.x01; Byte.x02])
  /\ exists response name,
       requests_get env (fetch_request (latin1 "https://x/logo.png")) = inr response
       /\ name = generate_filename env (latin1 "https://x/logo.png") response
       /\ latin1 "Fetched_Images/logo.png"
          = pathlib.to_str
              {| pathlib.root := pathlib.root (pathlib.Path default_directory);
                 pathlib.parts := pathlib.parts (pathlib.Path default_directory)
                                  ++ [name] |}
       /\ name <> [] /\ name <> latin1 "." /\ name <> latin1 ".."
       /\ ~ In (chr "/") name.
Proof.
  split; [vm_compute; reflexivity|]. split; [vm_compute; reflexivity|].
  apply (changed_file_is_directly_inside_directory
           (machine 1700000000 png_response) (latin1 "https://x/logo.png")
           default_directory fresh_state (latin1 "Fetched_Images/logo.png"));
    vm_compute; discriminate.
Defined.

(** ** The advisory, on an instance *)

Lemma readable_content_length_changes_nothing_witness :
  let env := machine 1700000000 png_response in
  let url := latin1 "https://x/logo.png" in
  let huge := with_content_length "99999999999" png_response in
  content_length_readable png_response = true
  /\ content_length_readable huge = true
  /\ fst (fetch_image (answering huge env) url default_directory fresh_state)
     = fst (fetch_image (answering png_response env) url default_directory
              fresh_state)
  /\ files (snd (fetch_image (answering huge env) url default_directory
                   fresh_state))
     = files (snd (fetch_image (answering png_response env) url
                     default_directory fresh_state)).
Proof.
  split; [reflexivity|]. split; [vm_compute; reflexivity|].
  apply (readable_content_length_changes_nothing
           (machine 1700000000 png_response) (latin1 "https://x/logo.png")
           default_directory fresh_state png_response "99999999999");
    vm_compute; reflexivity.
Defined.

(** ** The session *)

Lemma call_fetch_image_run (env : Env) (url : str) (s : Session) :
  call_fetch_image env url s
  = (fst (fetch_image env url default_directory (set_console [] (world s))),
     {| world := snd (fetch_image env url default_directory
                        (set_console [] (world s)));
        stdout := stdout s
                  ++ map inr (console (snd (fetch_image env url default_directory
                                              (set_console [] (world s))))) |}).
Proof.
  unfold call_fetch_image.
  by destruct (fetch_image env url default_directory (set_console [] (world s))).
Qed.

(** A rule for the loop of [main]: a property of the session that every
    [print] and every call of [fetch_image] on a typed, full URL keeps holds
    all along; the session ends by the two closing lines, or by an error of
    a call that is no [KeyboardInterrupt]. *)
Section Loop.

Variable host : Host.
Variable typed : list Typed.
Variable I : Session -> Prop.
Variable Post : Result unit * Session -> Prop.

Hypothesis Hsay : forall m s, I s -> I (say m s).
Hypothesis Hcall : forall attempt text s,
  In (Line text) typed -> full_url (strip text) = true -> I s ->
  I (snd (call_fetch_image (machine_at host attempt) (strip text) s)).
Hypothesis Hend : forall s, I s -> Post (farewell s).
Hypothesis Hraise : forall attempt text s e,
  In (Line text) typed -> full_url (strip text) = true -> I s ->
  fst (call_fetch_image (machine_at host attempt) (strip text) s) = Raise e ->
  isinstance e KeyboardInterrupt = false ->
  Post (Raise e, snd (call_fetch_image (machine_at host attempt) (strip text) s)).

Lemma interrupted_rule (s : Session) : I s -> Post (interrupted s).
Proof. intros Hs. unfold interrupted. by apply Hend, Hsay, Hsay. Qed.

Lemma end_of_input_rule (s : Session) : I s -> Post (end_of_input s).
Proof. intros Hs. unfold end_of_input. by apply Hend, Hsay. Qed.

Lemma main_loop_rule (n : nat) :
  forall (inputs : list Typed) (attempt : nat) (s : Session),
    (length inputs <= n)%nat ->
    (forall t, In t inputs -> In t typed) ->
    I s -> Post (main_loop host attempt inputs s).
Proof.
  induction n as [|n IH]; intros inputs attempt s Hlen Hin Hs.
  { destruct inputs; [|simpl in Hlen; lia].
    cbn [main_loop]. by apply end_of_input_rule, Hsay. }
  destruct inputs as [|[text|] rest]; cbn [main_loop].
  - by apply end_of_input_rule, Hsay.
  - destruct (bool_decide (str_lower host (strip text) ∈ _)).
    { by apply Hend, Hsay, Hsay, Hsay. }
    destruct (bool_decide (strip text = [])).
    { apply IH; [simpl in Hlen; lia | intros t Ht; apply Hin; by right
                | by apply Hsay, Hsay]. }
    fold (full_url (strip text)).
    destruct (full_url (strip text)) eqn:Hfull; cbn [negb].
    2: { apply IH; [simpl in Hlen; lia | intros t Ht; apply Hin; by right
                   | by apply Hsay, Hsay]. }
    assert (In (Line text) typed) as Htyped by (apply Hin; by left).
    assert (I (say RuleAbove (say PromptUrl s))) as Hs' by by apply Hsay, Hsay.
    pose proof (Hcall attempt text _ Htyped Hfull Hs') as Hafter.
    pose proof (fun e => Hraise attempt text _ e Htyped Hfull Hs') as Herr.
    destruct (call_fetch_image (machine_at host attempt) (strip text)
                (say RuleAbove (say PromptUrl s))) as [[[success message]|e] s1].
    + cbn [snd] in Hafter.
      destruct rest as [|[answer|] rest'].
      * by apply end_of_input_rule, Hsay, Hsay.
      * destruct (is_yes host answer).
        -- apply IH; [simpl in Hlen; lia
                     | intros t Ht; apply Hin; right; by right
                     | by apply Hsay, Hsay].
        -- by apply Hend, Hsay, Hsay.
      * by apply interrupted_rule, Hsay, Hsay.
    + cbn [fst snd] in *.
      destruct (isinstance e KeyboardInterrupt) eqn:Hclass.
      * by apply interrupted_rule.
      * by apply (Herr e).
  - by apply interrupted_rule, Hsay.
Qed.

Lemma main_rule (inputs : list Typed) (s : Session) :
  (forall t, In t inputs -> In t typed) ->
  I s -> Post (main host inputs s).
Proof.
  intros Hin Hs. unfold main, print_ubuntu_banner.
  apply (main_loop_rule (length inputs)); [lia | done | by apply Hsay, Hsay, Hsay].
Qed.

End Loop.

Lemma fetched_urls_app (out1 out2 : list (MainMsg + Msg)) :
  fetched_urls (out1 ++ out2) = fetched_urls out1 ++ fetched_urls out2.
Proof. apply flat_map_app. Qed.

Lemma fetched_urls_say (m : MainMsg) (s : Session) :
  fetched_urls (stdout (say m s)) = fetched_urls (stdout s).
Proof. cbn [say stdout]. by rewrite fetched_urls_app, app_nil_r. Qed.

(** The lines of one call show its URL and no other. *)
Lemma fetched_urls_of_call (url directory : str) (out : list Msg) :
  Forall (line_of_call url directory) out ->
  Forall (eq url) (fetched_urls (map inr out)).
Proof.
  induction 1 as [|line out Hline _ IH]; [constructor|].
  destruct line; cbn [map fetched_urls flat_map app]; try exact IH.
  constructor; [by symmetry | exact IH].
Qed.

Lemma call_fetch_image_urls (env : Env) (url : str) (s : Session) :
  exists urls,
    fetched_urls (stdout (snd (call_fetch_image env url s)))
    = fetched_urls (stdout s) ++ urls
    /\ Forall (eq url) urls.
Proof.
  rewrite call_fetch_image_run. cbn [snd stdout].
  destruct (fetch_image_effect env url default_directory (set_console [] (world s)))
    as (_ & _ & out & -> & Hout).
  cbn [console set_console app map].
  exists (url :: fetched_urls (map inr out)). split.
  - by rewrite fetched_urls_app.
  - constructor; [done | by apply (fetched_urls_of_call url default_directory)].
Qed.

(** X14. Every URL [main] hands to [fetch_image] is a line the user typed, with
    the white space around it removed, and starts with [http://] or
    [https://]: apart from the lines that were on the standard output
    before, the URLs the output shows are of this kind. *)
Theorem session_fetches_only_typed_full_urls (host : Host) (inputs : list Typed)
    (s : Session) :
  exists urls,
    fetched_urls (stdout (snd (main host inputs s)))
    = fetched_urls (stdout s) ++ urls
    /\ Forall (fun url => full_url url = true
                          /\ exists text, In (Line text) inputs /\ url = strip text)
              urls.
Proof.
  set (Q := fun url => full_url url = true
                       /\ exists text, In (Line text) inputs /\ url = strip text).
  set (I := fun s' : Session =>
              exists urls, fetched_urls (stdout s') = fetched_urls (stdout s) ++ urls
                           /\ Forall Q urls).
  assert (forall attempt text s', In (Line text) inputs ->
            full_url (strip text) = true -> I s' ->
            I (snd (call_fetch_image (machine_at host attempt) (strip text) s')))
    as Hcall.
  { intros attempt text s' Htyped Hfull (urls & Hurls & HQ).
    destruct (call_fetch_image_urls (machine_at host attempt) (strip text) s')
      as (more & Hcalled & Hmore).
    exists (urls ++ more). rewrite Hcalled, Hurls, app_assoc. split; [done|].
    apply Forall_app. split; [done|].
    eapply Forall_impl; [exact Hmore|]. intros url <-. split; [done|].
    by exists text. }
  apply (main_rule host inputs I (fun rs => I (snd rs))).
  - intros m s' (urls & Hurls & HQ). exists urls. by rewrite fetched_urls_say.
  - exact Hcall.
  - intros s' (urls & Hurls & HQ). exists urls.
    unfold farewell. cbn [snd]. by rewrite !fetched_urls_say.
  - intros attempt text s' e Htyped Hfull Hs' _ _. cbn [snd]. by apply Hcall.
  - done.
  - exists []. by rewrite app_nil_r.
Qed.

(** X15. A session in which no line typed is a full URL sends no request and
    touches nothing: it ends normally, with the files and directories as
    they were. *)
Theorem session_without_full_url_fetches_nothing (host : Host)
    (inputs : list Typed) (s : Session) :
  (forall text, In (Line text) inputs -> full_url (strip text) = false) ->
  fst (main host inputs s) = Return tt
  /\ world (snd (main host inputs s)) = world s
  /\ fetched_urls (stdout (snd (main host inputs s))) = fetched_urls (stdout s).
Proof.
  intros Hnone.
  set (I := fun s' : Session =>
              world s' = world s
              /\ fetched_urls (stdout s') = fetched_urls (stdout s)).
  apply (main_rule host inputs I
           (fun rs => fst rs = Return tt /\ world (snd rs) = world s
                      /\ fetched_urls (stdout (snd rs)) = fetched_urls (stdout s))).
  - intros m s' [Hworld Hurls]. split; [done|]. by rewrite fetched_urls_say.
  - intros attempt text s' Htyped Hfull. by rewrite (Hnone text Htyped) in Hfull.
  - intros s' [Hworld Hurls]. unfold farewell. cbn [fst snd].
    split; [done|]. split; [done|]. by rewrite !fetched_urls_say.
  - intros attempt text s' e Htyped Hfull. by rewrite (Hnone text Htyped) in Hfull.
  - done.
  - done.
Qed.

Lemma session_without_full_url_fetches_nothing_witness :
  let inputs := [Line (latin1 "   "); Line (latin1 "ftp://x/logo.png");
                 Line (latin1 "www.example.org/logo.png"); Line (latin1 " Quit ")] in
  fst (main (host_of readonly_machine) inputs session_with_note) = Return tt
  /\ world (snd (main (host_of readonly_machine) inputs session_with_note))
     = world session_with_note
  /\ fetched_urls (stdout (snd (main (host_of readonly_machine) inputs
                                  session_with_note)))
     = fetched_urls (stdout session_with_note).
Proof.
  apply (session_without_full_url_fetches_nothing (host_of readonly_machine)
           [Line (latin1 "   "); Line (latin1 "ftp://x/logo.png");
            Line (latin1 "www.example.org/logo.png"); Line (latin1 " Quit ")]
           session_with_note).
  intros text [Htext|[Htext|[Htext|[Htext|[]]]]];
    injection Htext as <-; vm_compute; reflexivity.
Defined.

(** X16. An error of [mkdir] ends the whole session.  When the line typed
    is a full URL (and no quit word) and [mkdir] fails with an error that
    is no [KeyboardInterrupt], [main] does not return: the error leaves it,
    after the two first lines of [fetch_image] and without the closing
    lines; no file and no directory has changed. *)
Theorem mkdir_failure_ends_the_session (host : Host) (text : str)
    (rest : list Typed) (s : Session) (e : exn) :
  full_url (strip text) = true ->
  str_lower host (strip text) ∉ [latin1 "quit"; latin1 "exit"; latin1 "q"] ->
  mkdir_error (machine_at host 0) (pathlib.to_str (pathlib.Path default_directory))
  = Some e ->
  isinstance e KeyboardInterrupt = false ->
  fst (main host (Line text :: rest) s) = Raise e
  /\ stdout (snd (main host (Line text :: rest) s))
     = stdout s
       ++ [inl Banner; inl Welcome; inl LetsGather; inl PromptUrl; inl RuleAbove;
           inr (MsgConnecting (strip text)); inr MsgApproaching]
  /\ files (world (snd (main host (Line text :: rest) s))) = files (world s)
  /\ dirs (world (snd (main host (Line text :: rest) s))) = dirs (world s).
Proof.
  intros Hfull Hquit Hmkdir Hclass.
  unfold main, print_ubuntu_banner. cbn [main_loop].
  rewrite bool_decide_eq_false_2 by done.
  assert (bool_decide (strip text = []) = false) as ->.
  { apply bool_decide_eq_false. intros Hempty. by rewrite Hempty in Hfull. }
  fold (full_url (strip text)). rewrite Hfull. cbn [negb].
  rewrite call_fetch_image_run.
  rewrite (mkdir_error_escapes _ _ _ _ e Hmkdir). cbn [fst snd].
  rewrite Hclass.
  cbn [fst snd stdout world say console set_console files dirs map app].
  repeat split; try done. by rewrite <- !app_assoc.
Qed.

Lemma mkdir_failure_ends_the_session_witness :
  let e := mk_exn PermissionError
             (latin1 "[Errno 13] Permission denied: 'Fetched_Images'") in
  let inputs := [Line (latin1 " https://x/logo.png "); Line (latin1 "y")] in
  let run := main (host_of readonly_machine) inputs session_with_note in
  fst run = Raise e
  /\ stdout (snd run)
     = stdout session_with_note
       ++ [inl Banner; inl Welcome; inl LetsGather; inl PromptUrl; inl RuleAbove;
           inr (MsgConnecting (strip (latin1 " https://x/logo.png ")));
           inr MsgApproaching]
  /\ files (world (snd run)) = files (world session_with_note)
  /\ dirs (world (snd run)) = dirs (world session_with_note).
Proof.
  apply (mkdir_failure_ends_the_session (host_of readonly_machine)
           (latin1 " https://x/logo.png ") [Line (latin1 "y")] session_with_note).
  - vm_compute. reflexivity.
  - vm_compute. intros Hin. repeat (apply elem_of_cons in Hin as [Hin|Hin];
      [discriminate|]). by apply elem_of_nil in Hin.
  - vm_compute. reflexivity.
  - vm_compute. reflexivity.
Defined.

(** With the default directory, the resolved path is [Fetched_Images] or
    starts with [Fetched_Images/]. *)
Lemma target_path_default (env : Env) (url : str) (response : Response) :
  str_startswith default_directory (target_path env url default_directory response)
  = true.
Proof.
  unfold target_path.
  destruct (truediv_name default_directory (generate_filename env url response)
              (generate_filename_no_slash env url response)) as [-> | ->].
  - vm_compute. reflexivity.
  - change (pathlib.Path default_directory)
      with {| pathlib.root := []; pathlib.parts := [default_directory] |}.
    cbn [pathlib.root pathlib.parts app pathlib.to_str join].
    unfold str_startswith. apply bool_decide_eq_true.
    by rewrite take_app_length.
Qed.

(** One call from [main] keeps every file outside the default directory and
    makes no directory but that one. *)
Lemma call_fetch_image_frame (env : Env) (url : str) (s : Session) (q : str) :
  str_startswith default_directory q = false ->
  files (world (snd (call_fetch_image env url s))) !! q = files (world s) !! q
  /\ dirs (world (snd (call_fetch_image env url s)))
     ⊆ {[default_directory]} ∪ dirs (world s).
Proof.
  intros Hq. rewrite call_fetch_image_run. cbn [snd world].
  destruct (fetch_image_effect env url default_directory (set_console [] (world s)))
    as (Hdirs & Hfiles & _).
  split.
  - rewrite Hfiles; [done|]. intros response _ ->.
    by rewrite target_path_default in Hq.
  - rewrite Hdirs. cbn [dirs set_console].
    change (pathlib.to_str (pathlib.Path default_directory)) with default_directory.
    destruct (mkdir_error env default_directory); [apply union_subseteq_r | done].
Qed.

(** X17. A whole session writes below [Fetched_Images] only: a path that does not
    start with the name of the default directory keeps its file, or stays
    absent, whatever is typed and however the session ends; and no
    directory is made but [Fetched_Images]. *)
Theorem session_writes_below_the_default_directory_only (host : Host)
    (inputs : list Typed) (s : Session) (q : str) :
  str_startswith default_directory q = false ->
  files (world (snd (main host inputs s))) !! q = files (world s) !! q
  /\ dirs (world (snd (main host inputs s)))
     ⊆ {[default_directory]} ∪ dirs (world s).
Proof.
  intros Hq.
  set (I := fun s' : Session =>
              files (world s') !! q = files (world s) !! q
              /\ dirs (world s') ⊆ {[default_directory]} ∪ dirs (world s)).
  assert (forall attempt text s', I s' ->
            I (snd (call_fetch_image (machine_at host attempt) (strip text) s')))
    as Hcall.
  { intros attempt text s' [Hfiles Hdirs].
    destruct (call_fetch_image_frame (machine_at host attempt) (strip text) s' q Hq)
      as [Hfiles' Hdirs'].
    split; [by rewrite Hfiles'|]. etrans; [exact Hdirs'|].
    apply union_least; [apply union_subseteq_l | exact Hdirs]. }
  apply (main_rule host inputs I (fun rs => I (snd rs))).
  - by intros m s' Hs'.
  - intros attempt text s' _ _. apply Hcall.
  - by intros s' Hs'.
  - intros attempt text s' e _ _ Hs' _ _. by apply Hcall.
  - done.
  - split; [done | apply union_subseteq_r].
Qed.

Lemma session_writes_below_the_default_directory_only_witness :
  let host := host_of (machine 1700000000 png_response) in
  let inputs := [Line (latin1 "https://x/logo.png"); Line (latin1 "n")] in
  files (world (snd (main host inputs session_with_note)))
    !! latin1 "Fetched_Images/logo.png"
  = Some (PNG ++ [Byte.x00; Byte.x01; Byte.x02])
  /\ files (world (snd (main host inputs session_with_note))) !! latin1 "notes.txt"
     = files (world session_with_note) !! latin1 "notes.txt"
  /\ dirs (world (snd (main host inputs session_with_note)))
     ⊆ {[default_directory]} ∪ dirs (world session_with_note).
Proof.
  split; [vm_compute; reflexivity|].
  apply (session_writes_below_the_default_directory_only
           (host_of (machine 1700000000 png_response))
           [Line (latin1 "https://x/logo.png"); Line (latin1 "n")]
           session_with_note (latin1 "notes.txt")).
  vm_compute. reflexivity.
Defined.

(** X18. However a session ends without an error (a quit word, an answer other
    than yes, the interrupt key, the end of the input), the banner and the
    two lines of welcome come first and the two lines of thanks last. *)
Theorem session_that_ends_opens_and_closes (host : Host) (inputs : list Typed)
    (s : Session) :
  fst (main host inputs s) = Return tt ->
  exists out,
    stdout (snd (main host inputs s))
    = stdout s ++ [inl Banner; inl Welcome; inl LetsGather] ++ out
      ++ [inl ThankYou; inl SharedWebSpace].
Proof.
  set (I := fun s' : Session =>
              exists out, stdout s'
                          = stdout s ++ [inl Banner; inl Welcome; inl LetsGather]
                            ++ out).
  unfold main, print_ubuntu_banner.
  apply (main_loop_rule host inputs I
           (fun rs => fst rs = Return tt ->
              exists out, stdout (snd rs)
                          = stdout s ++ [inl Banner; inl Welcome; inl LetsGather]
                            ++ out ++ [inl ThankYou; inl SharedWebSpace])
           ) with (n := length inputs); try done.
  - intros m s' [out Hout]. exists (out ++ [inl m]). cbn [say stdout].
    rewrite Hout. by rewrite <- !app_assoc.
  - intros attempt text s' _ _ [out Hout]. rewrite call_fetch_image_run.
    cbn [snd stdout]. eexists. rewrite Hout. by rewrite <- !app_assoc.
  - intros s' [out Hout] _. exists out. unfold farewell. cbn [snd say stdout].
    rewrite Hout. by rewrite <- !app_assoc.
  - exists []. cbn [say stdout]. by rewrite <- !app_assoc.
Qed.

Lemma session_that_ends_opens_and_closes_witness :
  let host := host_of (machine 1700000000 text_response) in
  let inputs := [Line (latin1 "https://x/file.txt"); CtrlC] in
  fst (main host inputs fresh_session) = Return tt
  /\ exists out,
       stdout (snd (main host inputs fresh_session))
       = stdout fresh_session ++ [inl Banner; inl Welcome; inl LetsGather] ++ out
         ++ [inl ThankYou; inl SharedWebSpace].
Proof.
  split; [vm_compute; reflexivity|].
  apply (session_that_ends_opens_and_closes
           (host_of (machine 1700000000 text_response))
           [Line (latin1 "https://x/file.txt"); CtrlC] fresh_session).
  vm_compute. reflexivity.
Defined.

(** ** The program where every call can fail *)

Lemma same_run_refl {A} (m : M A) : same_run m m.
Proof. by intros st. Qed.

Lemma bind_same {A B} (m1 m2 : M A) (k1 k2 : A -> M B) :
  same_run m1 m2 -> (forall a, same_run (k1 a) (k2 a)) ->
  same_run (bind m1 k1) (bind m2 k2).
Proof.
  intros Hm Hk st. unfold bind. rewrite (Hm st).
  destruct (m2 st) as [[a|e] st']; [apply Hk | done].
Qed.

Lemma try_except_same {A} (m1 m2 : M A) (h1 h2 : exn -> M A) :
  same_run m1 m2 -> (forall e, same_run (h1 e) (h2 e)) ->
  same_run (try_except m1 h1) (try_except m2 h2).
Proof.
  intros Hm Hh st. unfold try_except. rewrite (Hm st).
  destruct (m2 st) as [[a|e] st']; [done | apply Hh].
Qed.

Section Quiet.

Variable f : Full.Faults.
Hypothesis Hquiet : quiet f.

Lemma print_quiet (m : Msg) : same_run (Full.print f m) (print m).
Proof.
  intros st. unfold Full.print. destruct Hquiet as (Hprint & _).
  by rewrite Hprint.
Qed.

Lemma write_quiet (p : pathlib.PurePath) (chunk : bytes) :
  same_run (Full.write f p chunk) (write p chunk).
Proof.
  intros st. unfold Full.write. destruct Hquiet as (_ & Hwrite & _).
  by rewrite Hwrite.
Qed.

Lemma write_chunks_quiet (p : pathlib.PurePath) (chunks : list bytes)
    (total_size : Z) :
  same_run (Full.write_chunks f p chunks total_size)
    (write_chunks p chunks total_size).
Proof.
  revert total_size. induction chunks as [|[|b chunk] chunks IH];
    intros total_size; cbn [Full.write_chunks write_chunks].
  - apply same_run_refl.
  - apply IH.
  - apply bind_same; [apply write_quiet | intros _; apply IH].
Qed.

Lemma except_clauses_quiet (e : exn) :
  same_run (Full.except_clauses f e) (except_clauses e).
Proof.
  unfold Full.except_clauses, except_clauses.
  repeat match goal with
         | |- context [isinstance e ?c] => destruct (isinstance e c)
         end;
    try apply same_run_refl;
    repeat (apply bind_same; [apply print_quiet | intros _]);
    apply same_run_refl.
Qed.

(** The [with] block, followed by the rest of the [try] block. *)
Lemma with_open_quiet {A} (env : Env) (response : Response)
    (p : pathlib.PurePath) (k1 k2 : Z -> M A) :
  (forall total_size, same_run (k1 total_size) (k2 total_size)) ->
  same_run
    (total_size <-
       Full.with_open f env p
         (stream <- iter_content response 8192 ;;
          total_size <- Full.write_chunks f p (fst stream) 0%Z ;;
          match snd stream with
          | Some e => raise e
          | None => ret tt
          end ;;
          ret total_size) ;;
     k1 total_size)
    (open_wb env p ;;
     stream <- iter_content response 8192 ;;
     total_size <- write_chunks p (fst stream) 0%Z ;;
     match snd stream with
     | Some e => raise e
     | None => ret tt
     end ;;
     k2 total_size).
Proof.
  intros Hk st. unfold Full.with_open. destruct Hquiet as (_ & _ & Hclose).
  rewrite Hclose. unfold bind.
  destruct (open_wb env p st) as [[a|e] st1]; [|done].
  destruct (iter_content response 8192 st1) as [[stream|e] st2]; [|done].
  rewrite write_chunks_quiet.
  destruct (write_chunks p (fst stream) 0%Z st2) as [[total_size|e] st3]; [|done].
  destruct (match snd stream with Some e => raise e | None => ret tt end st3)
    as [[a'|e] st4]; [|done].
  apply Hk.
Qed.

(** On a machine whose standard output and disk do not fail, and for a URL
    that [urlparse] accepts, the program is [fetch_image]. *)
Lemma fetch_image_quiet (env : Env) (url directory : str) :
  urllib.urlsplit_error (Full.netloc_error f) url = None ->
  same_run (Full.fetch_image f env url directory) (fetch_image env url directory).
Proof.
  intros Hurl. unfold Full.fetch_image, fetch_image.
  apply bind_same; [apply print_quiet | intros _].
  apply bind_same; [apply print_quiet | intros _].
  apply bind_same; [apply same_run_refl | intros _].
  apply bind_same; [apply print_quiet | intros _].
  apply try_except_same; [|apply except_clauses_quiet].
  apply bind_same; [apply print_quiet | intros _].
  apply bind_same; [apply same_run_refl | intros response].
  apply bind_same; [apply same_run_refl | intros _].
  apply bind_same; [apply same_run_refl | intros _].
  unfold Full.generate_filename. rewrite Hurl.
  intros st. change (bind (ret ?a) ?k st) with (k a st). revert st.
  apply bind_same.
  { destruct (headers_lookup response "content-length") as [[|a v]|];
      try apply same_run_refl.
    destruct (py_int (String a v)) as [n|]; [|apply same_run_refl].
    destruct (n >? _)%Z; [apply print_quiet | apply same_run_refl]. }
  intros _. apply bind_same; [apply print_quiet | intros _].
  apply with_open_quiet. intros total_size.
  apply bind_same; [apply same_run_refl | intros size_mb].
  repeat (apply bind_same; [apply print_quiet | intros _]).
  apply same_run_refl.
Qed.

End Quiet.

(** X10. Sufficient conditions of success.  The standard output and the disk
    do not fail, [urlparse] accepts the URL, [mkdir] and [open] do not fail
    and the resolved path is no directory; the response has a status
    outside 400-599, is an image in the validator's sense, has a
    [content-length] that [int] can read, or none, and a body below
    [2 ^ 53] bytes that arrives whole.  Then [fetch_image] returns success
    with the resolved path, the file at that path holds the body, byte for
    byte, and the size shown is the length of the body divided by 1048576,
    with two decimals. *)
Theorem image_is_saved_when_nothing_fails (f : Full.Faults) (env : Env)
    (url directory : str) (st : State) (response : Response) :
  quiet f ->
  urllib.urlsplit_error (Full.netloc_error f) url = None ->
  mkdir_error env (pathlib.to_str (pathlib.Path directory)) = None ->
  requests_get env (fetch_request url) = inr response ->
  ~ (400 <= status_code response < 600)%Z ->
  spec_is_image response ->
  body_error response = None ->
  (Z.of_nat (length (concat (body response))) < 2 ^ 53)%Z ->
  content_length_readable response = true ->
  target_path env url directory response
    ∉ ({[pathlib.to_str (pathlib.Path directory)]} ∪ dirs st : gset str) ->
  open_error env (target_path env url directory response) = None ->
  fst (Full.fetch_image f env url directory st)
  = Return (true, target_path env url directory response)
  /\ files (snd (Full.fetch_image f env url directory st))
     = <[target_path env url directory response := concat (body response)]>
         (files st)
  /\ exists hundredths,
       nearest_hundredths hundredths
         (Z.of_nat (length (concat (body response)))) 1048576
       /\ In (MsgFileSize (two_decimals hundredths))
             (console (snd (Full.fetch_image f env url directory st))).
Proof.
  intros Hquiet Hurl Hmkdir Hget Hstatus Himage Hbody Hsmall Hreadable Hnodir
    Hopen.
  rewrite (fetch_image_quiet f Hquiet env url directory Hurl st).
  destruct (format_2f_nearest (Z.of_nat (length (concat (body response)))))
    as (hundredths & Hnearest & Htext).
  destruct (fetch_image_saves env url directory st response
              {| mantissa := Z.of_nat (length (concat (body response)));
                 scale := 20 |}) as (Hres & Hfiles & Hsize); try done.
  { apply int_truediv_pow2_exact; lia. }
  split; [done|]. split; [done|]. exists hundredths. split; [done|].
  by rewrite <- Htext.
Qed.

Lemma image_is_saved_when_nothing_fails_witness :
  let env := machine 1700000000 gif_without_type in
  let url := latin1 "https://x/pixel.gif?size=1" in
  let run := Full.fetch_image no_faults env url default_directory fresh_state in
  spec_is_image gif_without_type
  /\ target_path env url default_directory gif_without_type
     = latin1 "Fetched_Images/pixel.gif"
  /\ fst run = Return (true, target_path env url default_directory gif_without_type)
  /\ files (snd run)
     = <[target_path env url default_directory gif_without_type :=
           concat (body gif_without_type)]> (files fresh_state)
  /\ In (MsgFileSize "0.00") (console (snd run))
  /\ exists hundredths,
       nearest_hundredths hundredths
         (Z.of_nat (length (concat (body gif_without_type)))) 1048576
       /\ In (MsgFileSize (two_decimals hundredths)) (console (snd run)).
Proof.
  split; [apply gif_is_an_image|]. split; [vm_compute; reflexivity|].
  assert (forall A B C D : Prop, C -> (A /\ B /\ D) -> A /\ B /\ C /\ D) as Hsplit
    by tauto.
  apply Hsplit; [vm_compute; tauto|].
  apply (image_is_saved_when_nothing_fails no_faults
           (machine 1700000000 gif_without_type)
           (latin1 "https://x/pixel.gif?size=1") default_directory fresh_state
           gif_without_type); try reflexivity.
  - by repeat split.
  - change (~ (400 <= 200 < 600)%Z). lia.
  - apply gif_is_an_image.
  - vm_compute. discriminate.
Defined.

(** *** The errors that leave a call *)

Section Escapes.

Variable Q : exn -> Prop.

Lemma raises_only_ret {A} (a : A) : raises_only Q (ret a).
Proof. by intros st e st'. Qed.

Lemma raises_only_raise {A} (e : exn) : Q e -> raises_only Q (@raise A e).
Proof. intros He st e' st' [= <- _]. done. Qed.

Lemma raises_only_bind {A B} (m : M A) (k : A -> M B) :
  raises_only Q m -> (forall a, raises_only Q (k a)) ->
  raises_only Q (bind m k).
Proof.
  intros Hm Hk st e st' [Hrun|(a & st1 & _ & Hrun)]%bind_raise_inv.
  - by apply (Hm st e st').
  - by apply (Hk a st1 e st').
Qed.

(** What leaves a [try] statement with a clause for every error left its
    clauses. *)
Lemma raises_only_try_except {A} (m : M A) (handler : exn -> M A) :
  (forall e, raises_only Q (handler e)) ->
  raises_only Q (try_except m handler).
Proof.
  intros Hh st e st' (e' & st1 & _ & Hrun)%try_except_raise_inv.
  by apply (Hh e' st1 e st').
Qed.

End Escapes.

(** X7. An [Exception] that leaves [fetch_image] is the error of [mkdir] or
    the error of a [print].  The errors of the request, of the status, of
    the validator, of [urlparse], of [int], of [open], of the writes, of
    the stream and of the size are caught by the clauses, which return a
    failure, unless one of their own [print]s fails. *)
Theorem exception_leaves_only_from_mkdir_or_print (f : Full.Faults) (env : Env)
    (url directory : str) (st st' : State) (e : exn) :
  Full.fetch_image f env url directory st = (Raise e, st') ->
  isinstance e Exception = true ->
  mkdir_error env (pathlib.to_str (pathlib.Path directory)) = Some e
  \/ exists printed m, Full.print_error f printed m = Some e.
Proof.
  set (Q := fun e : exn =>
              isinstance e Exception = true ->
              mkdir_error env (pathlib.to_str (pathlib.Path directory)) = Some e
              \/ exists printed m, Full.print_error f printed m = Some e).
  assert (forall m, raises_only Q (Full.print f m)) as Hprint.
  { intros m s e0 s' Hrun _. right. exists (console s), m.
    unfold Full.print in Hrun.
    destruct (Full.print_error f (console s) m); [|done].
    by injection Hrun as -> _. }
  revert st e st'. change (raises_only Q (Full.fetch_image f env url directory)).
  unfold Full.fetch_image.
  apply raises_only_bind; [apply Hprint | intros _].
  apply raises_only_bind; [apply Hprint | intros _].
  apply raises_only_bind.
  { intros s e0 s' Hrun _. left. unfold mkdir in Hrun.
    destruct (mkdir_error env _); [|done]. by injection Hrun as -> _. }
  intros _. apply raises_only_bind; [apply Hprint | intros _].
  apply raises_only_try_except. intros e0. unfold Full.except_clauses.
  repeat match goal with
         | |- context [isinstance e0 ?c] => destruct (isinstance e0 c) eqn:?
         end;
    try (repeat (apply raises_only_bind; [apply Hprint | intros _]);
         apply raises_only_ret).
  apply raises_only_raise. intros Hexception. congruence.
Qed.

Lemma exception_leaves_only_from_mkdir_or_print_witness :
  let e := mk_exn OSError (latin1 "[Errno 32] Broken pipe") in
  let env := machine 1700000000 png_response in
  fst (Full.fetch_image (closed_pipe_after 4) env (latin1 "https://x/logo.png")
         default_directory fresh_state)
  = Raise e
  /\ (mkdir_error env (pathlib.to_str (pathlib.Path default_directory)) = Some e
      \/ exists printed m,
           Full.print_error (closed_pipe_after 4) printed m = Some e).
Proof.
  split; [vm_compute; reflexivity|].
  apply (exception_leaves_only_from_mkdir_or_print (closed_pipe_after 4)
           (machine 1700000000 png_response) (latin1 "https://x/logo.png")
           default_directory fresh_state
           (snd (Full.fetch_image (closed_pipe_after 4)
                   (machine 1700000000 png_response) (latin1 "https://x/logo.png")
                   default_directory fresh_state)));
    vm_compute; reflexivity.
Defined.

(** *** Two runs of the program where every call can fail *)

(** A URL with an opening bracket and no closing one in its network
    location: [urlparse] raises at line 44, and the clause of the content
    validation returns its message. *)
Lemma unbalanced_bracket_fails_the_fetch :
  let url := latin1 "http://us[er@example.com/pic.png" in
  urllib.urlsplit_error (Full.netloc_error no_faults) url = Some "Invalid IPv6 URL"
  /\ fst (Full.fetch_image no_faults (machine 1700000000 png_response) url
            default_directory fresh_state)
     = Return (false, latin1 "Invalid IPv6 URL")
  /\ files (snd (Full.fetch_image no_faults (machine 1700000000 png_response) url
                   default_directory fresh_state)) = ∅.
Proof. vm_compute. repeat split; reflexivity. Qed.

(** [int] does not skip the separator U+001C, and skips the no-break space
    U+00A0; the message of its error shows the [repr] of the string. *)
Lemma int_white_space :
  py_int (String "028" "7") = None
  /\ int_error (String "028" "7")
     = "invalid literal for int() with base 10: '\x1c7'"
  /\ py_int (String "160" "7") = Some 7%Z
  /\ fst (fetch_image (machine 1700000000
                         (with_content_length (String "028" "7") png_response))
            (latin1 "https://x/logo.png") default_directory fresh_state)
     = Return (false, latin1 "invalid literal for int() with base 10: '\x1c7'").
Proof. vm_compute. repeat split; reflexivity. Qed.
